(** * Meta Agent Search: archive, fitness tracking and search loop

    A shallow embedding of [src/meta-agent-search.ts]: the [ArchiveManager]
    class (load / seed / save / add / updateFitness and its views) and the
    [MetaAgentSearch] class (runGeneration / evaluateAgent / runSearch).

    Modelling conventions.
    - A JavaScript [number] that carries a statistic (accuracy, confidence
      bounds, evaluation count, threshold) is a value of an abstract number
      type [num] with the operations the code applies to it ([Number]).  Two
      instances are given: the reals, on which the general theorems are
      proved (exact arithmetic, the idealisation of binary64), and the
      kernel's binary64 floats, on which the code can be run as it is.
    - A [number] that is rendered into an id string (the generation counter,
      the clock reading) is an integer: [nat] and [N].
    - Objects held by the archive array are heap objects; a reference to one
      is its position in the array ([Ref]), which is stable because the
      array only grows at its end.
    - Exceptions are explicit: a computation returns or throws, and state
      changes made before a throw persist ([M]).
    - The collaborators (clock, oracle, evaluator) are scripts indexed by the
      number of calls made so far ([Env]).  The oracle is told which designs
      the prompt shows or which design a round refines; the prompt texts,
      the logger and the status report do not change any state and are left
      out.
    - In the first part every write of the archive file succeeds and every
      call of the evaluator and of the progress callback returns.  The last
      part ([Faulty]) writes the same functions out with a write that may
      throw, an evaluator that may reject and a callback that may throw,
      none of which the source catches; the theorems on initialization, on
      the round trip through the file and on the search loop are stated
      there.
    - A fitness record is a value.  The source shares one fitness object
      between a candidate and the design [add] makes of it, and between
      [INITIAL_ARCHIVE] and the designs seeded from it; what is stated of
      seeded and added designs is stated of them at the moment they are
      made, and of their ids, flags and positions afterwards. *)

From Stdlib Require Import ZArith NArith Reals Lra Lia String Ascii.
From Stdlib Require Import DecimalString DecimalNat DecimalN.
From Stdlib Require PrimFloat Uint63.
From stdpp Require Import base option list strings.

Set Default Proof Using "Type".
#[local] Open Scope string_scope.
#[local] Open Scope list_scope.

(** ** Numbers *)

Class Number (num : Type) : Type := {
  of_Z : Z -> num;
  nadd : num -> num -> num;
  nsub : num -> num -> num;
  nmul : num -> num -> num;
  ndiv : num -> num -> num;
  nsqrt : num -> num;          (* Math.sqrt *)
  nmax : num -> num -> num;    (* Math.max *)
  nmin : num -> num -> num;    (* Math.min *)
  nltb : num -> num -> bool;   (* <  *)
  ngeb : num -> num -> bool;   (* >= *)
  nfinite : num -> bool;       (* neither NaN nor an infinity *)
  nnegzero : num -> bool;      (* Object.is(x, -0) *)
}.

(** A decimal literal [m / scale], e.g. [decimal 196 100] for [1.96]. *)
Definition decimal {num} `{Number num} (m scale : Z) : num :=
  ndiv (of_Z m) (of_Z scale).

(** Exact arithmetic. *)
Definition Rltb (x y : R) : bool := if Rlt_dec x y then true else false.
Definition Rgeb (x y : R) : bool := if Rge_dec x y then true else false.

#[export] Instance RNumber : Number R := {|
  of_Z := IZR;
  nadd := Rplus;
  nsub := Rminus;
  nmul := Rmult;
  ndiv := Rdiv;
  nsqrt := sqrt;
  nmax := Rmax;
  nmin := Rmin;
  nltb := Rltb;
  ngeb := Rgeb;
  nfinite := fun _ => true;
  nnegzero := fun _ => false;
|}.

(** Binary64, the arithmetic JavaScript runs. *)
Module Binary64.

Definition float := PrimFloat.float.

Definition float_of_Z (z : Z) : float :=
  match z with
  | Z0 => PrimFloat.zero
  | Zpos _ => PrimFloat.of_uint63 (Uint63.of_Z z)
  | Zneg _ => PrimFloat.opp (PrimFloat.of_uint63 (Uint63.of_Z (Z.opp z)))
  end.

Definition is_neg_zero (x : float) : bool :=
  PrimFloat.Leibniz.eqb x PrimFloat.neg_zero.

(* Math.max: NaN if an argument is NaN; +0 is larger than -0. *)
Definition float_max (x y : float) : float :=
  if PrimFloat.is_nan x || PrimFloat.is_nan y then PrimFloat.nan
  else if PrimFloat.ltb x y then y
  else if PrimFloat.ltb y x then x
  else if is_neg_zero x then y else x.

(* Math.min: NaN if an argument is NaN; -0 is smaller than +0. *)
Definition float_min (x y : float) : float :=
  if PrimFloat.is_nan x || PrimFloat.is_nan y then PrimFloat.nan
  else if PrimFloat.ltb x y then x
  else if PrimFloat.ltb y x then y
  else if is_neg_zero x then x else y.

#[export] Instance FloatNumber : Number float := {|
  of_Z := float_of_Z;
  nadd := PrimFloat.add;
  nsub := PrimFloat.sub;
  nmul := PrimFloat.mul;
  ndiv := PrimFloat.div;
  nsqrt := PrimFloat.sqrt;
  nmax := float_max;
  nmin := float_min;
  nltb := PrimFloat.ltb;
  ngeb := fun x y => PrimFloat.leb y x;
  nfinite := fun x => negb (PrimFloat.is_nan x || PrimFloat.is_infinity x);
  nnegzero := is_neg_zero;
|}.

End Binary64.
Import Binary64.

(** ** Decimal rendering of the integers that appear in ids *)

Definition show_nat (n : nat) : string := NilEmpty.string_of_uint (Nat.to_uint n).
Definition show_N (n : N) : string := NilEmpty.string_of_uint (N.to_uint n).

(** ** A computation that returns or throws, over a mutable state *)

Inductive Outcome (A : Type) : Type :=
| Returned (a : A)
| Thrown.
Arguments Returned {A} a.
Arguments Thrown {A}.

Definition M (S A : Type) : Type := S -> Outcome A * S.

Definition ret {S A} (a : A) : M S A := fun s => (Returned a, s).

Definition bind {S A B} (m : M S A) (k : A -> M S B) : M S B :=
  fun s =>
    match m s with
    | (Returned a, s') => k a s'
    | (Thrown, s') => (Thrown, s')
    end.

Definition throw {S A} : M S A := fun s => (Thrown, s).

(* try { m } catch { handler } *)
Definition tryCatch {S A} (m handler : M S A) : M S A :=
  fun s =>
    match m s with
    | (Returned a, s') => (Returned a, s')
    | (Thrown, s') => handler s'
    end.

Definition gets {S A} (f : S -> A) : M S A := fun s => (Returned (f s), s).
Definition modify {S} (f : S -> S) : M S unit := fun s => (Returned tt, f s).

Notation "x <- m ;; k" := (bind m (fun x => k))
  (at level 100, m at next level, right associativity).
Notation "m ;;; k" := (bind m (fun _ => k))
  (at level 100, right associativity).

(** ** Data model *)

Inductive Generation : Type :=
| GenInitial               (* the string "initial" *)
| GenNumber (n : nat).

Definition show_generation (g : Generation) : string :=
  match g with
  | GenInitial => "initial"
  | GenNumber n => show_nat n
  end.

(** The two critique prompts of the refinement rounds. *)
Inductive ReflexionPrompt : Type := REFLEXION_PROMPT_1 | REFLEXION_PROMPT_2.

(** What the oracle returns: [{ name, thought, code }]. *)
Record Proposal : Type := mkProposal {
  prop_name : string;
  prop_thought : string;
  prop_code : string;
}.

(** A reference to a design object: its position in the archive array. *)
Definition Ref : Type := nat.

Section Model.

Context {num : Type} `{Number num}.

Record Fitness : Type := mkFitness {
  accuracy : num;
  confidenceLow : num;
  confidenceHigh : num;
  evaluationCount : num;
}.

Record AgentDesign : Type := mkAgentDesign {
  id : string;
  name : string;
  thought : string;
  code : string;
  generation : Generation;
  fitness : Fitness;
  createdAt : string;
  enabled : bool;
}.

(** [Omit<AgentDesign, "id" | "createdAt" | "enabled">] *)
Record Candidate : Type := mkCandidate {
  cand_name : string;
  cand_thought : string;
  cand_code : string;
  cand_generation : Generation;
  cand_fitness : Fitness;
}.

Record EvaluationResult : Type := mkEvaluationResult {
  success : bool;
  result_accuracy : num;
  errors : list string;
  duration : num;
}.

Record SearchConfig : Type := mkSearchConfig {
  maxGenerations : nat;
  evaluationsPerAgent : nat;
  reflexionSteps : nat;
  minFitnessThreshold : num;
}.

(* { ...a, id, createdAt, enabled } *)
Definition complete (a : Candidate) (i : string) (t : string) (e : bool) : AgentDesign :=
  {| id := i; name := cand_name a; thought := cand_thought a; code := cand_code a;
     generation := cand_generation a; fitness := cand_fitness a;
     createdAt := t; enabled := e |}.

(** *** The baseline agents.  The [code] texts are opaque to the archive
    and are abbreviated here to their first line. *)
Definition INITIAL_ARCHIVE : list Candidate :=
  [ {| cand_name := "Chain-of-Thought";
       cand_thought := "Break down complex problems into step-by-step reasoning before answering.";
       cand_code := "async function forward(task, context) { /* think step by step */ }";
       cand_generation := GenInitial;
       cand_fitness := {| accuracy := decimal 5 10; confidenceLow := decimal 4 10;
                          confidenceHigh := decimal 6 10; evaluationCount := of_Z 0 |} |};
    {| cand_name := "Self-Consistency";
       cand_thought := "Generate multiple reasoning paths and take majority vote for robustness.";
       cand_code := "async function forward(task, context) { /* majority vote of 3 paths */ }";
       cand_generation := GenInitial;
       cand_fitness := {| accuracy := decimal 55 100; confidenceLow := decimal 45 100;
                          confidenceHigh := decimal 65 100; evaluationCount := of_Z 0 |} |};
    {| cand_name := "Reflexion";
       cand_thought := "Iteratively refine answer through self-critique and improvement.";
       cand_code := "async function forward(task, context) { /* attempt, critique, improve */ }";
       cand_generation := GenInitial;
       cand_fitness := {| accuracy := decimal 58 100; confidenceLow := decimal 48 100;
                          confidenceHigh := decimal 68 100; evaluationCount := of_Z 0 |} |};
    {| cand_name := "Tool-Augmented";
       cand_thought := "Use external tools when appropriate to enhance reasoning.";
       cand_code := "async function forward(task, context) { /* analyse, call tool, answer */ }";
       cand_generation := GenInitial;
       cand_fitness := {| accuracy := decimal 52 100; confidenceLow := decimal 42 100;
                          confidenceHigh := decimal 62 100; evaluationCount := of_Z 0 |} |} ].

(** *** Persisted documents.  A parsed JSON value; an object is an
    association list from keys to values. *)
#[local] Unset Elimination Schemes.
Inductive Json : Type :=
| JNull
| JBool (b : bool)
| JNumber (x : num)       (* a statistic *)
| JInteger (z : Z)        (* a counter *)
| JString (s : string)
| JArray (l : list Json)
| JObject (fields : list (string * Json)).
#[local] Set Elimination Schemes.

(* property access [o.k]; [undefined] is [None] *)
Fixpoint field (k : string) (fields : list (string * Json)) : option Json :=
  match fields with
  | [] => None
  | (k', v) :: rest => if String.eqb k k' then Some v else field k rest
  end.

(* [data?.k] on any parsed value *)
Definition property (k : string) (data : Json) : option Json :=
  match data with
  | JObject fields => field k fields
  | _ => None
  end.

Definition encodeGeneration (g : Generation) : Json :=
  match g with
  | GenInitial => JString "initial"
  | GenNumber n => JInteger (Z.of_nat n)
  end.

(* JSON.stringify writes NaN and the infinities as null, and -0 as 0 *)
Definition encodeNumber (x : num) : Json :=
  if nfinite x then JNumber (if nnegzero x then of_Z 0 else x) else JNull.

Definition encodeFitness (f : Fitness) : Json :=
  JObject [ ("accuracy", encodeNumber (accuracy f));
            ("confidenceLow", encodeNumber (confidenceLow f));
            ("confidenceHigh", encodeNumber (confidenceHigh f));
            ("evaluationCount", encodeNumber (evaluationCount f)) ].

(** The numbers that the text of the file gives back as they were. *)
Definition storable (x : num) : bool := nfinite x && negb (nnegzero x).

Definition storableFitness (f : Fitness) : bool :=
  storable (accuracy f) && storable (confidenceLow f) &&
  storable (confidenceHigh f) && storable (evaluationCount f).

Definition encodeDesign (a : AgentDesign) : Json :=
  JObject [ ("name", JString (name a));
            ("thought", JString (thought a));
            ("code", JString (code a));
            ("generation", encodeGeneration (generation a));
            ("fitness", encodeFitness (fitness a));
            ("id", JString (id a));
            ("createdAt", JString (createdAt a));
            ("enabled", JBool (enabled a)) ].

(* JSON.stringify({ agents: this.archive }, null, 2), read back by JSON.parse *)
Definition stringify (archive : list AgentDesign) : Json :=
  JObject [ ("agents", JArray (map encodeDesign archive)) ].

Definition asString (j : option Json) : option string :=
  match j with Some (JString s) => Some s | _ => None end.
(* A statistic that was written as null is read back as null, which every
   arithmetic operation and comparison of this program takes for 0. *)
Definition asNumber (j : option Json) : option num :=
  match j with
  | Some (JNumber x) => Some x
  | Some JNull => Some (of_Z 0)
  | _ => None
  end.
Definition asBool (j : option Json) : option bool :=
  match j with Some (JBool b) => Some b | _ => None end.
Definition asGeneration (j : option Json) : option Generation :=
  match j with
  | Some (JString "initial") => Some GenInitial
  | Some (JInteger z) => if (0 <=? z)%Z then Some (GenNumber (Z.to_nat z)) else None
  | _ => None
  end.

Definition decodeFitness (j : option Json) : option Fitness :=
  match j with
  | Some f =>
      a ← asNumber (property "accuracy" f);
      lo ← asNumber (property "confidenceLow" f);
      hi ← asNumber (property "confidenceHigh" f);
      n ← asNumber (property "evaluationCount" f);
      Some {| accuracy := a; confidenceLow := lo; confidenceHigh := hi; evaluationCount := n |}
  | None => None
  end.

(** The view of a parsed array element as an [AgentDesign] (the cast
    [data.agents] of the source is unchecked). *)
Definition decodeDesign (j : Json) : option AgentDesign :=
  i ← asString (property "id" j);
  n ← asString (property "name" j);
  t ← asString (property "thought" j);
  c ← asString (property "code" j);
  g ← asGeneration (property "generation" j);
  f ← decodeFitness (property "fitness" j);
  ca ← asString (property "createdAt" j);
  e ← asBool (property "enabled" j);
  Some {| id := i; name := n; thought := t; code := c; generation := g;
          fitness := f; createdAt := ca; enabled := e |}.

(** Array elements that are not design records have no counterpart in
    the typed archive and are left out. *)
Definition castAgents (l : list Json) : list AgentDesign := omap decodeDesign l.

(** The text of a file, as [JSON.parse] sees it. *)
Inductive FileText : Type :=
| Garbled                 (* readFileSync or JSON.parse throws *)
| Serialized (j : Json).

Record Disk : Type := mkDisk {
  dirExists : bool;               (* the parent directory of archivePath *)
  file : option FileText;         (* the file at archivePath *)
}.

(** *** Collaborators *)

Inductive OracleRequest : Type :=
| Generate (shown : list AgentDesign)               (* the archive prompt *)
| Refine (design : Proposal) (p : ReflexionPrompt). (* current design + critique prompt *)

Record Env : Type := mkEnv {
  clock : nat -> N;                                  (* Date.now(), ms *)
  toISOString : N -> string;
  completeJson : nat -> OracleRequest -> option Proposal;  (* None: the call rejects *)
  evaluate : nat -> string -> EvaluationResult;      (* evaluator.evaluate(code, tasks) *)
}.

(** *** State: the two objects' fields and the outside world *)
Record State : Type := mkState {
  archive : list AgentDesign;       (* ArchiveManager.archive *)
  generationCounter : nat;          (* MetaAgentSearch.generation *)
  disk : Disk;
  clockReads : nat;
  oracleCalls : nat;
  evaluatorCalls : nat;
  progress : list (nat * Ref);      (* the calls made to onProgress *)
}.

Definition setArchive (l : list AgentDesign) (s : State) : State :=
  mkState l (generationCounter s) (disk s) (clockReads s) (oracleCalls s)
          (evaluatorCalls s) (progress s).
Definition setGenerationCounter (g : nat) (s : State) : State :=
  mkState (archive s) g (disk s) (clockReads s) (oracleCalls s)
          (evaluatorCalls s) (progress s).
Definition setDisk (d : Disk) (s : State) : State :=
  mkState (archive s) (generationCounter s) d (clockReads s) (oracleCalls s)
          (evaluatorCalls s) (progress s).
Definition setClockReads (n : nat) (s : State) : State :=
  mkState (archive s) (generationCounter s) (disk s) n (oracleCalls s)
          (evaluatorCalls s) (progress s).
Definition setOracleCalls (n : nat) (s : State) : State :=
  mkState (archive s) (generationCounter s) (disk s) (clockReads s) n
          (evaluatorCalls s) (progress s).
Definition setEvaluatorCalls (n : nat) (s : State) : State :=
  mkState (archive s) (generationCounter s) (disk s) (clockReads s) (oracleCalls s)
          n (progress s).
Definition setProgress (p : list (nat * Ref)) (s : State) : State :=
  mkState (archive s) (generationCounter s) (disk s) (clockReads s) (oracleCalls s)
          (evaluatorCalls s) p.

End Model.

(** ** ArchiveManager *)

Section ArchiveManager.

Context {num : Type} `{Number num}.
Variable env : @Env num.

#[local] Abbreviation St := (@State num).
#[local] Abbreviation Design := (@AgentDesign num).
#[local] Abbreviation Candidate := (@Candidate num).
#[local] Abbreviation Fitness := (@Fitness num).
#[local] Abbreviation EvaluationResult := (@EvaluationResult num).
#[local] Abbreviation Json := (@Json num).

(* Date.now() *)
Definition dateNow : M St N :=
  fun s => (Returned (clock env (clockReads s)), setClockReads (S (clockReads s)) s).

(* new Date().toISOString() *)
Definition newDateISOString : M St string :=
  t <- dateNow ;; ret (toISOString env t).

(* existsSync(this.archivePath) *)
Definition existsArchiveFile : M St bool :=
  gets (fun s => match file (disk s) with Some _ => true | None => false end).

(* JSON.parse(readFileSync(this.archivePath, "utf-8")) *)
Definition parseArchiveFile : M St Json :=
  fun s =>
    match file (disk s) with
    | Some (Serialized j) => (Returned j, s)
    | Some Garbled => (Thrown, s)
    | None => (Thrown, s)
    end.

Definition save : M St unit :=
  modify (fun s =>
    let d := disk s in
    let d' := if dirExists d then d else mkDisk true (file d) in
    setDisk (mkDisk (dirExists d') (Some (Serialized (stringify (archive s))))) s).

(* INITIAL_ARCHIVE.map((a, i) => ({ ...a, id: `baseline-${i}`, createdAt: ..., enabled: true })) *)
Fixpoint seedFrom (i : nat) (l : list Candidate) : M St (list Design) :=
  match l with
  | [] => ret []
  | a :: rest =>
      t <- newDateISOString ;;
      ds <- seedFrom (S i) rest ;;
      ret (complete a ("baseline-" ++ show_nat i) t true :: ds)
  end.

Definition initializeWithBaseline : M St unit :=
  ds <- seedFrom 0 INITIAL_ARCHIVE ;;
  modify (setArchive ds) ;;;
  save.

Definition load : M St unit :=
  present <- existsArchiveFile ;;
  if present then
    tryCatch
      (data <- parseArchiveFile ;;
       match property "agents" data with
       | Some (JArray agents) => modify (setArchive (castAgents agents))
       | _ => modify (setArchive [])
       end)
      initializeWithBaseline
  else initializeWithBaseline.

(** The constructor: an empty array, then [load]. *)
Definition newArchiveManager : M St unit :=
  modify (setArchive []) ;;; load.

Definition add (agent : Candidate) : M St Ref :=
  t <- dateNow ;;
  iso <- newDateISOString ;;
  let full := complete agent ("gen-" ++ show_generation (cand_generation agent) ++ "-" ++ show_N t)
                       iso true in
  ref <- gets (fun s => length (archive s)) ;;
  modify (fun s => setArchive (archive s ++ [full]) s) ;;;
  save ;;;
  ret ref.

Definition getAll : M St (list Design) := gets archive.

Definition getEnabled : M St (list Design) :=
  gets (fun s => filter (fun a => enabled a = true) (archive s)).

(* sort((a, b) => b.fitness.accuracy - a.fitness.accuracy), a stable sort *)
Definition comesBefore (b a : Design) : bool :=
  nltb (nsub (accuracy (fitness a)) (accuracy (fitness b))) (of_Z 0).

Fixpoint insertDesc (a : Design) (l : list Design) : list Design :=
  match l with
  | [] => [a]
  | b :: rest => if comesBefore b a then b :: insertDesc a rest else a :: b :: rest
  end.

Definition sortDesc (l : list Design) : list Design := foldr insertDesc [] l.

Definition getTopPerforming (n : nat) : M St (list Design) :=
  l <- getEnabled ;; ret (take n (sortDesc l)).

(* this.archive.find(a => a.id === id): the first match, with its position *)
Definition findById (i : string) (l : list Design) : option (Ref * Design) :=
  list_find (fun a => id a = i) l.

Definition nextFitness (f : Fitness) (observed : num) : Fitness :=
  let oldCount := evaluationCount f in
  let newCount := nadd oldCount (of_Z 1) in
  let acc := ndiv (nadd (nmul (accuracy f) oldCount) observed) newCount in
  let variance := ndiv (nmul acc (nsub (of_Z 1) acc)) newCount in
  let stdErr := nsqrt variance in
  {| accuracy := acc;
     confidenceLow := nmax (of_Z 0) (nsub acc (nmul (decimal 196 100) stdErr));
     confidenceHigh := nmin (of_Z 1) (nadd acc (nmul (decimal 196 100) stdErr));
     evaluationCount := newCount |}.

(* if (newCount >= 5 && agent.fitness.accuracy < 0.3) agent.enabled = false *)
Definition retired (f : Fitness) : bool :=
  ngeb (evaluationCount f) (of_Z 5) && nltb (accuracy f) (decimal 3 10).

Definition updated (agent : Design) (result : EvaluationResult) : Design :=
  let f := nextFitness (fitness agent) (result_accuracy result) in
  {| id := id agent; name := name agent; thought := thought agent; code := code agent;
     generation := generation agent; fitness := f; createdAt := createdAt agent;
     enabled := if retired f then false else enabled agent |}.

Definition updateFitness (i : string) (result : EvaluationResult) : M St unit :=
  all <- gets archive ;;
  match findById i all with
  | None => ret tt
  | Some (ref, agent) =>
      modify (fun s => setArchive (<[ref := updated agent result]> (archive s)) s) ;;;
      save
  end.

(* buildArchivePrompt(this.archive): the designs the prompt text renders *)
Definition buildPrompt : M St (list Design) :=
  gets (fun s => take 5 (sortDesc (filter (fun a => enabled a = true) (archive s)))).

End ArchiveManager.

(** ** MetaAgentSearch *)

Section MetaAgentSearch.

Context {num : Type} `{Number num}.
Variable env : @Env num.
Variable config : @SearchConfig num.
(* whether the caller passed an onProgress callback *)
Variable onProgress : bool.

#[local] Abbreviation St := (@State num).
#[local] Abbreviation Design := (@AgentDesign num).
#[local] Abbreviation EvaluationResult := (@EvaluationResult num).

(** The default configuration of the constructor. *)
Definition defaultConfig : @SearchConfig num :=
  {| maxGenerations := 10; evaluationsPerAgent := 5; reflexionSteps := 2;
     minFitnessThreshold := decimal 3 10 |}.

(* await this.llm.completeJson(prompt, SYSTEM_PROMPT) *)
Definition llmCompleteJson (req : OracleRequest) : M St Proposal :=
  fun s =>
    let s' := setOracleCalls (S (oracleCalls s)) s in
    match completeJson env (oracleCalls s) req with
    | Some design => (Returned design, s')
    | None => (Thrown, s')
    end.

(* await this.evaluator.evaluate(agent.code, tasks) *)
Definition evaluatorEvaluate (agentCode : string) : M St EvaluationResult :=
  fun s => (Returned (evaluate env (evaluatorCalls s) agentCode),
            setEvaluatorCalls (S (evaluatorCalls s)) s).

Definition reflexionPrompt (i : nat) : ReflexionPrompt :=
  match i with 0 => REFLEXION_PROMPT_1 | _ => REFLEXION_PROMPT_2 end.

(* one pass of the body of: for (let i = 0; i < reflexionSteps; i++) *)
Definition reflexionRound (i : nat) (design : Proposal) : M St Proposal :=
  tryCatch (llmCompleteJson (Refine design (reflexionPrompt i)))
           (ret design).   (* keep current design if reflexion fails *)

Fixpoint reflexion (remaining i : nat) (design : Proposal) : M St Proposal :=
  match remaining with
  | 0 => ret design
  | S r => design' <- reflexionRound i design ;; reflexion r (S i) design'
  end.

Definition zeroFitness : @Fitness num :=
  {| accuracy := of_Z 0; confidenceLow := of_Z 0; confidenceHigh := of_Z 0;
     evaluationCount := of_Z 0 |}.

Definition runGeneration : M St (option Ref) :=
  modify (fun s => setGenerationCounter (S (generationCounter s)) s) ;;;
  prompt <- buildPrompt ;;
  first <- tryCatch (design <- llmCompleteJson (Generate prompt) ;; ret (Some design))
                    (ret None) ;;
  match first with
  | None => ret None
  | Some design =>
      design <- reflexion (reflexionSteps config) 0 design ;;
      g <- gets generationCounter ;;
      agent <- add env {| cand_name := prop_name design;
                          cand_thought := prop_thought design;
                          cand_code := prop_code design;
                          cand_generation := GenNumber g;
                          cand_fitness := zeroFitness |} ;;
      ret (Some agent)
  end.

Definition notFound : EvaluationResult :=
  {| success := false; result_accuracy := of_Z 0; errors := ["Agent not found"];
     duration := of_Z 0 |}.

Definition evaluateAgent (agentId : string) : M St EvaluationResult :=
  all <- getAll ;;
  match findById agentId all with
  | None => ret notFound
  | Some (_, agent) =>
      result <- evaluatorEvaluate (code agent) ;;
      updateFitness agentId result ;;;
      ret result
  end.

(* reading a field through a reference *)
Definition deref (ref : Ref) : M St Design :=
  fun s =>
    match archive s !! ref with
    | Some a => (Returned a, s)
    | None => (Thrown, s)
    end.

(* onProgress?.(i, agent) *)
Definition callOnProgress (i : nat) (agent : Ref) : M St unit :=
  if onProgress then modify (fun s => setProgress (progress s ++ [(i, agent)]) s)
  else ret tt.

(* the body of: for (let i = 0; i < maxGenerations; i++) *)
Definition searchBody (i : nat) (discovered : list Ref) : M St (list Ref) :=
  generated <- runGeneration ;;
  match generated with
  | None => ret discovered            (* continue *)
  | Some agent =>
      a <- deref agent ;;
      result <- evaluateAgent (id a) ;;
      if ngeb (result_accuracy result) (minFitnessThreshold config) then
        callOnProgress i agent ;;;
        ret (discovered ++ [agent])
      else ret discovered
  end.

Fixpoint searchLoop (remaining i : nat) (discovered : list Ref) : M St (list Ref) :=
  match remaining with
  | 0 => ret discovered
  | S r => discovered' <- searchBody i discovered ;; searchLoop r (S i) discovered'
  end.

Definition runSearch : M St (list Ref) := searchLoop (maxGenerations config) 0 [].

Definition getArchive : M St (list Design) := getAll.

End MetaAgentSearch.

(** * Facts about the archive operations, for any number type *)

Section ArchiveFacts.

Context {num : Type} `{Number num}.

#[local] Abbreviation St := (@State num).
#[local] Abbreviation Design := (@AgentDesign num).
#[local] Abbreviation EvaluationResult := (@EvaluationResult num).

(** What [save] leaves on disk: the directory exists and the file holds the
    serialised archive. *)
Definition persisted (s : St) : St :=
  setDisk (mkDisk true (Some (Serialized (stringify (archive s))))) s.

Lemma save_run (s : St) : save s = (Returned tt, persisted s).
Proof.
  unfold save, modify, persisted. do 2 f_equal.
  destruct (dirExists (disk s)) eqn:E; simpl; rewrite ?E; reflexivity.
Qed.

Lemma persisted_archive (s : St) : archive (persisted s) = archive s.
Proof. reflexivity. Qed.

Lemma findById_Some (i : string) (l : list Design) (ref : Ref) (a : Design) :
  findById i l = Some (ref, a) <->
  l !! ref = Some a /\ id a = i /\
  (forall j b, l !! j = Some b -> j < ref -> id b <> i).
Proof. unfold findById. exact (list_find_Some (fun b => id b = i) l ref a). Qed.

Lemma findById_None (i : string) (l : list Design) :
  findById i l = None <-> Forall (fun a => id a <> i) l.
Proof. unfold findById. exact (list_find_None (fun b => id b = i) l). Qed.

(** An in-place update that keeps the id does not change what a lookup
    by id resolves to. *)
Lemma findById_insert (i : string) (l : list Design) (ref : Ref) (a a' : Design) :
  findById i l = Some (ref, a) -> id a' = id a ->
  findById i (<[ref := a']> l) = Some (ref, a').
Proof.
  rewrite !findById_Some. intros (Hl & Hi & Hfirst) Hid.
  split; [| split].
  - apply list_lookup_insert_eq. eapply lookup_lt_Some; eassumption.
  - congruence.
  - intros j b Hj Hlt. rewrite list_lookup_insert_ne in Hj by lia. eauto.
Qed.

Lemma updated_id (a : Design) (r : EvaluationResult) : id (updated a r) = id a.
Proof. reflexivity. Qed.

Lemma updated_fitness (a : Design) (r : EvaluationResult) :
  fitness (updated a r) = nextFitness (fitness a) (result_accuracy r).
Proof. reflexivity. Qed.

Lemma updated_enabled (a : Design) (r : EvaluationResult) :
  enabled (updated a r) =
  if retired (nextFitness (fitness a) (result_accuracy r)) then false else enabled a.
Proof. reflexivity. Qed.

Lemma updateFitness_found (i : string) (r : EvaluationResult) (s : St)
      (ref : Ref) (a : Design) :
  findById i (archive s) = Some (ref, a) ->
  updateFitness i r s =
  (Returned tt, persisted (setArchive (<[ref := updated a r]> (archive s)) s)).
Proof.
  intros Hfind. unfold updateFitness, bind, gets. rewrite Hfind.
  unfold modify. apply save_run.
Qed.

Lemma updateFitness_missing (i : string) (r : EvaluationResult) (s : St) :
  findById i (archive s) = None -> updateFitness i r s = (Returned tt, s).
Proof.
  intros Hfind. unfold updateFitness, bind, gets. rewrite Hfind. reflexivity.
Qed.

(** A run of successive [updateFitness] calls on one id. *)
Fixpoint updateFitnessEach (i : string) (results : list EvaluationResult) : M St unit :=
  match results with
  | [] => ret tt
  | r :: rest => updateFitness i r ;;; updateFitnessEach i rest
  end.

Lemma updateFitnessEach_found (i : string) (results : list EvaluationResult) :
  forall (s : St) (ref : Ref) (a : Design),
    findById i (archive s) = Some (ref, a) ->
    exists s',
      updateFitnessEach i results s = (Returned tt, s') /\
      archive s' = <[ref := foldl updated a results]> (archive s) /\
      findById i (archive s') = Some (ref, foldl updated a results) /\
      (results <> [] -> disk s' = mkDisk true (Some (Serialized (stringify (archive s'))))).
Proof.
  induction results as [| r rest IH]; intros s ref a Hfind.
  - exists s. simpl. repeat split.
    + symmetry. apply list_insert_id. apply findById_Some in Hfind. tauto.
    + assumption.
    + congruence.
  - pose proof (updateFitness_found i r s ref a Hfind) as Hstep.
    set (s1 := persisted (setArchive (<[ref := updated a r]> (archive s)) s)) in *.
    assert (Hfind1 : findById i (archive s1) = Some (ref, updated a r)).
    { subst s1. simpl. apply findById_insert with (a := a); auto. }
    destruct (IH s1 ref (updated a r) Hfind1) as (s' & Hrun & Harch & Hfind' & Hdisk).
    exists s'. simpl. unfold bind. rewrite Hstep, Hrun.
    repeat split.
    + rewrite Harch. subst s1. simpl. apply list_insert_insert_eq.
    + assumption.
    + intros _. destruct rest as [| r' rest'].
      * simpl in Hrun. injection Hrun as <-. reflexivity.
      * apply Hdisk. congruence.
Qed.

Lemma foldl_updated_fitness (results : list EvaluationResult) (a : Design) :
  fitness (foldl updated a results) =
  foldl nextFitness (fitness a) (map result_accuracy results).
Proof.
  revert a. induction results as [| r rest IH]; intros a; simpl; [reflexivity |].
  rewrite IH. reflexivity.
Qed.

End ArchiveFacts.

(** * Fitness statistics in exact arithmetic *)

Section ExactArithmetic.

#[local] Open Scope R_scope.

#[local] Abbreviation St := (@State R).
#[local] Abbreviation Design := (@AgentDesign R).
#[local] Abbreviation Fit := (@Fitness R).
#[local] Abbreviation Result := (@EvaluationResult R).

Definition Rsum (l : list R) : R := foldr Rplus 0 l.

(** The half-width of the interval computed from a mean and a count. *)
Definition halfWidth (mean count : R) : R := 1.96 * sqrt (mean * (1 - mean) / count).

Lemma Rltb_true (x y : R) : Rltb x y = true <-> x < y.
Proof. unfold Rltb. destruct (Rlt_dec x y); split; intros; try easy. Qed.

Lemma Rgeb_true (x y : R) : Rgeb x y = true <-> x >= y.
Proof. unfold Rgeb. destruct (Rge_dec x y); split; intros; try easy. Qed.

Lemma decimal_R (m scale : Z) : decimal m scale = IZR m / IZR scale.
Proof. reflexivity. Qed.

(** [nextFitness] read over the reals. *)
Lemma nextFitness_R (f : Fit) (a : R) :
  let n := evaluationCount f + 1 in
  let m := (accuracy f * evaluationCount f + a) / n in
  nextFitness f a =
  {| accuracy := m;
     confidenceLow := Rmax 0 (m - halfWidth m n);
     confidenceHigh := Rmin 1 (m + halfWidth m n);
     evaluationCount := n |}.
Proof.
  intros n m. unfold nextFitness, halfWidth, decimal. simpl.
  replace (196 / 100) with 1.96 by lra. reflexivity.
Qed.

Lemma nextFitness_count (f : Fit) (a : R) :
  evaluationCount (nextFitness f a) = evaluationCount f + 1.
Proof. reflexivity. Qed.

Lemma nextFitness_accuracy (f : Fit) (a : R) :
  accuracy (nextFitness f a) =
  (accuracy f * evaluationCount f + a) / (evaluationCount f + 1).
Proof. reflexivity. Qed.

(** The invariant of the running average: mean times count is the sum of
    what was observed. *)
Lemma running_mean (accs : list R) :
  forall (f : Fit) (n : nat) (total : R),
    evaluationCount f = INR n ->
    accuracy f * INR n = total ->
    evaluationCount (foldl nextFitness f accs) = INR (n + length accs) /\
    accuracy (foldl nextFitness f accs) * INR (n + length accs) = total + Rsum accs.
Proof.
  induction accs as [| a rest IH]; intros f n total Hcount Hmean; simpl.
  - rewrite Nat.add_0_r. split; [assumption | lra].
  - assert (Hpos : 0 <= INR n) by apply pos_INR.
    destruct (IH (nextFitness f a) (S n) (total + a)) as [Hc Hm].
    + rewrite nextFitness_count, Hcount, S_INR. reflexivity.
    + rewrite nextFitness_accuracy, Hcount, S_INR. field_simplify; lra.
    + replace (n + S (length rest))%nat with (S n + length rest)%nat by lia.
      split; [assumption | lra].
Qed.

Lemma mean_from_zero (accs : list R) (f : Fit) :
  evaluationCount f = 0 -> accs <> [] ->
  evaluationCount (foldl nextFitness f accs) = INR (length accs) /\
  accuracy (foldl nextFitness f accs) = Rsum accs / INR (length accs).
Proof.
  intros Hzero Hne.
  destruct (running_mean accs f 0 0) as [Hc Hm]; [assumption | simpl; lra |].
  simpl in Hc, Hm. split; [assumption |].
  assert (Hlen : 0 < INR (length accs)).
  { apply lt_0_INR. destruct accs; [congruence | simpl; lia]. }
  apply Rmult_eq_reg_r with (r := INR (length accs)); [| lra].
  rewrite Hm. field. lra.
Qed.

End ExactArithmetic.

(** ** An example world over the reals *)

Definition exampleResult (a : R) : @EvaluationResult R :=
  {| success := true; result_accuracy := a; errors := []; duration := 0%R |}.

Definition exampleEnv : @Env R :=
  {| clock := fun n => (1000 + N.of_nat n)%N;
     toISOString := show_N;
     completeJson := fun n _ =>
       if Nat.even n then Some (mkProposal "Debate" "Two agents argue." "async function forward() {}")
       else None;
     evaluate := fun n _ => exampleResult (if Nat.even n then 0.5 else 0.25)%R |}.

Definition emptyState : @State R :=
  mkState [] 0 (mkDisk false None) 0 0 0 [].

(** A design that has not been evaluated yet. *)
Definition freshDesign : @AgentDesign R :=
  {| id := "gen-1-1000"; name := "Debate"; thought := "Two agents argue.";
     code := "async function forward() {}"; generation := GenNumber 1;
     fitness := zeroFitness; createdAt := "1001"; enabled := true |}.

Definition freshState : @State R :=
  mkState [freshDesign] 1 (mkDisk true (Some (Serialized (stringify [freshDesign])))) 2 0 0 [].

Section FitnessClaims.

#[local] Open Scope R_scope.

#[local] Abbreviation St := (@State R).
#[local] Abbreviation Design := (@AgentDesign R).
#[local] Abbreviation Result := (@EvaluationResult R).


End FitnessClaims.


(** * Confidence bounds *)

Section ConfidenceBounds.

#[local] Open Scope R_scope.

#[local] Abbreviation St := (@State R).
#[local] Abbreviation Design := (@AgentDesign R).
#[local] Abbreviation Fit := (@Fitness R).
#[local] Abbreviation Result := (@EvaluationResult R).

Definition unitInterval (x : R) : Prop := 0 <= x <= 1.

Lemma Rsum_unit (accs : list R) :
  Forall unitInterval accs -> 0 <= Rsum accs <= INR (length accs).
Proof.
  induction 1 as [| a rest Ha _ IH].
  - simpl. lra.
  - change (Rsum (a :: rest)) with (a + Rsum rest).
    change (length (a :: rest)) with (S (length rest)).
    rewrite S_INR. unfold unitInterval in Ha. lra.
Qed.

Lemma mean_unit (accs : list R) (f : Fit) :
  evaluationCount f = 0 -> accs <> [] -> Forall unitInterval accs ->
  unitInterval (accuracy (foldl nextFitness f accs)).
Proof.
  intros Hzero Hne Hall.
  destruct (mean_from_zero accs f Hzero Hne) as [_ ->].
  pose proof (Rsum_unit accs Hall) as Hsum.
  assert (Hlen : 0 < INR (length accs)).
  { apply lt_0_INR. destruct accs; [congruence | simpl; lia]. }
  split.
  - apply Rmult_le_reg_r with (r := INR (length accs)); [assumption |].
    field_simplify; lra.
  - apply Rmult_le_reg_r with (r := INR (length accs)); [assumption |].
    field_simplify; lra.
Qed.

Lemma halfWidth_nonneg (mean count : R) : 0 <= halfWidth mean count.
Proof.
  unfold halfWidth. apply Rmult_le_pos; [lra | apply sqrt_pos].
Qed.

(** The clamped interval around a mean of the unit interval. *)
Lemma clamped_interval (m e : R) :
  unitInterval m -> 0 <= e ->
  0 <= Rmax 0 (m - e) <= m /\ m <= Rmin 1 (m + e) <= 1.
Proof.
  unfold unitInterval. intros Hm He. repeat split.
  - apply Rmax_l.
  - apply Rmax_lub; lra.
  - apply Rmin_glb; lra.
  - apply Rmin_l.
Qed.

(** After at least one update the stored bounds are those of the stored
    mean and count. *)
Lemma bounds_recomputed (accs : list R) (f : Fit) :
  accs <> [] ->
  let g := foldl nextFitness f accs in
  confidenceLow g = Rmax 0 (accuracy g - halfWidth (accuracy g) (evaluationCount g)) /\
  confidenceHigh g = Rmin 1 (accuracy g + halfWidth (accuracy g) (evaluationCount g)).
Proof.
  intros Hne. destruct (exists_last Hne) as (front & a & ->).
  cbv zeta. rewrite foldl_app. cbn [foldl].
  pose proof (nextFitness_R (foldl nextFitness f front) a) as E. cbv zeta in E.
  rewrite E. simpl. split; reflexivity.
Qed.


End ConfidenceBounds.


(** * Retirement *)

Section Retirement.

Context {num : Type} `{Number num}.
Variable env : @Env num.

#[local] Abbreviation St := (@State num).
#[local] Abbreviation Design := (@AgentDesign num).
#[local] Abbreviation Result := (@EvaluationResult num).

(** The public operations of an [ArchiveManager]. *)
Inductive ArchiveOp : Type :=
| OpSave
| OpAdd (agent : @Candidate num)
| OpGetAll
| OpGetEnabled
| OpGetTopPerforming (n : nat)
| OpUpdateFitness (i : string) (result : Result)
| OpBuildPrompt.

Definition perform (op : ArchiveOp) : M St unit :=
  match op with
  | OpSave => save
  | OpAdd agent => add env agent ;;; ret tt
  | OpGetAll => getAll ;;; ret tt
  | OpGetEnabled => getEnabled ;;; ret tt
  | OpGetTopPerforming n => getTopPerforming n ;;; ret tt
  | OpUpdateFitness i result => updateFitness i result
  | OpBuildPrompt => buildPrompt ;;; ret tt
  end.

Fixpoint performAll (ops : list ArchiveOp) : M St unit :=
  match ops with
  | [] => ret tt
  | op :: rest => perform op ;;; performAll rest
  end.

(** The design at a reference is the same design as before, and is
    disabled if it was. *)
Definition staysRetired (s s' : St) : Prop :=
  forall (ref : Ref) (a : Design),
    archive s !! ref = Some a ->
    exists a', archive s' !! ref = Some a' /\ id a' = id a /\
               (enabled a = false -> enabled a' = false).

Lemma staysRetired_refl (s : St) : staysRetired s s.
Proof. intros ref a Ha. exists a. auto. Qed.

Lemma staysRetired_trans (s1 s2 s3 : St) :
  staysRetired s1 s2 -> staysRetired s2 s3 -> staysRetired s1 s3.
Proof.
  intros H12 H23 ref a Ha.
  destruct (H12 ref a Ha) as (b & Hb & Hid & Hen).
  destruct (H23 ref b Hb) as (c & Hc & Hid' & Hen').
  exists c. repeat split; [assumption | congruence | auto].
Qed.

Lemma staysRetired_same_archive (s s' : St) :
  archive s' = archive s -> staysRetired s s'.
Proof. intros E ref a Ha. exists a. rewrite E. auto. Qed.

(** The design [add] builds, and the state it leaves. *)
Definition newDesign (agent : @Candidate num) (s : St) : Design :=
  complete agent
    ("gen-" ++ show_generation (cand_generation agent) ++ "-"
       ++ show_N (clock env (clockReads s)))%string
    (toISOString env (clock env (S (clockReads s)))) true.

Definition afterAdd (agent : @Candidate num) (s : St) : St :=
  persisted (setArchive (archive s ++ [newDesign agent s])
                        (setClockReads (S (S (clockReads s))) s)).

Lemma add_eq (agent : @Candidate num) (s : St) :
  add env agent s = (Returned (length (archive s)), afterAdd agent s).
Proof.
  unfold add, newDateISOString, dateNow, bind, ret, gets, modify.
  cbn -[save]. rewrite save_run. reflexivity.
Qed.

Lemma add_run (agent : @Candidate num) (s : St) :
  exists full s',
    add env agent s = (Returned (length (archive s)), s') /\
    archive s' = archive s ++ [full] /\
    full = newDesign agent s /\
    disk s' = mkDisk true (Some (Serialized (stringify (archive s')))) /\
    generationCounter s' = generationCounter s /\
    clockReads s' = S (S (clockReads s)) /\
    oracleCalls s' = oracleCalls s /\
    evaluatorCalls s' = evaluatorCalls s /\
    progress s' = progress s.
Proof.
  exists (newDesign agent s), (afterAdd agent s).
  rewrite add_eq. repeat split; reflexivity.
Qed.

Lemma updateFitness_staysRetired (i : string) (r : Result) (s : St) :
  exists s', updateFitness i r s = (Returned tt, s') /\ staysRetired s s'.
Proof.
  destruct (findById i (archive s)) as [[ref a] |] eqn:Hfind.
  - eexists. split; [apply updateFitness_found; eassumption |].
    intros ref' b Hb. simpl.
    apply findById_Some in Hfind. destruct Hfind as (Ha & _ & _).
    destruct (decide (ref = ref')) as [<- | Hne].
    + exists (updated a r). rewrite list_lookup_insert_eq by (eapply lookup_lt_Some; eassumption).
      assert (b = a) as -> by congruence.
      repeat split; auto. intros Hoff. rewrite updated_enabled, Hoff.
      destruct (retired _); reflexivity.
    + exists b. rewrite list_lookup_insert_ne by assumption. auto.
  - eexists. split; [apply updateFitness_missing; assumption | apply staysRetired_refl].
Qed.

Lemma perform_staysRetired (op : ArchiveOp) (s : St) :
  exists s', perform op s = (Returned tt, s') /\ staysRetired s s'.
Proof.
  destruct op as [| agent | | | n | i r |]; simpl.
  - exists (persisted s). split; [apply save_run | apply staysRetired_same_archive; reflexivity].
  - destruct (add_run agent s) as (full & s' & Hrun & Harch & _).
    exists s'. unfold bind. rewrite Hrun. split; [reflexivity |].
    intros ref a Ha. exists a. rewrite Harch, lookup_app_l by (eapply lookup_lt_Some; eassumption).
    auto.
  - exists s. split; [reflexivity | apply staysRetired_refl].
  - exists s. split; [reflexivity | apply staysRetired_refl].
  - exists s. split; [reflexivity | apply staysRetired_refl].
  - apply updateFitness_staysRetired.
  - exists s. split; [reflexivity | apply staysRetired_refl].
Qed.

Lemma performAll_staysRetired (ops : list ArchiveOp) :
  forall s : St, exists s', performAll ops s = (Returned tt, s') /\ staysRetired s s'.
Proof.
  induction ops as [| op rest IH]; intros s; simpl.
  - exists s. split; [reflexivity | apply staysRetired_refl].
  - destruct (perform_staysRetired op s) as (s1 & Hop & H1).
    destruct (IH s1) as (s2 & Hrest & H2).
    exists s2. unfold bind. rewrite Hop, Hrest.
    split; [reflexivity | eapply staysRetired_trans; eassumption].
Qed.

(** C2.  (1) When an [updateFitness] call resolves to a design and leaves
    it with [evaluationCount >= 5] and [accuracy < 0.3], the design is
    disabled after the call.  (2) Over any sequence of archive operations
    (save, add, the views, updateFitness with any id and any result), a
    design that is disabled stays in place, keeps its id and is still
    disabled at the end.  Holds for any arithmetic on the numbers. *)
Theorem retirement_is_one_way :
  (forall (s : St) (i : string) (r : Result) (ref : Ref) (a : Design),
      findById i (archive s) = Some (ref, a) ->
      exists (s' : St) (a' : Design),
        updateFitness i r s = (Returned tt, s') /\
        archive s' !! ref = Some a' /\
        (ngeb (evaluationCount (fitness a')) (of_Z 5) = true ->
         nltb (accuracy (fitness a')) (decimal 3 10) = true ->
         enabled a' = false)) /\
  (forall (ops : list ArchiveOp) (s : St) (ref : Ref) (a : Design),
      archive s !! ref = Some a ->
      enabled a = false ->
      exists (s' : St) (a' : Design),
        performAll ops s = (Returned tt, s') /\
        archive s' !! ref = Some a' /\
        id a' = id a /\
        enabled a' = false).
Proof.
  split.
  - intros s i r ref a Hfind.
    eexists. exists (updated a r).
    split; [apply updateFitness_found; eassumption |].
    apply findById_Some in Hfind. destruct Hfind as (Ha & _ & _).
    split.
    + simpl. apply list_lookup_insert_eq. eapply lookup_lt_Some; eassumption.
    + intros Hcount Hmean. rewrite updated_enabled.
      rewrite updated_fitness in Hcount, Hmean.
      unfold retired. rewrite Hcount, Hmean. reflexivity.
  - intros ops s ref a Ha Hoff.
    destruct (performAll_staysRetired ops s) as (s' & Hrun & Hstay).
    destruct (Hstay ref a Ha) as (a' & Ha' & Hid & Hen).
    exists s', a'. auto.
Qed.

End Retirement.

(** * Ids *)

Section Ids.

#[local] Open Scope string_scope.

(** The id [add] gives to a design of generation [g] at clock reading [t]. *)
Definition generatedId (g : Generation) (t : N) : string :=
  "gen-" ++ show_generation g ++ "-" ++ show_N t.

Definition dash : ascii := "-"%char.

Fixpoint dashFree (s : string) : Prop :=
  match s with
  | EmptyString => True
  | String c rest => c <> dash /\ dashFree rest
  end.

Lemma string_of_uint_dashFree (d : Decimal.uint) : dashFree (NilEmpty.string_of_uint d).
Proof.
  induction d; simpl; try exact I; (split; [discriminate | assumption]).
Qed.

Lemma string_of_uint_inj (d d' : Decimal.uint) :
  NilEmpty.string_of_uint d = NilEmpty.string_of_uint d' -> d = d'.
Proof.
  intros E. pose proof (NilEmpty.usu d) as Hd. rewrite E, NilEmpty.usu in Hd. congruence.
Qed.

Lemma show_nat_inj (n n' : nat) : show_nat n = show_nat n' -> n = n'.
Proof.
  unfold show_nat. intros E. apply DecimalNat.Unsigned.to_uint_inj.
  apply string_of_uint_inj. exact E.
Qed.

Lemma show_N_inj (n n' : N) : show_N n = show_N n' -> n = n'.
Proof.
  unfold show_N. intros E. apply DecimalN.Unsigned.to_uint_inj.
  apply string_of_uint_inj. exact E.
Qed.

Lemma show_nat_not_initial (n : nat) : show_nat n <> "initial".
Proof.
  unfold show_nat. destruct (Nat.to_uint n); simpl; discriminate.
Qed.

Lemma show_generation_dashFree (g : Generation) : dashFree (show_generation g).
Proof.
  destruct g; simpl.
  - repeat (split; [discriminate |]). exact I.
  - apply string_of_uint_dashFree.
Qed.

Lemma show_generation_inj (g g' : Generation) :
  show_generation g = show_generation g' -> g = g'.
Proof.
  destruct g as [| n], g' as [| n']; simpl; intros E.
  - reflexivity.
  - symmetry in E. apply show_nat_not_initial in E. contradiction.
  - apply show_nat_not_initial in E. contradiction.
  - f_equal. apply show_nat_inj. exact E.
Qed.

(** A string is cut at its first dash in one way only. *)
Lemma cut_at_dash (a a' b b' : string) :
  dashFree a -> dashFree a' ->
  a ++ String dash b = a' ++ String dash b' -> a = a' /\ b = b'.
Proof.
  revert a'. induction a as [| c a IH]; intros [| c' a'] Ha Ha' E; simpl in *.
  - injection E as ->. auto.
  - injection E as Hc _. destruct Ha' as [Hne _]. congruence.
  - injection E as Hc _. destruct Ha as [Hne _]. congruence.
  - injection E as -> E. destruct Ha as [_ Ha], Ha' as [_ Ha'].
    destruct (IH a' Ha Ha' E) as [-> ->]. auto.
Qed.

Lemma generatedId_inj (g g' : Generation) (t t' : N) :
  generatedId g t = generatedId g' t' -> g = g' /\ t = t'.
Proof.
  unfold generatedId. intros E. simpl in E. injection E as E.
  apply cut_at_dash in E; try apply show_generation_dashFree.
  destruct E as [Eg Et]. split; [apply show_generation_inj | apply show_N_inj]; assumption.
Qed.

Lemma generatedId_not_baseline (g : Generation) (t : N) (i : nat) :
  generatedId g t <> "baseline-" ++ show_nat i.
Proof. unfold generatedId. simpl. discriminate. Qed.

End Ids.

(** * Adding a design *)

Section Adding.

Context {num : Type} `{Number num}.
Variable env : @Env num.

#[local] Abbreviation St := (@State num).
#[local] Abbreviation Design := (@AgentDesign num).

(** C8 (as the code has it).  For every candidate and every state, [add]
    returns a reference to a new design placed at the end of the archive,
    so that [getAll] right afterwards ends with it.  The design carries the
    candidate's name, thought, code, generation and fitness (the fitness is
    the one passed in, not a default), has [enabled = true], the id
    gen-<generation>-<clock reading> and the ISO rendering of the next clock
    reading as [createdAt].  The id differs from every baseline id and from
    every id made from another generation or another clock reading.  The
    archive, new design included, is on disk when [add] returns. *)
Theorem add_appends_and_persists (agent : @Candidate num) (s : St) :
  exists (s' : St) (full : Design),
    add env agent s = (Returned (length (archive s)), s') /\
    archive s' = archive s ++ [full] /\
    archive s' !! length (archive s) = Some full /\
    getAll s' = (Returned (archive s ++ [full]), s') /\
    id full = generatedId (cand_generation agent) (clock env (clockReads s)) /\
    (forall i, id full <> ("baseline-" ++ show_nat i)%string) /\
    (forall g t, id full = generatedId g t ->
                 g = cand_generation agent /\ t = clock env (clockReads s)) /\
    name full = cand_name agent /\
    thought full = cand_thought agent /\
    code full = cand_code agent /\
    generation full = cand_generation agent /\
    fitness full = cand_fitness agent /\
    enabled full = true /\
    createdAt full = toISOString env (clock env (S (clockReads s))) /\
    disk s' = mkDisk true (Some (Serialized (stringify (archive s ++ [full])))).
Proof.
  destruct (add_run env agent s) as (full & s' & Hrun & Harch & Hfull & Hdisk & _).
  exists s', full. subst full.
  split; [assumption |]. split; [assumption |].
  split; [rewrite Harch; apply list_lookup_middle; reflexivity |].
  split; [unfold getAll, gets; rewrite Harch; reflexivity |].
  split; [reflexivity |].
  split; [intros i; apply generatedId_not_baseline |].
  split.
  { intros g t E. symmetry in E. apply generatedId_inj in E. exact E. }
  rewrite Hdisk, Harch. repeat split; reflexivity.
Qed.


End Adding.

(** A design that was retired earlier, in binary64. *)
Definition retiredDesign : @AgentDesign Binary64.float :=
  {| id := "gen-2-2000"; name := "Weak"; thought := "Guess.";
     code := "async function forward() {}"; generation := GenNumber 2;
     fitness := {| accuracy := decimal 1 10; confidenceLow := of_Z 0;
                   confidenceHigh := decimal 36 100; evaluationCount := of_Z 5 |};
     createdAt := "2001"; enabled := false |}.

Definition retiredState : @State Binary64.float :=
  mkState [retiredDesign] 2 (mkDisk true (Some (Serialized (stringify [retiredDesign])))) 2 0 0 [].

Definition perfectResult : @EvaluationResult Binary64.float :=
  {| success := true; result_accuracy := of_Z 1; errors := []; duration := of_Z 0 |}.


(** A clock that gives the same millisecond to successive readings. *)
Definition sameMillisecondEnv : @Env R :=
  {| clock := fun _ => 1000%N;
     toISOString := show_N;
     completeJson := fun _ _ => None;
     evaluate := fun _ _ => exampleResult 0%R |}.

(** A candidate that comes with measurements of its own. *)
Definition measuredCandidate : @Candidate R :=
  {| cand_name := "Imported"; cand_thought := "Measured elsewhere.";
     cand_code := "async function forward() {}"; cand_generation := GenNumber 1;
     cand_fitness := {| accuracy := 0.9%R; confidenceLow := 0.8%R;
                        confidenceHigh := 1%R; evaluationCount := 7%R |} |}.

(** C8, as stated, fails: two [add] calls within one millisecond give the
    second design the id of the first, and a candidate's own fitness is
    stored rather than the default. *)
Lemma add_neither_fresh_nor_default :
  exists (s1 s2 : @State R) (first second : @AgentDesign R),
    add sameMillisecondEnv measuredCandidate emptyState = (Returned 0, s1) /\
    add sameMillisecondEnv measuredCandidate s1 = (Returned 1, s2) /\
    archive s2 = [first; second] /\
    id second = id first /\
    id second = "gen-1-1000" /\
    evaluationCount (fitness second) = 7%R /\
    evaluationCount (fitness second) <> 0%R /\
    accuracy (fitness second) <> 0%R.
Proof.
  set (s1 := afterAdd sameMillisecondEnv measuredCandidate emptyState).
  exists s1, (afterAdd sameMillisecondEnv measuredCandidate s1),
         (newDesign sameMillisecondEnv measuredCandidate emptyState),
         (newDesign sameMillisecondEnv measuredCandidate s1).
  rewrite !add_eq.
  repeat (split; [reflexivity |]).
  simpl. split; lra.
Qed.

(** * Loading and saving *)

Section Persistence.

Context {num : Type} `{Number num}.
Variable env : @Env num.

#[local] Abbreviation St := (@State num).
#[local] Abbreviation Design := (@AgentDesign num).
#[local] Abbreviation Json := (@Json num).

(** The designs [seedFrom] builds when the clock has been read [k] times. *)
Fixpoint seeded (i : nat) (l : list (@Candidate num)) (k : nat) : list Design :=
  match l with
  | [] => []
  | a :: rest =>
      complete a ("baseline-" ++ show_nat i)%string (toISOString env (clock env k)) true
      :: seeded (S i) rest (S k)
  end.

Lemma seedFrom_eq (l : list (@Candidate num)) :
  forall (i : nat) (s : St),
    seedFrom env i l s =
    (Returned (seeded i l (clockReads s)), setClockReads (clockReads s + length l) s).
Proof.
  induction l as [| a rest IH]; intros i s.
  - simpl. unfold ret. rewrite Nat.add_0_r. destruct s; reflexivity.
  - cbn [seedFrom]. unfold bind at 1. unfold newDateISOString, dateNow, bind at 1, ret at 1.
    unfold bind at 1. rewrite IH. unfold ret. cbn [clockReads setClockReads seeded length].
    rewrite Nat.add_succ_r. reflexivity.
Qed.

(** The state [initializeWithBaseline] leaves. *)
Definition reseeded (s : St) : St :=
  persisted (setArchive (seeded 0 INITIAL_ARCHIVE (clockReads s))
                        (setClockReads (clockReads s + 4) s)).

Lemma initializeWithBaseline_eq (s : St) :
  initializeWithBaseline env s = (Returned tt, reseeded s).
Proof.
  unfold initializeWithBaseline, bind. rewrite seedFrom_eq.
  unfold modify. rewrite save_run. reflexivity.
Qed.

Lemma load_absent (s : St) :
  file (disk s) = None -> load env s = (Returned tt, reseeded s).
Proof.
  intros Hfile. unfold load, bind, existsArchiveFile, gets. rewrite Hfile.
  apply initializeWithBaseline_eq.
Qed.

Lemma load_garbled (s : St) :
  file (disk s) = Some Garbled -> load env s = (Returned tt, reseeded s).
Proof.
  intros Hfile. unfold load, bind, existsArchiveFile, gets. rewrite Hfile.
  unfold tryCatch, parseArchiveFile. rewrite Hfile.
  apply initializeWithBaseline_eq.
Qed.

Lemma load_array (s : St) (j : Json) (agents : list Json) :
  file (disk s) = Some (Serialized j) ->
  property "agents" j = Some (JArray agents) ->
  load env s = (Returned tt, setArchive (castAgents agents) s).
Proof.
  intros Hfile Hagents. unfold load, bind, existsArchiveFile, gets. rewrite Hfile.
  unfold tryCatch, parseArchiveFile. rewrite Hfile, Hagents. reflexivity.
Qed.

Lemma load_shapeless (s : St) (j : Json) :
  file (disk s) = Some (Serialized j) ->
  (forall agents, property "agents" j <> Some (JArray agents)) ->
  load env s = (Returned tt, setArchive [] s).
Proof.
  intros Hfile Hshape. unfold load, bind, existsArchiveFile, gets. rewrite Hfile.
  unfold tryCatch, parseArchiveFile. rewrite Hfile.
  destruct (property "agents" j) as [[| | | | | agents |] |] eqn:E;
    try reflexivity.
  exfalso. apply (Hshape agents). reflexivity.
Qed.

Lemma decode_encode_generation (g : Generation) :
  asGeneration (Some (encodeGeneration (num := num) g)) = Some g.
Proof.
  destruct g as [| n]; simpl; [reflexivity |].
  destruct (Z.leb_spec 0 (Z.of_nat n)); [| lia].
  rewrite Nat2Z.id. reflexivity.
Qed.

Lemma decode_encode_fitness (f : @Fitness num) :
  storableFitness f = true -> decodeFitness (Some (encodeFitness f)) = Some f.
Proof.
  destruct f as [a lo hi n]. unfold storableFitness, storable, encodeFitness, encodeNumber. simpl.
  rewrite !andb_true_iff, !negb_true_iff.
  intros [[[[-> ->] [-> ->]] [-> ->]] [-> ->]]. reflexivity.
Qed.

Lemma decode_encode_design (a : Design) :
  storableFitness (fitness a) = true -> decodeDesign (encodeDesign a) = Some a.
Proof.
  destruct a as [i n t c g f ca e]. intros Hfinite. unfold decodeDesign, encodeDesign.
  cbn [property field String.eqb Ascii.eqb Bool.eqb asString asBool mbind option_bind
       id name thought code generation fitness createdAt enabled].
  rewrite decode_encode_generation. cbn [mbind option_bind].
  rewrite decode_encode_fitness by exact Hfinite. reflexivity.
Qed.

Definition storableArchive (l : list Design) : Prop :=
  Forall (fun a => storableFitness (fitness a) = true) l.

Lemma castAgents_encode (l : list Design) :
  storableArchive l -> castAgents (map encodeDesign l) = l.
Proof.
  unfold castAgents. induction 1 as [| a rest Ha _ IH]; [reflexivity |].
  cbn [map omap list_omap]. rewrite decode_encode_design, IH by assumption. reflexivity.
Qed.

(** Loading what [save] wrote gives back the archive that was saved. *)
Lemma load_persisted (s : St) (l : list Design) :
  storableArchive (archive s) ->
  load env (setArchive l (persisted s)) = (Returned tt, persisted s).
Proof.
  intros Hfinite.
  rewrite (load_array _ (stringify (archive s)) (map encodeDesign (archive s)));
    try reflexivity.
  rewrite castAgents_encode by assumption. destruct s; reflexivity.
Qed.

End Persistence.

Section Initialization.

Context {num : Type} `{Number num}.
Variable env : @Env num.

#[local] Abbreviation St := (@State num).

Lemma reseeded_ids (s : St) :
  map id (archive (reseeded env s)) = ["baseline-0"; "baseline-1"; "baseline-2"; "baseline-3"].
Proof. reflexivity. Qed.

End Initialization.

(** A document that parses but whose [agents] field is not an array. *)
Definition shapelessState : @State R :=
  mkState [] 0 (mkDisk true (Some (Serialized (JObject [("agents", JString "none")])))) 0 0 0 [].

(** C3, as stated, fails: on a document of the wrong shape the archive is
    left empty and the baseline is neither seeded nor written. *)
Lemma load_shapeless_leaves_empty :
  exists s' : @State R,
    newArchiveManager exampleEnv shapelessState = (Returned tt, s') /\
    archive s' = [] /\
    disk s' = disk shapelessState.
Proof.
  exists shapelessState. split; [| split; reflexivity].
  unfold newArchiveManager, bind, modify.
  rewrite (load_shapeless exampleEnv _ (JObject [("agents", JString "none")])).
  - reflexivity.
  - reflexivity.
  - intros agents. discriminate.
Qed.

Lemma storableArchive_R (l : list (@AgentDesign R)) : storableArchive l.
Proof. unfold storableArchive. apply Forall_forall. intros a _. reflexivity. Qed.

(** * The baseline retirement scenario *)

Section Scenario.

#[local] Open Scope R_scope.

#[local] Abbreviation St := (@State R).
#[local] Abbreviation Design := (@AgentDesign R).
#[local] Abbreviation Result := (@EvaluationResult R).

(** Below five evaluations the retirement rule does not fire. *)
Lemma enabled_below_five (results : list Result) :
  forall (a : Design) (n : nat),
    evaluationCount (fitness a) = INR n ->
    (n + length results < 5)%nat ->
    enabled (foldl updated a results) = enabled a.
Proof.
  induction results as [| r rest IH]; intros a n Hcount Hlen; [reflexivity |].
  cbn [foldl length] in *.
  assert (Hnext : evaluationCount (fitness (updated a r)) = INR (S n)).
  { rewrite updated_fitness, nextFitness_count, Hcount, S_INR. reflexivity. }
  rewrite (IH (updated a r) (S n)) by (assumption || lia).
  rewrite updated_enabled. unfold retired.
  rewrite <- updated_fitness, Hnext.
  replace (ngeb (INR (S n)) (of_Z 5)) with false; [reflexivity |].
  symmetry. cbn [ngeb of_Z RNumber]. unfold Rgeb.
  destruct (Rge_dec (INR (S n)) 5) as [Hge |]; [| reflexivity].
  exfalso. assert (Hlt : INR (S n) < INR 5) by (apply lt_INR; lia).
  replace (INR 5) with 5 in Hlt by (simpl; lra). lra.
Qed.

(** With five evaluations or more and a mean under 0.3 it does. *)
Lemma retired_R (f : @Fitness R) :
  evaluationCount f >= 5 -> accuracy f < 0.3 -> retired f = true.
Proof.
  intros Hcount Hmean. unfold retired. cbn [ngeb nltb of_Z RNumber]. rewrite decimal_R.
  apply andb_true_iff. split; [apply Rgeb_true; assumption | apply Rltb_true; lra].
Qed.

Definition lowResult : Result := exampleResult 0.1.

(** The archive right after the constructor ran on an empty directory. *)
Definition seededState : St := reseeded exampleEnv emptyState.

Lemma seededState_constructed :
  newArchiveManager exampleEnv emptyState = (Returned tt, seededState).
Proof.
  unfold newArchiveManager, bind, modify. apply load_absent. reflexivity.
Qed.

Lemma seededState_accuracies :
  map (fun a => accuracy (fitness a)) (archive seededState) = [0.5; 0.55; 0.58; 0.52] /\
  map (fun a => evaluationCount (fitness a)) (archive seededState) = [0; 0; 0; 0].
Proof.
  split; cbn [seededState reseeded persisted setDisk setArchive archive seeded
                INITIAL_ARCHIVE map complete fitness cand_fitness accuracy evaluationCount];
    rewrite ?decimal_R;
    repeat (match goal with
            | |- _ :: _ = _ :: _ => apply (f_equal2 cons); [cbn [of_Z RNumber]; lra |]
            end);
    reflexivity.
Qed.

End Scenario.

Section LowUpdates.

#[local] Open Scope R_scope.

#[local] Abbreviation St := (@State R).
#[local] Abbreviation Design := (@AgentDesign R).

Lemma Rsum_replicate_low (k : nat) :
  Rsum (map result_accuracy (replicate k lowResult)) = INR k * 0.1.
Proof.
  induction k as [| k IH].
  - simpl. lra.
  - cbn [replicate map]. change (Rsum (?x :: ?l)) with (x + Rsum l).
    rewrite IH, S_INR. simpl. lra.
Qed.

(** [k] updates with accuracy 0.1 on the first baseline design. *)
Lemma low_updates (k : nat) :
  (1 <= k)%nat ->
  exists (s' : St) (a' : Design),
    updateFitnessEach "baseline-0" (replicate k lowResult) seededState = (Returned tt, s') /\
    findById "baseline-0" (archive s') = Some (0%nat, a') /\
    evaluationCount (fitness a') = INR k /\
    accuracy (fitness a') = 0.1 /\
    ((k < 5)%nat -> enabled a' = true).
Proof.
  intros Hk.
  set (a0 := nth 0 (archive seededState) freshDesign).
  assert (Hfind : findById "baseline-0" (archive seededState) = Some (0%nat, a0)) by reflexivity.
  destruct (updateFitnessEach_found "baseline-0" (replicate k lowResult) seededState 0%nat a0 Hfind)
    as (s' & Hrun & _ & Hfind' & _).
  exists s', (foldl updated a0 (replicate k lowResult)).
  split; [assumption |]. split; [assumption |].
  assert (Hzero : evaluationCount (fitness a0) = 0) by reflexivity.
  assert (Hne : map result_accuracy (replicate k lowResult) <> []).
  { destruct k; [lia | discriminate]. }
  destruct (mean_from_zero _ (fitness a0) Hzero Hne) as [Hc Hm].
  rewrite length_map, length_replicate in Hc, Hm.
  assert (Hpos : 0 < INR k) by (apply lt_0_INR; lia).
  rewrite foldl_updated_fitness. split; [assumption |]. split.
  - rewrite Hm, Rsum_replicate_low. field. lra.
  - intros Hlt. rewrite (enabled_below_five _ a0 0%nat); [reflexivity | assumption |].
    rewrite length_replicate. lia.
Qed.

(** One more such update on a design whose mean is 0.1. *)
Lemma one_more_low (s : St) (a : Design) (k : nat) :
  findById "baseline-0" (archive s) = Some (0%nat, a) ->
  evaluationCount (fitness a) = INR k ->
  accuracy (fitness a) = 0.1 ->
  exists (s' : St) (a' : Design),
    updateFitness "baseline-0" lowResult s = (Returned tt, s') /\
    archive s' !! 0%nat = Some a' /\
    evaluationCount (fitness a') = INR (S k) /\
    accuracy (fitness a') = 0.1 /\
    ((4 <= k)%nat -> enabled a' = false).
Proof.
  intros Hfind Hcount Hmean.
  eexists. exists (updated a lowResult).
  split; [apply updateFitness_found; eassumption |].
  apply findById_Some in Hfind. destruct Hfind as (Ha & _ & _).
  assert (Hpos : 0 <= INR k) by apply pos_INR.
  assert (Hc : evaluationCount (fitness (updated a lowResult)) = INR (S k)).
  { rewrite updated_fitness, nextFitness_count, Hcount, S_INR. reflexivity. }
  assert (Hm : accuracy (fitness (updated a lowResult)) = 0.1).
  { rewrite updated_fitness, nextFitness_accuracy, Hcount, Hmean. simpl. field. lra. }
  split; [simpl; apply list_lookup_insert_eq; eapply lookup_lt_Some; eassumption |].
  split; [assumption |]. split; [assumption |].
  intros Hk. rewrite updated_enabled, <- updated_fitness, retired_R; [reflexivity | |].
  - rewrite Hc. assert (INR 5 <= INR (S k)) by (apply le_INR; lia).
    replace (INR 5) with 5 in * by (simpl; lra). lra.
  - rewrite Hm. lra.
Qed.

End LowUpdates.

(** C4 (as the code has it).  The constructor run on an empty directory
    seeds four designs with accuracies 0.50, 0.55, 0.58, 0.52 and count 0.
    Four [updateFitness] calls with accuracy 0.1 on the 0.50 design
    (baseline-0) leave it with count 4, mean 0.1 and still enabled; a fifth
    leaves it with count 5, mean 0.1 and disabled.  The seeded 0.50 has
    weight 0 in the running mean, since the count starts at 0. *)
Theorem baseline_retirement_scenario :
  exists (s4 s5 : @State R) (a4 a5 : @AgentDesign R),
    newArchiveManager exampleEnv emptyState = (Returned tt, seededState) /\
    map (fun a => accuracy (fitness a)) (archive seededState) = [0.5; 0.55; 0.58; 0.52]%R /\
    map (fun a => evaluationCount (fitness a)) (archive seededState) = [0; 0; 0; 0]%R /\
    updateFitnessEach "baseline-0" (replicate 4 lowResult) seededState = (Returned tt, s4) /\
    archive s4 !! 0 = Some a4 /\
    evaluationCount (fitness a4) = 4%R /\
    accuracy (fitness a4) = 0.1%R /\
    enabled a4 = true /\
    updateFitness "baseline-0" lowResult s4 = (Returned tt, s5) /\
    archive s5 !! 0 = Some a5 /\
    evaluationCount (fitness a5) = 5%R /\
    accuracy (fitness a5) = 0.1%R /\
    enabled a5 = false.
Proof.
  destruct (low_updates 4) as (s4 & a4 & Hrun4 & Hfind4 & Hc4 & Hm4 & He4); [lia |].
  destruct (one_more_low s4 a4 4 Hfind4 Hc4 Hm4) as (s5 & a5 & Hrun5 & Ha5 & Hc5 & Hm5 & He5).
  exists s4, s5, a4, a5.
  destruct seededState_accuracies as [Hacc Hcnt].
  apply findById_Some in Hfind4. destruct Hfind4 as (Ha4 & _ & _).
  split; [apply seededState_constructed |].
  repeat (split; [assumption |]).
  split; [rewrite Hc4; simpl; lra |].
  split; [assumption |].
  split; [apply He4; lia |].
  repeat (split; [assumption |]).
  split; [rewrite Hc5; simpl; lra |].
  split; [assumption |].
  apply He5. lia.
Qed.

(** C4, as stated, fails: after the four updates the mean is not within
    0.05 of 0.18, and after the fifth it is not within 0.05 of 0.164. *)
Lemma scenario_means_differ :
  exists (s4 s5 : @State R) (a4 a5 : @AgentDesign R),
    updateFitnessEach "baseline-0" (replicate 4 lowResult) seededState = (Returned tt, s4) /\
    archive s4 !! 0 = Some a4 /\
    ~ (Rabs (accuracy (fitness a4) - 0.18) <= 0.05)%R /\
    updateFitness "baseline-0" lowResult s4 = (Returned tt, s5) /\
    archive s5 !! 0 = Some a5 /\
    ~ (Rabs (accuracy (fitness a5) - 0.164) <= 0.05)%R.
Proof.
  destruct (low_updates 4) as (s4 & a4 & Hrun4 & Hfind4 & Hc4 & Hm4 & _); [lia |].
  destruct (one_more_low s4 a4 4 Hfind4 Hc4 Hm4) as (s5 & a5 & Hrun5 & Ha5 & _ & Hm5 & _).
  exists s4, s5, a4, a5.
  apply findById_Some in Hfind4. destruct Hfind4 as (Ha4 & _ & _).
  repeat (split; [assumption |]).
  split; [| split; [assumption | split; [assumption |]]].
  - rewrite Hm4. intros Habs. unfold Rabs in Habs.
    destruct (Rcase_abs (0.1 - 0.18)) in Habs; lra.
  - rewrite Hm5. intros Habs. unfold Rabs in Habs.
    destruct (Rcase_abs (0.1 - 0.164)) in Habs; lra.
Qed.

(** * Generations and the search loop *)

Section SearchFacts.

Context {num : Type} `{Number num}.
Variable env : @Env num.
Variable config : @SearchConfig num.
Variable onProgress : bool.

#[local] Abbreviation St := (@State num).
#[local] Abbreviation Design := (@AgentDesign num).
#[local] Abbreviation Result := (@EvaluationResult num).

(** The designs shown to the oracle in state [s]. *)
Definition promptOf (s : St) : list Design :=
  take 5 (sortDesc (filter (fun a => enabled a = true) (archive s))).

(** What a round keeps, in the words of the specification: the refined
    design when the oracle answers, the design from before the round when
    the call fails. *)
Definition roundOutcome (calls i : nat) (design : Proposal) : Proposal :=
  match completeJson env calls (Refine design (reflexionPrompt i)) with
  | Some refined => refined
  | None => design
  end.

(** The design after [remaining] rounds, the first being round [i] and
    using oracle call number [calls]: every round runs. *)
Fixpoint refinedDesign (remaining i : nat) (design : Proposal) (calls : nat) : Proposal :=
  match remaining with
  | 0 => design
  | S r => refinedDesign r (S i) (roundOutcome calls i design) (S calls)
  end.

Lemma reflexionRound_eq (i : nat) (design : Proposal) (s : St) :
  reflexionRound env i design s =
  (Returned (roundOutcome (oracleCalls s) i design), setOracleCalls (S (oracleCalls s)) s).
Proof.
  unfold reflexionRound, tryCatch, llmCompleteJson, roundOutcome, ret.
  destruct (completeJson env (oracleCalls s) (Refine design (reflexionPrompt i))); reflexivity.
Qed.

Lemma reflexion_eq (remaining : nat) :
  forall (i : nat) (design : Proposal) (s : St),
    reflexion env remaining i design s =
    (Returned (refinedDesign remaining i design (oracleCalls s)),
     setOracleCalls (oracleCalls s + remaining) s).
Proof.
  induction remaining as [| r IH]; intros i design s.
  - simpl. unfold ret. rewrite Nat.add_0_r. destruct s; reflexivity.
  - cbn [reflexion refinedDesign]. unfold bind. rewrite reflexionRound_eq, IH.
    cbn [oracleCalls setOracleCalls]. rewrite Nat.add_succ_r. reflexivity.
Qed.

(** The state in which a generation whose first oracle call failed ends. *)
Definition afterFailedGeneration (s : St) : St :=
  setOracleCalls (S (oracleCalls s)) (setGenerationCounter (S (generationCounter s)) s).

Lemma runGeneration_failed (s : St) :
  completeJson env (oracleCalls s) (Generate (promptOf s)) = None ->
  runGeneration env config s = (Returned None, afterFailedGeneration s).
Proof.
  intros Hfail. unfold runGeneration, bind, modify, buildPrompt, gets, tryCatch, llmCompleteJson.
  cbn [archive setGenerationCounter oracleCalls]. fold (promptOf s). rewrite Hfail. reflexivity.
Qed.

(** The candidate a generation hands to [add], and the state just before. *)
Definition generatedCandidate (s : St) (first : Proposal) : @Candidate num :=
  let design := refinedDesign (reflexionSteps config) 0 first (S (oracleCalls s)) in
  {| cand_name := prop_name design; cand_thought := prop_thought design;
     cand_code := prop_code design; cand_generation := GenNumber (S (generationCounter s));
     cand_fitness := zeroFitness |}.

Definition beforeAdd (s : St) : St :=
  setOracleCalls (S (oracleCalls s) + reflexionSteps config)
                 (setGenerationCounter (S (generationCounter s)) s).

Lemma runGeneration_succeeded (s : St) (first : Proposal) :
  completeJson env (oracleCalls s) (Generate (promptOf s)) = Some first ->
  runGeneration env config s =
  (Returned (Some (length (archive s))),
   afterAdd env (generatedCandidate s first) (beforeAdd s)).
Proof.
  intros Hok. unfold runGeneration, bind, modify, buildPrompt, gets, tryCatch, llmCompleteJson.
  cbn [archive setGenerationCounter oracleCalls]. fold (promptOf s). rewrite Hok.
  unfold ret at 1. rewrite reflexion_eq. cbn [oracleCalls setOracleCalls generationCounter
    setGenerationCounter]. rewrite add_eq. reflexivity.
Qed.

Lemma evaluateAgent_found (agentId : string) (s : St) (ref : Ref) (target : Design) :
  findById agentId (archive s) = Some (ref, target) ->
  evaluateAgent env agentId s =
  (Returned (evaluate env (evaluatorCalls s) (code target)),
   persisted (setArchive (<[ref := updated target (evaluate env (evaluatorCalls s) (code target))]>
                            (archive s))
                         (setEvaluatorCalls (S (evaluatorCalls s)) s))).
Proof.
  intros Hfind. unfold evaluateAgent, bind, getAll, gets. rewrite Hfind.
  unfold evaluatorEvaluate.
  rewrite (updateFitness_found agentId _ _ ref target) by exact Hfind.
  reflexivity.
Qed.

Lemma evaluateAgent_missing (agentId : string) (s : St) :
  findById agentId (archive s) = None ->
  evaluateAgent env agentId s = (Returned notFound, s).
Proof.
  intros Hfind. unfold evaluateAgent, bind, getAll, gets. rewrite Hfind. reflexivity.
Qed.

Lemma findById_present (l : list Design) (a : Design) :
  a ∈ l -> exists ref target, findById (id a) l = Some (ref, target).
Proof.
  intros Hin. unfold findById.
  destruct (list_find_elem_of (fun b => id b = id a) l a Hin eq_refl) as [[ref target] E].
  eauto.
Qed.

End SearchFacts.

Section SearchClaims.

Context {num : Type} `{Number num}.
Variable env : @Env num.
Variable config : @SearchConfig num.
Variable onProgress : bool.

#[local] Abbreviation St := (@State num).
#[local] Abbreviation Design := (@AgentDesign num).
#[local] Abbreviation Result := (@EvaluationResult num).

(** C6.  (1) When the first oracle call of a generation fails,
    [runGeneration] returns nothing, and neither the archive nor the disk
    changes.  (2) A refinement round never throws: when its oracle call
    fails it returns the design it was given, otherwise the oracle's
    answer.  (3) When the first call succeeds, whatever happens in the
    refinement calls, [runGeneration] returns a reference to a new design
    at the end of the archive; all [reflexionSteps] rounds have made their
    call, and the new design carries the name, thought and code that the
    rounds leave, the current generation number, zero fitness and
    [enabled = true], and is on disk.  Holds for any arithmetic. *)
Theorem runGeneration_oracle_failures :
  (forall s : St,
      completeJson env (oracleCalls s) (Generate (promptOf s)) = None ->
      exists s',
        runGeneration env config s = (Returned None, s') /\
        archive s' = archive s /\
        disk s' = disk s) /\
  (forall (i : nat) (design : Proposal) (s : St),
      exists (kept : Proposal) (s' : St),
        reflexionRound env i design s = (Returned kept, s') /\
        archive s' = archive s /\
        oracleCalls s' = S (oracleCalls s) /\
        (completeJson env (oracleCalls s) (Refine design (reflexionPrompt i)) = None ->
         kept = design) /\
        (forall refined,
            completeJson env (oracleCalls s) (Refine design (reflexionPrompt i)) = Some refined ->
            kept = refined)) /\
  (forall (s : St) (first : Proposal),
      completeJson env (oracleCalls s) (Generate (promptOf s)) = Some first ->
      exists (s' : St) (full : Design) (final : Proposal),
        runGeneration env config s = (Returned (Some (length (archive s))), s') /\
        archive s' = archive s ++ [full] /\
        oracleCalls s' = S (oracleCalls s) + reflexionSteps config /\
        final = refinedDesign env (reflexionSteps config) 0 first (S (oracleCalls s)) /\
        ((forall n req, oracleCalls s < n -> completeJson env n req = None) -> final = first) /\
        name full = prop_name final /\
        thought full = prop_thought final /\
        code full = prop_code final /\
        generation full = GenNumber (S (generationCounter s)) /\
        fitness full = zeroFitness /\
        enabled full = true /\
        disk s' = mkDisk true (Some (Serialized (stringify (archive s ++ [full]))))).
Proof.
  split; [| split].
  - intros s Hfail. exists (afterFailedGeneration s).
    split; [apply runGeneration_failed; assumption | split; reflexivity].
  - intros i design s. eexists. eexists.
    split; [apply reflexionRound_eq |].
    split; [reflexivity |]. split; [reflexivity |].
    unfold roundOutcome. split.
    + intros ->. reflexivity.
    + intros refined ->. reflexivity.
  - intros s first Hok.
    exists (afterAdd env (generatedCandidate env config s first) (beforeAdd config s)),
           (newDesign env (generatedCandidate env config s first) (beforeAdd config s)),
           (refinedDesign env (reflexionSteps config) 0 first (S (oracleCalls s))).
    split; [apply runGeneration_succeeded; assumption |].
    split; [reflexivity |]. split; [reflexivity |]. split; [reflexivity |].
    split; [| repeat split; reflexivity].
    intros Hsilent.
    assert (Hkeep : forall remaining i d calls,
               oracleCalls s < calls -> refinedDesign env remaining i d calls = d).
    { induction remaining as [| r IH]; intros i d calls Hlt; [reflexivity |].
      cbn [refinedDesign]. unfold roundOutcome. rewrite Hsilent by assumption.
      apply IH. lia. }
    apply Hkeep. lia.
Qed.

(** What one pass of the loop body does after a successful generation. *)
Lemma searchBody_succeeded (i : nat) (discovered : list Ref) (s : St) (first : Proposal) :
  completeJson env (oracleCalls s) (Generate (promptOf s)) = Some first ->
  exists (s' : St) (full target : Design) (ref' : Ref) (result : Result),
    full = newDesign env (generatedCandidate env config s first) (beforeAdd config s) /\
    findById (id full) (archive s ++ [full]) = Some (ref', target) /\
    result = evaluate env (evaluatorCalls s) (code target) /\
    searchBody env config onProgress i discovered s =
    (Returned (if ngeb (result_accuracy result) (minFitnessThreshold config)
               then discovered ++ [length (archive s)] else discovered), s') /\
    archive s' = <[ref' := updated target result]> (archive s ++ [full]) /\
    generationCounter s' = S (generationCounter s) /\
    evaluatorCalls s' = S (evaluatorCalls s) /\
    progress s' =
      (if onProgress && ngeb (result_accuracy result) (minFitnessThreshold config)
       then progress s ++ [(i, length (archive s))] else progress s).
Proof.
  intros Hok.
  set (full := newDesign env (generatedCandidate env config s first) (beforeAdd config s)).
  set (s1 := afterAdd env (generatedCandidate env config s first) (beforeAdd config s)).
  assert (Harch1 : archive s1 = archive s ++ [full]) by reflexivity.
  assert (Hlook : archive s1 !! length (archive s) = Some full).
  { rewrite Harch1. apply list_lookup_middle. reflexivity. }
  destruct (findById_present (archive s1) full) as (ref' & target & Hfind).
  { rewrite Harch1. apply elem_of_app. right. apply list_elem_of_singleton. reflexivity. }
  set (result := evaluate env (evaluatorCalls s) (code target)).
  set (s2 := persisted (setArchive (<[ref' := updated target result]> (archive s1))
                                   (setEvaluatorCalls (S (evaluatorCalls s1)) s1))).
  exists (if onProgress && ngeb (result_accuracy result) (minFitnessThreshold config)
          then setProgress (progress s2 ++ [(i, length (archive s))]) s2 else s2),
         full, target, ref', result.
  split; [reflexivity |]. split; [rewrite <- Harch1; exact Hfind |]. split; [reflexivity |].
  unfold searchBody, bind. rewrite (runGeneration_succeeded env config s first Hok).
  fold s1. cbv beta iota. unfold deref, Ref in *. rewrite Hlook.
  rewrite (evaluateAgent_found env (id full) s1 ref' target Hfind).
  change (evaluate env (evaluatorCalls s1) (code target)) with result. fold s2.
  cbv beta iota. unfold callOnProgress, ret, modify.
  destruct (ngeb (result_accuracy result) (minFitnessThreshold config));
    destruct onProgress; repeat split; reflexivity.
Qed.

Lemma searchBody_failed (i : nat) (discovered : list Ref) (s : St) :
  completeJson env (oracleCalls s) (Generate (promptOf s)) = None ->
  searchBody env config onProgress i discovered s =
  (Returned discovered, afterFailedGeneration s).
Proof.
  intros Hfail. unfold searchBody, bind.
  rewrite (runGeneration_failed env config s Hfail). reflexivity.
Qed.

Lemma searchBody_returns (i : nat) (discovered : list Ref) (s : St) :
  exists discovered' s',
    searchBody env config onProgress i discovered s = (Returned discovered', s') /\
    generationCounter s' = S (generationCounter s).
Proof.
  destruct (completeJson env (oracleCalls s) (Generate (promptOf s))) as [first |] eqn:E.
  - destruct (searchBody_succeeded i discovered s first E)
      as (s' & full & target & ref' & result & _ & _ & _ & Hrun & _ & Hgen & _).
    eauto.
  - rewrite (searchBody_failed i discovered s E). eexists. eexists. split; reflexivity.
Qed.

Lemma searchLoop_returns (remaining : nat) :
  forall (i : nat) (discovered : list Ref) (s : St),
    exists discovered' s',
      searchLoop env config onProgress remaining i discovered s = (Returned discovered', s') /\
      generationCounter s' = generationCounter s + remaining.
Proof.
  induction remaining as [| r IH]; intros i discovered s.
  - exists discovered, s. split; [reflexivity | lia].
  - destruct (searchBody_returns i discovered s) as (d1 & s1 & Hbody & Hgen1).
    destruct (IH (S i) d1 s1) as (d2 & s2 & Hloop & Hgen2).
    exists d2, s2. cbn [searchLoop]. unfold bind. rewrite Hbody, Hloop.
    split; [reflexivity | lia].
Qed.

Lemma searchLoop_all_failed (remaining : nat) :
  (forall n req, completeJson env n req = None) ->
  forall (i : nat) (discovered : list Ref) (s : St),
    exists s',
      searchLoop env config onProgress remaining i discovered s = (Returned discovered, s') /\
      archive s' = archive s /\ disk s' = disk s /\ progress s' = progress s.
Proof.
  intros Hsilent. induction remaining as [| r IH]; intros i discovered s.
  - exists s. repeat split; reflexivity.
  - destruct (IH (S i) discovered (afterFailedGeneration s)) as (s' & Hloop & Ha & Hd & Hp).
    exists s'. cbn [searchLoop]. unfold bind.
    rewrite (searchBody_failed i discovered s (Hsilent _ _)), Hloop.
    repeat split; assumption.
Qed.

End SearchClaims.

(** * The same scenario run in binary64 *)

Definition floatEnv : @Env Binary64.float :=
  {| clock := fun n => (1000 + N.of_nat n)%N;
     toISOString := show_N;
     completeJson := fun n _ =>
       if Nat.even n then Some (mkProposal "Debate" "Two agents argue." "async function forward() {}")
       else None;
     evaluate := fun _ _ =>
       {| success := true; result_accuracy := decimal 1 2; errors := []; duration := of_Z 0 |} |}.

Definition floatEmptyState : @State Binary64.float :=
  mkState [] 0 (mkDisk false None) 0 0 0 [].

Definition floatLowResult : @EvaluationResult Binary64.float :=
  {| success := true; result_accuracy := decimal 1 10; errors := []; duration := of_Z 0 |}.

(** What is observed of the first design after the constructor and [k]
    updates with accuracy 0.1: its enabled flag, whether its count is [k]
    and whether its mean is the double nearest to 0.1. *)
Definition observedAfter (k : nat) : option (bool * bool * bool) :=
  let s := snd ((newArchiveManager floatEnv ;;;
                 updateFitnessEach "baseline-0" (replicate k floatLowResult)) floatEmptyState) in
  (fun a => (enabled a,
             PrimFloat.eqb (evaluationCount (fitness a)) (of_Z (Z.of_nat k)),
             PrimFloat.eqb (accuracy (fitness a)) (decimal 1 10))) <$> (archive s !! 0).

Example binary64_after_four : observedAfter 4 = Some (true, true, true).
Proof. vm_compute. reflexivity. Qed.

Example binary64_after_five : observedAfter 5 = Some (false, true, true).
Proof. vm_compute. reflexivity. Qed.

(** Three generations against an oracle that fails on every odd call and an
    evaluator that always reports 0.5: generations 1 and 3 are stored and
    discovered (0.5 >= 0.3), generation 2 is skipped. *)
Example binary64_search :
  let '(outcome, s) :=
    (newArchiveManager floatEnv ;;;
     runSearch floatEnv (mkSearchConfig 3 5 2 (decimal 3 10)) true) floatEmptyState in
  (outcome, map id (archive s), progress s, generationCounter s)
  = (Returned [4; 5],
     ["baseline-0"; "baseline-1"; "baseline-2"; "baseline-3"; "gen-1-1004"; "gen-3-1006"],
     [(0, 4); (2, 5)], 3).
Proof. vm_compute. reflexivity. Qed.

(** * The theorems at concrete inputs *)

(** A disabled design stays disabled through a perfect score, an [add] and
    a second update. *)
Lemma retirement_is_one_way_witness :
  exists (s' : @State Binary64.float) (a' : @AgentDesign Binary64.float),
    performAll floatEnv
      [OpUpdateFitness "gen-2-2000" perfectResult;
       OpAdd {| cand_name := "Other"; cand_thought := "Another idea.";
                cand_code := "async function forward() {}";
                cand_generation := GenNumber 3; cand_fitness := zeroFitness |};
       OpGetTopPerforming 5;
       OpUpdateFitness "gen-2-2000" perfectResult]
      retiredState = (Returned tt, s') /\
    archive s' !! 0 = Some a' /\
    id a' = id retiredDesign /\
    enabled a' = false.
Proof.
  apply (proj2 (retirement_is_one_way floatEnv)).
  - reflexivity.
  - reflexivity.
Defined.

(** One generation whose first oracle call fails. *)
Lemma runGeneration_oracle_failures_witness :
  exists s' : @State R,
    runGeneration sameMillisecondEnv defaultConfig seededState = (Returned None, s') /\
    archive s' = archive seededState /\
    disk s' = disk seededState.
Proof.
  apply (proj1 (runGeneration_oracle_failures sameMillisecondEnv defaultConfig)).
  reflexivity.
Defined.

(** * The views of the archive: getEnabled and getTopPerforming *)

From Stdlib Require Import Sorted.

Section Views.

Context {num : Type} `{Number num}.

#[local] Abbreviation St := (@State num).
#[local] Abbreviation Design := (@AgentDesign num).

Lemma insertDesc_perm (a : Design) (l : list Design) : insertDesc a l ≡ₚ a :: l.
Proof.
  induction l as [| b rest IH]; simpl; [reflexivity |].
  destruct (comesBefore b a); [| reflexivity].
  rewrite IH. apply Permutation_swap.
Qed.

Lemma sortDesc_perm (l : list Design) : sortDesc l ≡ₚ l.
Proof.
  induction l as [| a rest IH]; simpl; [reflexivity |].
  rewrite insertDesc_perm, IH. reflexivity.
Qed.

Lemma getTopPerforming_eq (n : nat) (s : St) :
  getTopPerforming n s =
  (Returned (take n (sortDesc (filter (fun a => enabled a = true) (archive s)))), s).
Proof. reflexivity. Qed.

(** X1.  [getTopPerforming n] leaves the state alone and returns
    [min n (number of enabled designs)] designs, each enabled and each in
    the archive; together with the designs it cuts off they are exactly the
    enabled designs, each as often as the archive holds it. *)
Theorem getTopPerforming_selects_enabled (n : nat) (s : St) :
  exists top cut : list Design,
    getTopPerforming n s = (Returned top, s) /\
    length top = min n (length (filter (fun a => enabled a = true) (archive s))) /\
    Forall (fun a => enabled a = true /\ a ∈ archive s) top /\
    top ++ cut ≡ₚ filter (fun a => enabled a = true) (archive s).
Proof.
  set (shown := filter (fun a => enabled a = true) (archive s)).
  exists (take n (sortDesc shown)), (drop n (sortDesc shown)).
  split; [apply getTopPerforming_eq |].
  split; [rewrite length_take, (Permutation_length (sortDesc_perm shown)); reflexivity |].
  split; [| rewrite take_drop; apply sortDesc_perm].
  apply Forall_forall. intros a Ha.
  apply subseteq_take in Ha. rewrite sortDesc_perm in Ha.
  apply list_elem_of_filter in Ha. exact Ha.
Qed.

End Views.

Section Ranking.

#[local] Open Scope R_scope.

#[local] Abbreviation Design := (@AgentDesign R).

Definition meanOf (a : Design) : R := accuracy (fitness a).

(** [a] is ranked no lower than [b]. *)
Definition outranks (a b : Design) : Prop := meanOf a >= meanOf b.

Lemma comesBefore_R (b a : Design) : comesBefore b a = true <-> meanOf a < meanOf b.
Proof.
  unfold comesBefore, meanOf. cbn [nltb nsub of_Z RNumber]. rewrite Rltb_true. lra.
Qed.

Lemma insertDesc_sorted (a : Design) (l : list Design) :
  StronglySorted outranks l -> StronglySorted outranks (insertDesc a l).
Proof.
  induction 1 as [| b rest Hsorted IH Hall]; cbn [insertDesc].
  - repeat constructor.
  - destruct (comesBefore b a) eqn:E.
    + apply comesBefore_R in E. constructor; [assumption |].
      rewrite insertDesc_perm. constructor; [unfold outranks; lra | assumption].
    + assert (Hge : meanOf a >= meanOf b).
      { destruct (Rlt_dec (meanOf a) (meanOf b)) as [Hlt |]; [| lra].
        apply comesBefore_R in Hlt. congruence. }
      constructor; [constructor; assumption |].
      constructor; [exact Hge |].
      eapply Forall_impl; [exact Hall |]. unfold outranks. intros c Hc. lra.
Qed.

Lemma sortDesc_sorted (l : list Design) : StronglySorted outranks (sortDesc l).
Proof.
  induction l as [| a rest IH]; cbn [sortDesc foldr];
    [constructor | apply insertDesc_sorted; assumption].
Qed.

Lemma StronglySorted_take (n : nat) (l : list Design) :
  StronglySorted outranks l -> StronglySorted outranks (take n l).
Proof.
  intros Hsorted. revert n. induction Hsorted as [| a rest Hs IH Hall]; intros [| n]; simpl;
    try constructor.
  - apply IH.
  - apply Forall_forall. intros b Hb. apply subseteq_take in Hb.
    rewrite Forall_forall in Hall. auto.
Qed.

Lemma StronglySorted_lookup (l : list Design) :
  StronglySorted outranks l ->
  forall i j a b, l !! i = Some a -> l !! j = Some b -> (i < j)%nat -> outranks a b.
Proof.
  induction 1 as [| c rest Hs IH Hall]; intros i j a b Hi Hj Hlt.
  - rewrite lookup_nil in Hi. discriminate.
  - destruct j as [| j]; [lia |]. simpl in Hj. destruct i as [| i].
    + simpl in Hi. injection Hi as <-. rewrite Forall_forall in Hall.
      apply Hall. eapply list_elem_of_lookup_2. eassumption.
    + simpl in Hi. apply (IH i j); [assumption | assumption | lia].
Qed.

(** X2.  Over the reals, [getTopPerforming] is in descending order of mean
    accuracy: a design at an earlier position has a mean at least as large
    as a design at a later one. *)
Theorem getTopPerforming_descending (n : nat) (s : @State R) :
  exists top : list Design,
    getTopPerforming n s = (Returned top, s) /\
    forall (i j : nat) (a b : Design),
      top !! i = Some a -> top !! j = Some b -> (i < j)%nat ->
      accuracy (fitness a) >= accuracy (fitness b).
Proof.
  eexists. split; [apply getTopPerforming_eq |].
  apply StronglySorted_lookup, StronglySorted_take, sortDesc_sorted.
Qed.

#[local] Instance mean_eq_dec (v : R) (a : Design) : Decision (meanOf a = v) :=
  Req_dec_T (meanOf a) v.

Lemma insertDesc_stable (v : R) (a : Design) (l : list Design) :
  filter (fun b => meanOf b = v) (insertDesc a l) =
  filter (fun b => meanOf b = v) (a :: l).
Proof.
  induction l as [| b rest IH]; cbn [insertDesc]; [reflexivity |].
  destruct (comesBefore b a) eqn:E; [| reflexivity].
  apply comesBefore_R in E.
  rewrite (filter_cons _ b), IH, !(filter_cons _ a), (filter_cons _ b).
  destruct (decide (meanOf b = v)), (decide (meanOf a = v)); try reflexivity; lra.
Qed.

Lemma sortDesc_stable (v : R) (l : list Design) :
  filter (fun b => meanOf b = v) (sortDesc l) = filter (fun b => meanOf b = v) l.
Proof.
  induction l as [| a rest IH]; cbn [sortDesc foldr]; [reflexivity |].
  fold (sortDesc rest). rewrite insertDesc_stable, !filter_cons, IH. reflexivity.
Qed.

(** X3.  Over the reals, ties keep archive order: among the designs returned
    by [getTopPerforming], those with one and the same mean come in the
    order in which the archive holds them, with none skipped. *)
Theorem getTopPerforming_stable (n : nat) (v : R) (s : @State R) :
  exists top : list Design,
    getTopPerforming n s = (Returned top, s) /\
    filter (fun a => accuracy (fitness a) = v) top `prefix_of`
    filter (fun a => accuracy (fitness a) = v)
           (filter (fun a => enabled a = true) (archive s)).
Proof.
  eexists. split; [apply getTopPerforming_eq |].
  set (shown := filter (fun a => enabled a = true) (archive s)).
  change (fun a : Design => accuracy (fitness a) = v) with (fun a : Design => meanOf a = v).
  rewrite <- (sortDesc_stable v shown).
  rewrite <- (take_drop n (sortDesc shown)) at 2. rewrite filter_app.
  apply prefix_app_r. reflexivity.
Qed.

End Ranking.

(** * Unknown ids *)

Section UnknownId.

Context {num : Type} `{Number num}.
Variable env : @Env num.

#[local] Abbreviation St := (@State num).
#[local] Abbreviation Design := (@AgentDesign num).
#[local] Abbreviation Result := (@EvaluationResult num).

(** X4.  [updateFitness] on an id that no design of the archive has does
    nothing at all: the archive is as it was and nothing is written. *)
Theorem updateFitness_unknown_id (i : string) (r : Result) (s : St) :
  Forall (fun a => id a <> i) (archive s) ->
  updateFitness i r s = (Returned tt, s).
Proof.
  intros Hnone. apply updateFitness_missing, findById_None. exact Hnone.
Qed.

(** X5.  [evaluateAgent] on an id that no design of the archive has returns
    the failure result (no success, accuracy 0, the one error message
    "Agent not found", duration 0) without a call to the evaluator and
    without touching the archive or the disk. *)
Theorem evaluateAgent_unknown_id (agentId : string) (s : St) :
  Forall (fun a => id a <> agentId) (archive s) ->
  exists result : Result,
    evaluateAgent env agentId s = (Returned result, s) /\
    success result = false /\
    result_accuracy result = of_Z 0 /\
    errors result = ["Agent not found"] /\
    duration result = of_Z 0.
Proof.
  intros Hnone. exists notFound.
  split; [apply evaluateAgent_missing, findById_None; exact Hnone |].
  repeat split; reflexivity.
Qed.

(** X6.  On an id that some design has, [evaluateAgent] calls the evaluator
    once, on the code of the first design with that id, returns what the
    evaluator returned, and ends in the state in which [updateFitness]
    with that id and that result ends. *)
Theorem evaluateAgent_known_id (agentId : string) (s : St) (a : Design) :
  a ∈ archive s -> id a = agentId ->
  exists (s' : St) (ref : Ref) (target : Design),
    findById agentId (archive s) = Some (ref, target) /\
    evaluateAgent env agentId s
    = (Returned (evaluate env (evaluatorCalls s) (code target)), s') /\
    updateFitness agentId (evaluate env (evaluatorCalls s) (code target))
                  (setEvaluatorCalls (S (evaluatorCalls s)) s)
    = (Returned tt, s') /\
    evaluatorCalls s' = S (evaluatorCalls s) /\
    archive s' !! ref = Some (updated target (evaluate env (evaluatorCalls s) (code target))).
Proof.
  intros Hin Hid. subst agentId.
  destruct (findById_present (archive s) a Hin) as (ref & target & Hfind).
  eexists. exists ref, target.
  split; [exact Hfind |].
  split; [apply evaluateAgent_found; exact Hfind |].
  split; [apply (updateFitness_found _ _ (setEvaluatorCalls (S (evaluatorCalls s)) s) ref target);
          exact Hfind |].
  split; [reflexivity |].
  simpl. apply list_lookup_insert_eq.
  apply findById_Some in Hfind. destruct Hfind as (Hl & _). eapply lookup_lt_Some; eassumption.
Qed.

End UnknownId.

Lemma updateFitness_unknown_id_witness :
  updateFitness "gen-9-9999" perfectResult retiredState = (Returned tt, retiredState).
Proof.
  apply (updateFitness_unknown_id "gen-9-9999" perfectResult retiredState).
  repeat constructor. discriminate.
Defined.

Lemma evaluateAgent_unknown_id_witness :
  exists result : @EvaluationResult Binary64.float,
    evaluateAgent floatEnv "gen-9-9999" retiredState = (Returned result, retiredState) /\
    success result = false /\
    result_accuracy result = of_Z 0 /\
    errors result = ["Agent not found"] /\
    duration result = of_Z 0.
Proof.
  apply (evaluateAgent_unknown_id floatEnv "gen-9-9999" retiredState).
  repeat constructor. discriminate.
Defined.

Lemma evaluateAgent_known_id_witness :
  exists (s' : @State Binary64.float) (ref : Ref) (target : @AgentDesign Binary64.float),
    findById "gen-2-2000" (archive retiredState) = Some (ref, target) /\
    evaluateAgent floatEnv "gen-2-2000" retiredState
    = (Returned (evaluate floatEnv (evaluatorCalls retiredState) (code target)), s') /\
    updateFitness "gen-2-2000"
      (evaluate floatEnv (evaluatorCalls retiredState) (code target))
      (setEvaluatorCalls (S (evaluatorCalls retiredState)) retiredState)
    = (Returned tt, s') /\
    evaluatorCalls s' = S (evaluatorCalls retiredState) /\
    archive s' !! ref
    = Some (updated target (evaluate floatEnv (evaluatorCalls retiredState) (code target))).
Proof.
  apply (evaluateAgent_known_id floatEnv "gen-2-2000" retiredState retiredDesign).
  - apply list_elem_of_singleton. reflexivity.
  - reflexivity.
Defined.

(** * What the archive operations keep *)

Section Invariants.

Context {num : Type} `{Number num}.
Variable env : @Env num.

#[local] Abbreviation St := (@State num).
#[local] Abbreviation Design := (@AgentDesign num).
#[local] Abbreviation Result := (@EvaluationResult num).

(** The fields that no operation writes after creation. *)
Definition sameIdentity (a a' : Design) : Prop :=
  id a' = id a /\ name a' = name a /\ thought a' = thought a /\ code a' = code a /\
  generation a' = generation a /\ createdAt a' = createdAt a.

(** Nothing was removed or moved, and identities were kept. *)
Definition grownFrom (s s' : St) : Prop :=
  length (archive s) <= length (archive s') /\
  forall (ref : Ref) (a : Design),
    archive s !! ref = Some a ->
    exists a', archive s' !! ref = Some a' /\ sameIdentity a a'.

Lemma sameIdentity_refl (a : Design) : sameIdentity a a.
Proof. repeat split. Qed.

Lemma sameIdentity_trans (a b c : Design) :
  sameIdentity a b -> sameIdentity b c -> sameIdentity a c.
Proof.
  unfold sameIdentity. intros (? & ? & ? & ? & ? & ?) (? & ? & ? & ? & ? & ?).
  repeat split; congruence.
Qed.

Lemma grownFrom_refl (s : St) : grownFrom s s.
Proof. split; [lia |]. intros ref a Ha. exists a. split; [assumption | apply sameIdentity_refl]. Qed.

Lemma grownFrom_trans (s1 s2 s3 : St) : grownFrom s1 s2 -> grownFrom s2 s3 -> grownFrom s1 s3.
Proof.
  intros [Hlen12 H12] [Hlen23 H23]. split; [lia |].
  intros ref a Ha. destruct (H12 ref a Ha) as (b & Hb & Hab).
  destruct (H23 ref b Hb) as (c & Hc & Hbc).
  exists c. split; [assumption | eapply sameIdentity_trans; eassumption].
Qed.

Lemma grownFrom_same (s s' : St) : archive s' = archive s -> grownFrom s s'.
Proof.
  intros E. split; [rewrite E; lia |].
  intros ref a Ha. exists a. rewrite E. split; [assumption | apply sameIdentity_refl].
Qed.

Lemma grownFrom_app (s s' : St) (l : list Design) :
  archive s' = archive s ++ l -> grownFrom s s'.
Proof.
  intros E. split; [rewrite E, length_app; lia |].
  intros ref a Ha. exists a. rewrite E, lookup_app_l by (eapply lookup_lt_Some; eassumption).
  split; [assumption | apply sameIdentity_refl].
Qed.

Lemma grownFrom_updated (s s' : St) (ref : Ref) (target : Design) (r : Result) :
  archive s !! ref = Some target ->
  archive s' = <[ref := updated target r]> (archive s) ->
  grownFrom s s'.
Proof.
  intros Htarget E. split; [rewrite E, length_insert; lia |].
  intros ref' a Ha. rewrite E. destruct (decide (ref = ref')) as [<- | Hne].
  - exists (updated target r).
    rewrite list_lookup_insert_eq by (eapply lookup_lt_Some; eassumption).
    assert (a = target) as -> by congruence.
    split; [reflexivity | repeat split].
  - exists a. rewrite list_lookup_insert_ne by assumption.
    split; [assumption | apply sameIdentity_refl].
Qed.

Lemma updateFitness_grows (i : string) (r : Result) (s : St) :
  exists s', updateFitness i r s = (Returned tt, s') /\ grownFrom s s'.
Proof.
  destruct (findById i (archive s)) as [[ref target] |] eqn:Hfind.
  - eexists. split; [apply updateFitness_found; eassumption |].
    apply findById_Some in Hfind. destruct Hfind as (Htarget & _).
    eapply grownFrom_updated; [exact Htarget | reflexivity].
  - exists s. split; [apply updateFitness_missing; assumption | apply grownFrom_refl].
Qed.

Lemma perform_grows (op : ArchiveOp) (s : St) :
  exists s', perform env op s = (Returned tt, s') /\ grownFrom s s'.
Proof.
  destruct op as [| agent | | | n | i r |]; simpl.
  - exists (persisted s). split; [apply save_run | apply grownFrom_same; reflexivity].
  - exists (afterAdd env agent s). unfold bind. rewrite add_eq.
    split; [reflexivity | eapply grownFrom_app; reflexivity].
  - exists s. split; [reflexivity | apply grownFrom_refl].
  - exists s. split; [reflexivity | apply grownFrom_refl].
  - exists s. split; [reflexivity | apply grownFrom_refl].
  - apply updateFitness_grows.
  - exists s. split; [reflexivity | apply grownFrom_refl].
Qed.

Lemma performAll_grows (ops : list ArchiveOp) :
  forall s : St, exists s', performAll env ops s = (Returned tt, s') /\ grownFrom s s'.
Proof.
  induction ops as [| op rest IH]; intros s; simpl.
  - exists s. split; [reflexivity | apply grownFrom_refl].
  - destruct (perform_grows op s) as (s1 & Hop & H1).
    destruct (IH s1) as (s2 & Hrest & H2).
    exists s2. unfold bind. rewrite Hop, Hrest.
    split; [reflexivity | eapply grownFrom_trans; eassumption].
Qed.


(** The file holds the serialised archive. *)
Definition inSync (s : St) : Prop :=
  file (disk s) = Some (Serialized (stringify (archive s))).

Lemma persisted_inSync (s : St) : inSync (persisted s).
Proof. reflexivity. Qed.

Lemma updateFitness_inSync (i : string) (r : Result) (s : St) :
  inSync s -> exists s', updateFitness i r s = (Returned tt, s') /\ inSync s'.
Proof.
  intros Hsync. destruct (findById i (archive s)) as [[ref target] |] eqn:Hfind.
  - eexists. split; [apply updateFitness_found; eassumption | apply persisted_inSync].
  - exists s. split; [apply updateFitness_missing; assumption | assumption].
Qed.

Lemma perform_inSync (op : ArchiveOp) (s : St) :
  inSync s -> exists s', perform env op s = (Returned tt, s') /\ inSync s'.
Proof.
  intros Hsync. destruct op as [| agent | | | n | i r |]; simpl.
  - exists (persisted s). split; [apply save_run | apply persisted_inSync].
  - exists (afterAdd env agent s). unfold bind. rewrite add_eq.
    split; [reflexivity | apply persisted_inSync].
  - exists s. split; [reflexivity | assumption].
  - exists s. split; [reflexivity | assumption].
  - exists s. split; [reflexivity | assumption].
  - apply updateFitness_inSync. assumption.
  - exists s. split; [reflexivity | assumption].
Qed.

Lemma performAll_inSync (ops : list ArchiveOp) :
  forall s : St, inSync s -> exists s', performAll env ops s = (Returned tt, s') /\ inSync s'.
Proof.
  induction ops as [| op rest IH]; intros s Hsync; simpl.
  - exists s. split; [reflexivity | assumption].
  - destruct (perform_inSync op s Hsync) as (s1 & Hop & H1).
    destruct (IH s1 H1) as (s2 & Hrest & H2).
    exists s2. unfold bind. rewrite Hop, Hrest. split; [reflexivity | assumption].
Qed.

(** X8.  No write batching: if the file holds the serialised archive, then
    after any sequence of archive operations it holds the serialised
    archive of that moment.  (After the constructor it does, unless it
    found a document it could parse.) *)
Theorem disk_follows_archive (ops : list ArchiveOp) (s : St) :
  file (disk s) = Some (Serialized (stringify (archive s))) ->
  exists s' : St,
    performAll env ops s = (Returned tt, s') /\
    file (disk s') = Some (Serialized (stringify (archive s'))).
Proof. intros Hsync. apply performAll_inSync. exact Hsync. Qed.

End Invariants.

(** * More on fitness statistics, in exact arithmetic *)

Section FitnessProperties.

#[local] Open Scope R_scope.

#[local] Abbreviation St := (@State R).
#[local] Abbreviation Design := (@AgentDesign R).
#[local] Abbreviation Fit := (@Fitness R).
#[local] Abbreviation Result := (@EvaluationResult R).

Lemma retired_R_iff (f : Fit) :
  retired f = true <-> evaluationCount f >= 5 /\ accuracy f < 0.3.
Proof.
  unfold retired. cbn [ngeb nltb of_Z RNumber]. rewrite decimal_R, andb_true_iff.
  rewrite Rgeb_true, Rltb_true. replace (3 / 10) with 0.3 by lra. reflexivity.
Qed.

(** X9.  The retirement rule, exactly: after an update that resolves to a
    design, the design is enabled if and only if it was enabled before and
    its new count is below 5 or its new mean is at least 0.3. *)
Theorem updateFitness_retires_exactly
        (s : St) (i : string) (r : Result) (ref : Ref) (a : Design) :
  findById i (archive s) = Some (ref, a) ->
  exists (s' : St) (a' : Design),
    updateFitness i r s = (Returned tt, s') /\
    archive s' !! ref = Some a' /\
    (enabled a' = true <->
     enabled a = true /\
     (evaluationCount (fitness a') < 5 \/ accuracy (fitness a') >= 0.3)).
Proof.
  intros Hfind. eexists. exists (updated a r).
  split; [apply updateFitness_found; eassumption |].
  apply findById_Some in Hfind. destruct Hfind as (Ha & _).
  split; [simpl; apply list_lookup_insert_eq; eapply lookup_lt_Some; eassumption |].
  rewrite updated_enabled, <- updated_fitness.
  destruct (retired (fitness (updated a r))) eqn:E.
  - apply retired_R_iff in E. split; [discriminate | intros [_ [Hlt | Hge]]; lra].
  - split; [intros Hen; split; [assumption |] | tauto].
    destruct (Rlt_dec (evaluationCount (fitness (updated a r))) 5) as [| Hcount]; [tauto |].
    destruct (Rlt_dec (accuracy (fitness (updated a r))) 0.3) as [Hmean |]; [| right; lra].
    exfalso. assert (Hret : retired (fitness (updated a r)) = true).
    { apply retired_R_iff. split; lra. }
    congruence.
Qed.

(** X10.  No design is retired on fewer than five evaluations: a design that
    starts at count 0 keeps its [enabled] flag through any run of fewer
    than five updates, whatever the accuracies. *)
Theorem fewer_than_five_never_retire (s : St) (ref : Ref) (a : Design) (results : list Result) :
  findById (id a) (archive s) = Some (ref, a) ->
  evaluationCount (fitness a) = 0 ->
  (length results < 5)%nat ->
  exists (s' : St) (a' : Design),
    updateFitnessEach (id a) results s = (Returned tt, s') /\
    archive s' !! ref = Some a' /\
    evaluationCount (fitness a') = INR (length results) /\
    enabled a' = enabled a.
Proof.
  intros Hfind Hzero Hlen.
  destruct (updateFitnessEach_found (id a) results s ref a Hfind)
    as (s' & Hrun & _ & Hfind' & _).
  exists s', (foldl updated a results).
  apply findById_Some in Hfind'. destruct Hfind' as (Hlook & _).
  split; [assumption |]. split; [assumption |].
  split; [| apply (enabled_below_five results a 0%nat); [exact Hzero | lia]].
  rewrite foldl_updated_fitness.
  assert (Hcount : forall (l : list Result) (f : @Fitness R) (n : nat),
             evaluationCount f = INR n ->
             evaluationCount (foldl nextFitness f (map result_accuracy l)) = INR (n + length l)).
  { induction l as [| r rest IH]; intros f n Hf.
    - simpl. rewrite Nat.add_0_r. exact Hf.
    - cbn [map foldl length]. rewrite (IH _ (S n)).
      + f_equal. lia.
      + rewrite nextFitness_count, Hf, S_INR. reflexivity. }
  rewrite (Hcount results (fitness a) 0%nat); [reflexivity | exact Hzero].
Qed.

Lemma Rsum_below (accs : list R) (bound : R) :
  Forall (fun x => x < bound) accs -> accs <> [] ->
  Rsum accs < bound * INR (length accs).
Proof.
  induction 1 as [| x rest Hx Hrest IH]; intros Hne; [congruence |].
  change (Rsum (x :: rest)) with (x + Rsum rest).
  change (length (x :: rest)) with (S (length rest)). rewrite S_INR.
  destruct rest as [| y rest'].
  - simpl. lra.
  - assert (Rsum (y :: rest') < bound * INR (length (y :: rest'))) by (apply IH; discriminate).
    lra.
Qed.

(** X11.  A design that starts at count 0 and scores below 0.3 every time is
    disabled once it has had five updates or more. *)
Theorem poor_scores_retire (s : St) (ref : Ref) (a : Design) (results : list Result) :
  findById (id a) (archive s) = Some (ref, a) ->
  evaluationCount (fitness a) = 0 ->
  (5 <= length results)%nat ->
  Forall (fun r => result_accuracy r < 0.3) results ->
  exists (s' : St) (a' : Design),
    updateFitnessEach (id a) results s = (Returned tt, s') /\
    archive s' !! ref = Some a' /\
    enabled a' = false.
Proof.
  intros Hfind Hzero Hlen Hall.
  destruct (updateFitnessEach_found (id a) results s ref a Hfind)
    as (s' & Hrun & _ & Hfind' & _).
  exists s', (foldl updated a results).
  apply findById_Some in Hfind'. destruct Hfind' as (Hlook & _).
  split; [assumption |]. split; [assumption |].
  assert (Hne : results <> []) by (destruct results; [simpl in Hlen; lia | discriminate]).
  destruct (exists_last Hne) as (front & r & E).
  assert (Hfit : retired (fitness (foldl updated a results)) = true).
  { rewrite foldl_updated_fitness.
    assert (Hne' : map result_accuracy results <> []) by (destruct results; [congruence | discriminate]).
    destruct (mean_from_zero _ (fitness a) Hzero Hne') as [Hc Hm].
    rewrite length_map in Hc, Hm.
    assert (Hfive : INR 5 <= INR (length results)) by (apply le_INR; exact Hlen).
    replace (INR 5) with 5 in Hfive by (simpl; lra).
    apply retired_R_iff. split; [lra |].
    rewrite Hm. apply Rmult_lt_reg_r with (r := INR (length results)); [lra |].
    replace (Rsum (map result_accuracy results) / INR (length results) * INR (length results))
      with (Rsum (map result_accuracy results)) by (field; lra).
    rewrite <- (length_map result_accuracy results).
    apply Rsum_below; [| assumption].
    apply Forall_map. exact Hall. }
  rewrite E in *. rewrite foldl_app in *. cbn [foldl] in *.
  rewrite updated_enabled, <- updated_fitness, Hfit. reflexivity.
Qed.


(** Counts were kept or raised. *)
Definition countsKept (s s' : St) : Prop :=
  forall (ref : Ref) (a : Design),
    archive s !! ref = Some a ->
    exists a', archive s' !! ref = Some a' /\
               evaluationCount (fitness a) <= evaluationCount (fitness a').

Lemma countsKept_refl (s : St) : countsKept s s.
Proof. intros ref a Ha. exists a. split; [assumption | lra]. Qed.

Lemma perform_countsKept (env : @Env R) (op : ArchiveOp) (s : St) :
  exists s', perform env op s = (Returned tt, s') /\ countsKept s s'.
Proof.
  destruct op as [| agent | | | n | i r |]; simpl;
    try (exists s; split; [reflexivity | apply countsKept_refl]).
  - exists (persisted s). split; [apply save_run |].
    intros ref a Ha. exists a. split; [exact Ha | lra].
  - exists (afterAdd env agent s). unfold bind. rewrite add_eq. split; [reflexivity |].
    intros ref a Ha. exists a. split; [| lra].
    simpl. apply lookup_app_l_Some. exact Ha.
  - destruct (findById i (archive s)) as [[ref target] |] eqn:Hfind.
    + eexists. split; [apply updateFitness_found; eassumption |].
      apply findById_Some in Hfind. destruct Hfind as (Htarget & _).
      intros ref' a Ha. simpl. destruct (decide (ref = ref')) as [<- | Hne].
      * exists (updated target r).
        rewrite list_lookup_insert_eq by (eapply lookup_lt_Some; eassumption).
        assert (a = target) as -> by congruence.
        split; [reflexivity |]. rewrite updated_fitness, nextFitness_count. lra.
      * exists a. rewrite list_lookup_insert_ne by assumption. split; [assumption | lra].
    + exists s. split; [apply updateFitness_missing; assumption | apply countsKept_refl].
Qed.

(** X13.  Over any sequence of archive operations the evaluation count of a
    design never goes down.  Numbers are reals. *)
Theorem evaluationCount_never_decreases (env : @Env R) (ops : list ArchiveOp) :
  forall s : St,
    exists s' : St,
      performAll env ops s = (Returned tt, s') /\
      forall (ref : Ref) (a : Design),
        archive s !! ref = Some a ->
        exists a' : Design,
          archive s' !! ref = Some a' /\
          evaluationCount (fitness a) <= evaluationCount (fitness a').
Proof.
  induction ops as [| op rest IH]; intros s; simpl.
  - exists s. split; [reflexivity | apply countsKept_refl].
  - destruct (perform_countsKept env op s) as (s1 & Hop & H1).
    destruct (IH s1) as (s2 & Hrest & H2).
    exists s2. unfold bind. rewrite Hop, Hrest. split; [reflexivity |].
    intros ref a Ha. destruct (H1 ref a Ha) as (b & Hb & Hab).
    destruct (H2 ref b Hb) as (c & Hc & Hbc). exists c. split; [assumption | lra].
Qed.

End FitnessProperties.

(** * Restarting on what was saved *)

Section Restart.

Context {num : Type} `{Number num}.

#[local] Abbreviation St := (@State num).
#[local] Abbreviation Design := (@AgentDesign num).

(** X14.  Whatever archive operations ran since the file last held the archive,
    a manager constructed afterwards (by any process, whatever its memory
    held before: the clock plays no part) loads exactly the archive that
    the operations left, without reseeding and without writing, provided
    every fitness number of that archive is finite and not -0. *)
Theorem restart_recovers_archive
        (env env' : @Env num) (ops : list ArchiveOp) (s : St) (stale : list Design) :
  file (disk s) = Some (Serialized (stringify (archive s))) ->
  exists s' : St,
    performAll env ops s = (Returned tt, s') /\
    (storableArchive (archive s') ->
     newArchiveManager env' (setArchive stale s') = (Returned tt, s')).
Proof.
  intros Hsync.
  destruct (performAll_inSync env ops s Hsync) as (s' & Hrun & Hsync').
  exists s'. split; [assumption |]. intros Hstorable.
  unfold newArchiveManager, bind, modify.
  rewrite (load_array env' _ (stringify (archive s')) (map encodeDesign (archive s')));
    [| exact Hsync' | reflexivity].
  rewrite castAgents_encode by exact Hstorable. destruct s'; reflexivity.
Qed.

End Restart.

Lemma restart_recovers_archive_witness :
  exists s' : @State R,
    performAll exampleEnv
      [OpUpdateFitness "baseline-2" lowResult; OpAdd measuredCandidate;
       OpUpdateFitness "baseline-2" lowResult] seededState = (Returned tt, s') /\
    (storableArchive (archive s') ->
     newArchiveManager sameMillisecondEnv (setArchive [freshDesign] s') = (Returned tt, s')).
Proof.
  apply (restart_recovers_archive exampleEnv sameMillisecondEnv).
  reflexivity.
Defined.

Lemma disk_follows_archive_witness :
  exists s' : @State R,
    performAll exampleEnv [OpAdd measuredCandidate; OpUpdateFitness "baseline-1" lowResult]
               seededState = (Returned tt, s') /\
    file (disk s') = Some (Serialized (stringify (archive s'))).
Proof.
  apply (disk_follows_archive exampleEnv). reflexivity.
Defined.

(** * Accounting for a search *)

Section SearchAccounting.

Context {num : Type} `{Number num}.
Variable env : @Env num.
Variable config : @SearchConfig num.
Variable onProgress : bool.

#[local] Abbreviation St := (@State num).
#[local] Abbreviation Design := (@AgentDesign num).
#[local] Abbreviation Result := (@EvaluationResult num).

(** The state after the [add] of a pass, and after its evaluation. *)
Definition passAdded (s : St) (first : Proposal) : St :=
  afterAdd env (generatedCandidate env config s first) (beforeAdd config s).

Definition passDesign (s : St) (first : Proposal) : Design :=
  newDesign env (generatedCandidate env config s first) (beforeAdd config s).

Definition passEvaluated (s : St) (first : Proposal) (ref : Ref) (target : Design) : St :=
  let s1 := passAdded s first in
  persisted (setArchive (<[ref := updated target (evaluate env (evaluatorCalls s) (code target))]>
                           (archive s1))
                        (setEvaluatorCalls (S (evaluatorCalls s)) s1)).

Definition passes (s : St) (target : Design) : bool :=
  ngeb (result_accuracy (evaluate env (evaluatorCalls s) (code target)))
       (minFitnessThreshold config).

Lemma searchBody_succeeded_eq (i : nat) (discovered : list Ref) (s : St)
      (first : Proposal) (ref : Ref) (target : Design) :
  completeJson env (oracleCalls s) (Generate (promptOf s)) = Some first ->
  findById (id (passDesign s first)) (archive s ++ [passDesign s first]) = Some (ref, target) ->
  searchBody env config onProgress i discovered s =
  (Returned (discovered ++ (if passes s target then [length (archive s)] else [])),
   let s2 := passEvaluated s first ref target in
   if onProgress && passes s target
   then setProgress (progress s2 ++ [(i, length (archive s))]) s2 else s2).
Proof.
  intros Hok Hfind.
  assert (Hlook : archive (passAdded s first) !! length (archive s) = Some (passDesign s first)).
  { change (archive (passAdded s first)) with (archive s ++ [passDesign s first]).
    apply list_lookup_middle. reflexivity. }
  unfold searchBody, bind. rewrite (runGeneration_succeeded env config s first Hok).
  fold (passAdded s first). cbv beta iota. unfold deref, Ref in *. rewrite Hlook.
  rewrite (evaluateAgent_found env (id (passDesign s first)) (passAdded s first) ref target Hfind).
  cbv beta iota zeta. unfold callOnProgress, ret, modify, passes, passEvaluated.
  change (evaluatorCalls (passAdded s first)) with (evaluatorCalls s).
  destruct (ngeb (result_accuracy (evaluate env (evaluatorCalls s) (code target)))
                 (minFitnessThreshold config));
    destruct onProgress; rewrite ?app_nil_r; reflexivity.
Qed.

(** How many designs a pass from state [s] stores: 1 when its first
    oracle call succeeds, 0 when it fails. *)
Definition storedBy (s : St) : nat :=
  match completeJson env (oracleCalls s) (Generate (promptOf s)) with
  | Some _ => 1
  | None => 0
  end.

(** One pass of the loop, summed up. *)
Lemma searchBody_pass (i : nat) (discovered : list Ref) (s : St) :
  exists (new : list Ref) (s' : St) (added : nat),
    searchBody env config onProgress i discovered s = (Returned (discovered ++ new), s') /\
    added = storedBy s /\
    generationCounter s' = S (generationCounter s) /\
    length (archive s') = length (archive s) + added /\
    evaluatorCalls s' = evaluatorCalls s + added /\
    oracleCalls s' = oracleCalls s + 1 + added * reflexionSteps config /\
    clockReads s' = clockReads s + 2 * added /\
    progress s' = progress s ++ (if onProgress then map (pair i) new else []) /\
    (new = [] \/
     exists target, added = 1 /\ passes s target = true /\ new = [length (archive s)]) /\
    (added = 1 ->
     exists target, new = if passes s target then [length (archive s)] else []).
Proof.
  unfold storedBy.
  destruct (completeJson env (oracleCalls s) (Generate (promptOf s))) as [first |] eqn:E.
  - destruct (findById_present (archive s ++ [passDesign s first]) (passDesign s first))
      as (ref & target & Hfind).
    { apply elem_of_app. right. apply list_elem_of_singleton. reflexivity. }
    rewrite (searchBody_succeeded_eq i discovered s first ref target E Hfind).
    eexists. eexists. exists 1. split; [reflexivity |].
    split; [reflexivity |].
    assert (Hlen : length (archive (passEvaluated s first ref target)) = length (archive s) + 1).
    { unfold passEvaluated. cbn [archive persisted setDisk setArchive].
      rewrite length_insert. unfold passAdded, afterAdd.
      cbn [archive persisted setDisk setArchive]. rewrite length_app. reflexivity. }
    cbv zeta. destruct (passes s target) eqn:Hpass; destruct onProgress; cbn [andb];
      (split; [reflexivity |]);
      (split; [exact Hlen || (cbn [archive setProgress]; exact Hlen) |]);
      (split; [cbn; lia |]); (split; [cbn; lia |]); (split; [cbn; lia |]);
      (split; [cbn; rewrite ?app_nil_r; reflexivity |]);
      (split; [| intros _; exists target; rewrite Hpass; reflexivity]);
      first [left; reflexivity | right; exists target; auto].
  - rewrite (searchBody_failed env config onProgress i discovered s E).
    exists [], (afterFailedGeneration s), 0.
    rewrite app_nil_r. split; [reflexivity |]. split; [reflexivity |].
    split; [reflexivity |]. split; [cbn; lia |]. split; [cbn; lia |].
    split; [cbn; lia |]. split; [cbn; lia |].
    split; [destruct onProgress; cbn; rewrite app_nil_r; reflexivity |].
    split; [left; reflexivity | intros; discriminate].
Qed.

End SearchAccounting.

Section SearchTotals.

Context {num : Type} `{Number num}.
Variable env : @Env num.
Variable config : @SearchConfig num.
Variable onProgress : bool.

#[local] Abbreviation St := (@State num).
#[local] Abbreviation Design := (@AgentDesign num).

Lemma searchLoop_totals (remaining : nat) :
  forall (i : nat) (discovered : list Ref) (s : St),
    exists (new : list Ref) (s' : St) (added : nat),
      searchLoop env config onProgress remaining i discovered s
      = (Returned (discovered ++ new), s') /\
      added <= remaining /\
      length (archive s') = length (archive s) + added /\
      evaluatorCalls s' = evaluatorCalls s + added /\
      oracleCalls s' = oracleCalls s + remaining + added * reflexionSteps config /\
      clockReads s' = clockReads s + 2 * added /\
      length new <= added.
Proof.
  induction remaining as [| r IH]; intros i discovered s.
  - exists [], s, 0. rewrite app_nil_r. repeat split; simpl; lia.
  - destruct (searchBody_pass env config onProgress i discovered s)
      as (new1 & s1 & added1 & Hbody & Hadded1 & _ & Hlen1 & Hev1 & Hor1 & Hcl1 & _ & Hnew1 & _).
    destruct (IH (S i) (discovered ++ new1) s1)
      as (new2 & s2 & added2 & Hloop & Hle2 & Hlen2 & Hev2 & Hor2 & Hcl2 & Hnew2).
    exists (new1 ++ new2), s2, (added1 + added2).
    cbn [searchLoop]. unfold bind. rewrite Hbody, Hloop, app_assoc.
    assert (Hle1 : added1 <= 1).
    { rewrite Hadded1. unfold storedBy. destruct (completeJson _ _ _); lia. }
    assert (Hcount1 : length new1 <= added1).
    { destruct Hnew1 as [-> | (target & -> & _ & ->)]; simpl; lia. }
    rewrite length_app. repeat split; lia.
Qed.

(** X15.  The cost of a search is known in advance: [runSearch] stores at most
    [maxGenerations] designs, calls the evaluator once per stored design,
    reads the clock twice per stored design, calls the oracle once per pass
    and [reflexionSteps] more times per stored design, and reports at most
    as many designs as it stored. *)
Theorem runSearch_accounting (s : St) :
  exists (discovered : list Ref) (s' : St) (added : nat),
    runSearch env config onProgress s = (Returned discovered, s') /\
    added <= maxGenerations config /\
    length (archive s') = length (archive s) + added /\
    evaluatorCalls s' = evaluatorCalls s + added /\
    oracleCalls s' = oracleCalls s + maxGenerations config + added * reflexionSteps config /\
    clockReads s' = clockReads s + 2 * added /\
    length discovered <= added.
Proof.
  destruct (searchLoop_totals (maxGenerations config) 0 [] s)
    as (new & s' & added & Hrun & Hrest).
  exists new, s', added. split; [exact Hrun | exact Hrest].
Qed.

(** What the loop reports, and to whom. *)
Lemma searchLoop_reports (remaining : nat) :
  forall (i : nat) (discovered : list Ref) (s : St),
    exists (new : list Ref) (s' : St) (calls : list (nat * Ref)),
      searchLoop env config onProgress remaining i discovered s
      = (Returned (discovered ++ new), s') /\
      length (archive s) <= length (archive s') /\
      Forall (fun ref => length (archive s) <= ref < length (archive s')) new /\
      StronglySorted lt new /\
      progress s' = progress s ++ (if onProgress then calls else []) /\
      map snd calls = new /\
      Forall (fun call => i <= fst call < i + remaining) calls /\
      StronglySorted lt (map fst calls).
Proof.
  induction remaining as [| r IH]; intros i discovered s.
  - exists [], s, []. rewrite app_nil_r. split; [reflexivity |].
    split; [lia |]. split; [constructor |]. split; [constructor |].
    split; [destruct onProgress; rewrite app_nil_r; reflexivity |].
    split; [reflexivity |]. split; constructor.
  - destruct (searchBody_pass env config onProgress i discovered s)
      as (new1 & s1 & added1 & Hbody & _ & _ & Hlen1 & _ & _ & _ & Hprog1 & Hnew1 & _).
    destruct (IH (S i) (discovered ++ new1) s1)
      as (new2 & s2 & calls2 & Hloop & Hlen2 & Hrange2 & Hsorted2 & Hprog2 & Hsnd2 & Hidx2 & Hfst2).
    exists (new1 ++ new2), s2, (map (pair i) new1 ++ calls2).
    cbn [searchLoop]. unfold bind. rewrite Hbody, Hloop, app_assoc.
    split; [reflexivity |]. split; [lia |].
    assert (Hshift : Forall (fun ref => length (archive s) <= ref < length (archive s2)) new2).
    { eapply Forall_impl; [exact Hrange2 |]. simpl. intros ref Href. lia. }
    assert (Hlater : Forall (fun call => i < fst call) calls2).
    { eapply Forall_impl; [exact Hidx2 |]. simpl. intros call Hcall. lia. }
    assert (Hidx : Forall (fun call => i <= fst call < i + S r) calls2).
    { eapply Forall_impl; [exact Hidx2 |]. simpl. intros call Hcall. lia. }
    destruct Hnew1 as [-> | (target & -> & _ & ->)]; cbn [app map].
    + split; [exact Hshift |]. split; [exact Hsorted2 |].
      split; [rewrite Hprog2, Hprog1; destruct onProgress; rewrite ?app_nil_r; reflexivity |].
      split; [exact Hsnd2 |]. split; [exact Hidx | exact Hfst2].
    + split; [constructor; [lia | exact Hshift] |].
      split.
      { constructor; [exact Hsorted2 |].
        eapply Forall_impl; [exact Hrange2 |]. simpl. intros ref Href. lia. }
      split.
      { rewrite Hprog2, Hprog1. destruct onProgress; rewrite ?app_nil_r; [| reflexivity].
        rewrite <- app_assoc. reflexivity. }
      split; [cbn [snd]; rewrite Hsnd2; reflexivity |].
      split; [constructor; [cbn [fst]; lia | exact Hidx] |].
      cbn [fst]. constructor; [exact Hfst2 |].
      apply Forall_map. exact Hlater.
Qed.

(** X16.  Every reference that [runSearch] returns is the position of a design
    stored during this run, and the references come in the order of
    storing, none twice.  With a callback, the callback has been called
    exactly once for each of them, in the same order, with pass indices
    below [maxGenerations] that increase; without one, nobody is called. *)
Theorem runSearch_reports (s : St) :
  exists (discovered : list Ref) (s' : St) (calls : list (nat * Ref)),
    runSearch env config onProgress s = (Returned discovered, s') /\
    Forall (fun ref => length (archive s) <= ref < length (archive s')) discovered /\
    StronglySorted lt discovered /\
    progress s' = progress s ++ (if onProgress then calls else []) /\
    map snd calls = discovered /\
    Forall (fun call => fst call < maxGenerations config) calls /\
    StronglySorted lt (map fst calls).
Proof.
  destruct (searchLoop_reports (maxGenerations config) 0 [] s)
    as (new & s' & calls & Hrun & _ & Hrange & Hsorted & Hprog & Hsnd & Hidx & Hfst).
  exists new, s', calls. split; [exact Hrun |]. repeat (split; [assumption |]).
  split; [| assumption].
  eapply Forall_impl; [exact Hidx |]. simpl. intros call Hcall. lia.
Qed.

Lemma searchLoop_below_threshold (remaining : nat) :
  (forall n agentCode,
      ngeb (result_accuracy (evaluate env n agentCode)) (minFitnessThreshold config) = false) ->
  forall (i : nat) (discovered : list Ref) (s : St),
    exists (s' : St) (added : nat),
      searchLoop env config onProgress remaining i discovered s = (Returned discovered, s') /\
      progress s' = progress s /\
      length (archive s') = length (archive s) + added /\
      evaluatorCalls s' = evaluatorCalls s + added /\
      ((forall n req, completeJson env n req <> None) -> added = remaining).
Proof.
  intros Hbelow. induction remaining as [| r IH]; intros i discovered s.
  - exists s, 0. repeat split; simpl; lia.
  - destruct (searchBody_pass env config onProgress i discovered s)
      as (new1 & s1 & added1 & Hbody & Hadded1 & _ & Hlen1 & Hev1 & _ & _ & Hprog1 & Hnew1 & _).
    assert (new1 = []) as ->.
    { destruct Hnew1 as [-> | (target & _ & Hpass & _)]; [reflexivity |].
      unfold passes in Hpass. rewrite Hbelow in Hpass. discriminate. }
    rewrite app_nil_r in Hbody.
    destruct (IH (S i) discovered s1) as (s2 & added2 & Hloop & Hprog2 & Hlen2 & Hev2 & Hall2).
    exists s2, (added1 + added2). cbn [searchLoop]. unfold bind. rewrite Hbody, Hloop.
    split; [reflexivity |].
    split; [rewrite Hprog2, Hprog1; destruct onProgress; apply app_nil_r |].
    split; [lia |]. split; [lia |].
    intros Hanswers. rewrite (Hall2 Hanswers), Hadded1. unfold storedBy.
    destruct (completeJson env (oracleCalls s) (Generate (promptOf s))) eqn:E; [lia |].
    exfalso. exact (Hanswers _ _ E).
Qed.

(** X17.  If every evaluation comes out below [minFitnessThreshold], the search
    reports nothing and calls nobody, but the designs it generated are in
    the archive all the same, one per pass if the oracle always answers. *)
Theorem runSearch_below_threshold (s : St) :
  (forall n agentCode,
      ngeb (result_accuracy (evaluate env n agentCode)) (minFitnessThreshold config) = false) ->
  exists (s' : St) (added : nat),
    runSearch env config onProgress s = (Returned [], s') /\
    progress s' = progress s /\
    length (archive s') = length (archive s) + added /\
    evaluatorCalls s' = evaluatorCalls s + added /\
    ((forall n req, completeJson env n req <> None) -> added = maxGenerations config).
Proof.
  intros Hbelow. apply searchLoop_below_threshold. exact Hbelow.
Qed.

Lemma searchLoop_all_pass (remaining : nat) :
  (forall n req, completeJson env n req <> None) ->
  (forall n agentCode,
      ngeb (result_accuracy (evaluate env n agentCode)) (minFitnessThreshold config) = true) ->
  forall (i : nat) (discovered : list Ref) (s : St),
    exists s' : St,
      searchLoop env config onProgress remaining i discovered s
      = (Returned (discovered ++ seq (length (archive s)) remaining), s') /\
      length (archive s') = length (archive s) + remaining.
Proof.
  intros Hanswers Hpass. induction remaining as [| r IH]; intros i discovered s.
  - exists s. simpl. rewrite app_nil_r. split; [reflexivity | lia].
  - destruct (searchBody_pass env config onProgress i discovered s)
      as (new1 & s1 & added1 & Hbody & Hadded1 & _ & Hlen1 & _ & _ & _ & _ & _ & Hnew1).
    assert (added1 = 1) as ->.
    { rewrite Hadded1. unfold storedBy.
      destruct (completeJson env (oracleCalls s) (Generate (promptOf s))) eqn:E; [reflexivity |].
      exfalso. exact (Hanswers _ _ E). }
    destruct (Hnew1 eq_refl) as (target & ->). unfold passes in Hbody. rewrite Hpass in Hbody.
    destruct (IH (S i) (discovered ++ [length (archive s)]) s1) as (s2 & Hloop & Hlen2).
    exists s2. cbn [searchLoop]. unfold bind. rewrite Hbody, Hloop.
    split; [| lia].
    rewrite <- app_assoc. cbn [seq app].
    replace (length (archive s1)) with (S (length (archive s))) by lia. reflexivity.
Qed.

(** X18.  If the oracle always answers and every evaluation reaches
    [minFitnessThreshold], the search stores and reports one design per
    pass: the result is the [maxGenerations] positions that follow the
    archive as it was. *)
Theorem runSearch_all_pass (s : St) :
  (forall n req, completeJson env n req <> None) ->
  (forall n agentCode,
      ngeb (result_accuracy (evaluate env n agentCode)) (minFitnessThreshold config) = true) ->
  exists s' : St,
    runSearch env config onProgress s
    = (Returned (seq (length (archive s)) (maxGenerations config)), s') /\
    length (archive s') = length (archive s) + maxGenerations config.
Proof.
  intros Hanswers Hpass.
  destruct (searchLoop_all_pass (maxGenerations config) Hanswers Hpass 0 [] s) as (s' & Hrun & Hlen).
  exists s'. split; [exact Hrun | exact Hlen].
Qed.

End SearchTotals.

(** * Ids within a run *)

Section UniqueIds.

Context {num : Type} `{Number num}.
Variable env : @Env num.
Variable config : @SearchConfig num.
Variable onProgress : bool.

#[local] Abbreviation St := (@State num).
#[local] Abbreviation Design := (@AgentDesign num).

(** No two designs share an id, and no id of the form gen-<g>-<t> is
    numbered above the generation counter. *)
Definition wellNumbered (s : St) : Prop :=
  NoDup (map id (archive s)) /\
  forall (a : Design) (g : nat) (t : N),
    a ∈ archive s -> id a = generatedId (GenNumber g) t -> g <= generationCounter s.

Lemma passDesign_id (s : St) (first : Proposal) :
  id (passDesign env config s first)
  = generatedId (GenNumber (S (generationCounter s))) (clock env (clockReads s)).
Proof. reflexivity. Qed.

Lemma passDesign_fresh (s : St) (first : Proposal) (a : Design) :
  wellNumbered s -> a ∈ archive s -> id a <> id (passDesign env config s first).
Proof.
  intros [_ Hnum] Hin E. rewrite passDesign_id in E.
  specialize (Hnum a _ _ Hin E). lia.
Qed.

Lemma findById_fresh (l : list Design) (full : Design) :
  (forall a, a ∈ l -> id a <> id full) ->
  findById (id full) (l ++ [full]) = Some (length l, full).
Proof.
  intros Hfresh. apply findById_Some. split; [| split].
  - apply list_lookup_middle. reflexivity.
  - reflexivity.
  - intros j b Hj Hlt. rewrite lookup_app_l in Hj by exact Hlt.
    apply Hfresh. eapply list_elem_of_lookup_2. exact Hj.
Qed.

(** The design a pass leaves in the archive: the generated one, with the
    evaluation of its own code recorded. *)
Definition passStored (s : St) (first : Proposal) : Design :=
  updated (passDesign env config s first)
          (evaluate env (evaluatorCalls s) (code (passDesign env config s first))).

Lemma searchBody_wellNumbered (i : nat) (discovered : list Ref) (s : St) :
  wellNumbered s ->
  exists (discovered' : list Ref) (s' : St) (stored : list Design),
    searchBody env config onProgress i discovered s = (Returned discovered', s') /\
    archive s' = archive s ++ stored /\
    generationCounter s' = S (generationCounter s) /\
    wellNumbered s' /\
    Forall (fun a =>
              (exists n, fitness a = nextFitness zeroFitness
                                       (result_accuracy (evaluate env n (code a)))) /\
              generation a = GenNumber (generationCounter s') /\
              enabled a = (if retired (fitness a) then false else true))
           stored.
Proof.
  intros Hwell.
  destruct (completeJson env (oracleCalls s) (Generate (promptOf s))) as [first |] eqn:E.
  - set (full := passDesign env config s first).
    assert (Hfind : findById (id full) (archive s ++ [full]) = Some (length (archive s), full)).
    { apply findById_fresh. intros a Ha. apply passDesign_fresh; assumption. }
    rewrite (searchBody_succeeded_eq env config onProgress i discovered s first _ _ E Hfind).
    assert (Harch : archive (passEvaluated env config s first (length (archive s)) full)
                    = archive s ++ [passStored s first]).
    { unfold passEvaluated. cbn [archive persisted setDisk setArchive].
      change (archive (passAdded env config s first)) with (archive s ++ [full]).
      rewrite insert_app_r_alt by lia. rewrite Nat.sub_diag. reflexivity. }
    eexists. eexists. exists [passStored s first].
    split; [reflexivity |].
    assert (Hwell' : NoDup (map id (archive s ++ [passStored s first])) /\
                     forall (a : Design) (g : nat) (t : N),
                       a ∈ archive s ++ [passStored s first] ->
                       id a = generatedId (GenNumber g) t -> g <= S (generationCounter s)).
    { destruct Hwell as [Hnodup Hnum]. split.
      - rewrite map_app. apply NoDup_app. split; [exact Hnodup |]. split.
        + intros x Hx Hx'. apply list_elem_of_singleton in Hx'.
          apply list_elem_of_fmap in Hx. destruct Hx as (a & -> & Ha).
          revert Hx'. apply passDesign_fresh; [split; assumption | exact Ha].
        + apply NoDup_singleton.
      - intros a g t Ha Hid. apply elem_of_app in Ha. destruct Ha as [Ha | Ha].
        + specialize (Hnum a g t Ha Hid). lia.
        + apply list_elem_of_singleton in Ha. subst a.
          change (id (passStored s first)) with (id full) in Hid.
          unfold full in Hid. rewrite passDesign_id in Hid.
          apply generatedId_inj in Hid. destruct Hid as [Hg _].
          injection Hg as <-. lia. }
    cbv zeta.
    set (s2 := passEvaluated env config s first (length (archive s)) full) in *.
    set (s3 := if onProgress && passes env config s full
               then setProgress (progress s2 ++ [(i, length (archive s))]) s2 else s2).
    assert (Harch3 : archive s3 = archive s ++ [passStored s first]).
    { subst s3. destruct (onProgress && passes env config s full); exact Harch. }
    assert (Hgen3 : generationCounter s3 = S (generationCounter s)).
    { subst s3. destruct (onProgress && passes env config s full); reflexivity. }
    split; [exact Harch3 |]. split; [exact Hgen3 |].
    split; [unfold wellNumbered; rewrite Harch3, Hgen3; exact Hwell' |].
    constructor; [| constructor].
    rewrite Hgen3.
    split; [exists (evaluatorCalls s); reflexivity | split; reflexivity].
  - rewrite (searchBody_failed env config onProgress i discovered s E).
    exists discovered, (afterFailedGeneration s), [].
    split; [reflexivity |]. split; [cbn; rewrite app_nil_r; reflexivity |].
    split; [reflexivity |].
    split; [| constructor].
    destruct Hwell as [Hnodup Hnum]. split; [exact Hnodup |].
    intros a g t Ha Hid. specialize (Hnum a g t Ha Hid). cbn. lia.
Qed.

Lemma searchLoop_wellNumbered (remaining : nat) :
  forall (i : nat) (discovered : list Ref) (s : St),
    wellNumbered s ->
    exists (discovered' : list Ref) (s' : St) (stored : list Design),
      searchLoop env config onProgress remaining i discovered s = (Returned discovered', s') /\
      archive s' = archive s ++ stored /\
      wellNumbered s' /\
      Forall (fun a =>
                (exists n, fitness a = nextFitness zeroFitness
                                         (result_accuracy (evaluate env n (code a)))) /\
                (exists g, generation a = GenNumber g /\
                           generationCounter s < g <= generationCounter s') /\
                enabled a = (if retired (fitness a) then false else true))
             stored.
Proof.
  induction remaining as [| r IH]; intros i discovered s Hwell.
  - exists discovered, s, []. rewrite app_nil_r.
    split; [reflexivity |]. split; [reflexivity |]. split; [assumption | constructor].
  - destruct (searchBody_wellNumbered i discovered s Hwell)
      as (d1 & s1 & stored1 & Hbody & Harch1 & Hgen1 & Hwell1 & Hstored1).
    destruct (IH (S i) d1 s1 Hwell1) as (d2 & s2 & stored2 & Hloop & Harch2 & Hwell2 & Hstored2).
    assert (Hmono : generationCounter s1 <= generationCounter s2).
    { destruct (searchLoop_returns env config onProgress r (S i) d1 s1)
        as (d2' & s2' & Hloop' & Hgen2).
      rewrite Hloop in Hloop'. injection Hloop' as _ <-. lia. }
    exists d2, s2, (stored1 ++ stored2).
    cbn [searchLoop]. unfold bind. rewrite Hbody, Hloop.
    split; [reflexivity |].
    split; [rewrite Harch2, Harch1, app_assoc; reflexivity |].
    split; [assumption |].
    apply Forall_app. split.
    + eapply Forall_impl; [exact Hstored1 |]. simpl. intros a (Hfit & Hg & Hen).
      split; [assumption |]. split; [| assumption].
      exists (generationCounter s1). split; [assumption | lia].
    + eapply Forall_impl; [exact Hstored2 |]. simpl. intros a (Hfit & (g & Hg & Hrange) & Hen).
      split; [assumption |]. split; [| assumption].
      exists g. split; [assumption | lia].
Qed.

(** X19.  Ids stay unique through a search.  If no two designs share an id and
    no generated id is numbered above the generation counter (as after the
    constructor on a fresh directory), the same holds after [runSearch]. *)
Theorem runSearch_keeps_ids_unique (s : St) :
  NoDup (map id (archive s)) ->
  (forall (a : Design) (g : nat) (t : N),
      a ∈ archive s -> id a = generatedId (GenNumber g) t -> g <= generationCounter s) ->
  exists (discovered : list Ref) (s' : St),
    runSearch env config onProgress s = (Returned discovered, s') /\
    NoDup (map id (archive s')) /\
    (forall (a : Design) (g : nat) (t : N),
        a ∈ archive s' -> id a = generatedId (GenNumber g) t -> g <= generationCounter s').
Proof.
  intros Hnodup Hnum.
  destruct (searchLoop_wellNumbered (maxGenerations config) 0 [] s (conj Hnodup Hnum))
    as (discovered & s' & stored & Hrun & _ & [Hnodup' Hnum'] & _).
  exists discovered, s'. split; [exact Hrun |]. split; assumption.
Qed.

(** X20.  A search only appends.  Under the same condition on ids, [runSearch]
    leaves every design that was in the archive exactly as it was, fitness
    and flag included; what it stores comes after them, each design with a
    generation number above the old counter and up to the new one. *)
Theorem runSearch_only_appends (s : St) :
  NoDup (map id (archive s)) ->
  (forall (a : Design) (g : nat) (t : N),
      a ∈ archive s -> id a = generatedId (GenNumber g) t -> g <= generationCounter s) ->
  exists (discovered : list Ref) (s' : St) (stored : list Design),
    runSearch env config onProgress s = (Returned discovered, s') /\
    archive s' = archive s ++ stored /\
    Forall (fun a => exists g, generation a = GenNumber g /\
                               generationCounter s < g <= generationCounter s')
           stored.
Proof.
  intros Hnodup Hnum.
  destruct (searchLoop_wellNumbered (maxGenerations config) 0 [] s (conj Hnodup Hnum))
    as (discovered & s' & stored & Hrun & Harch & _ & Hstored).
  exists discovered, s', stored. split; [exact Hrun |]. split; [exact Harch |].
  eapply Forall_impl; [exact Hstored |]. simpl. intros a (_ & Hg & _). exact Hg.
Qed.

(** The archive that the constructor seeds satisfies the condition. *)
Lemma reseeded_wellNumbered (s : St) : wellNumbered (reseeded env s).
Proof.
  split.
  - rewrite reseeded_ids. apply (bool_decide_unpack _). vm_compute. exact I.
  - intros a g t Ha Hid. exfalso.
    apply (list_elem_of_fmap_2 id) in Ha. rewrite reseeded_ids in Ha.
    rewrite Hid in Ha. unfold generatedId in Ha.
    repeat (apply elem_of_cons in Ha; destruct Ha as [Ha | Ha]; [discriminate Ha |]).
    apply elem_of_nil in Ha. exact Ha.
Qed.

End UniqueIds.

Section StoredStatistics.

#[local] Open Scope R_scope.
Variable env : @Env R.
Variable config : @SearchConfig R.
Variable onProgress : bool.

(** X21.  Over the reals, every design that a search stores ends the search
    with exactly one evaluation on record: count 1, a mean equal to the
    accuracy the evaluator returned for its own code, and still enabled. *)
Theorem runSearch_stores_evaluated_once (s : @State R) :
  NoDup (map id (archive s)) ->
  (forall (a : @AgentDesign R) (g : nat) (t : N),
      a ∈ archive s -> id a = generatedId (GenNumber g) t -> (g <= generationCounter s)%nat) ->
  exists (discovered : list Ref) (s' : @State R) (stored : list (@AgentDesign R)),
    runSearch env config onProgress s = (Returned discovered, s') /\
    archive s' = archive s ++ stored /\
    Forall (fun a =>
              evaluationCount (fitness a) = 1 /\
              (exists n, accuracy (fitness a) = result_accuracy (evaluate env n (code a))) /\
              enabled a = true)
           stored.
Proof.
  intros Hnodup Hnum.
  destruct (searchLoop_wellNumbered env config onProgress (maxGenerations config) 0%nat [] s
              (conj Hnodup Hnum))
    as (discovered & s' & stored & Hrun & Harch & _ & Hstored).
  exists discovered, s', stored. split; [exact Hrun |]. split; [exact Harch |].
  eapply Forall_impl; [exact Hstored |]. simpl. intros a ((n & Hfit) & _ & Hen).
  assert (Hc : evaluationCount (fitness a) = 1).
  { rewrite Hfit, nextFitness_count. simpl. lra. }
  split; [exact Hc |]. split.
  - exists n. rewrite Hfit at 1. rewrite nextFitness_accuracy. simpl. field.
  - rewrite Hen. destruct (retired (fitness a)) eqn:E; [| reflexivity].
    apply retired_R_iff in E. lra.
Qed.

End StoredStatistics.

(** * The further theorems at concrete inputs *)

Lemma updateFitness_retires_exactly_witness :
  exists (s' : @State R) (a' : @AgentDesign R),
    updateFitness "gen-1-1000" lowResult freshState = (Returned tt, s') /\
    archive s' !! 0 = Some a' /\
    (enabled a' = true <->
     enabled freshDesign = true /\
     (evaluationCount (fitness a') < 5 \/ accuracy (fitness a') >= 0.3)%R).
Proof.
  apply (updateFitness_retires_exactly freshState "gen-1-1000" lowResult 0 freshDesign).
  reflexivity.
Defined.

Lemma fewer_than_five_never_retire_witness :
  exists (s' : @State R) (a' : @AgentDesign R),
    updateFitnessEach "gen-1-1000"
      [exampleResult 0; exampleResult 0.1; exampleResult 0; exampleResult 0.2]%R freshState
    = (Returned tt, s') /\
    archive s' !! 0 = Some a' /\
    evaluationCount (fitness a') = INR 4 /\
    enabled a' = enabled freshDesign.
Proof.
  apply (fewer_than_five_never_retire freshState 0 freshDesign
           [exampleResult 0; exampleResult 0.1; exampleResult 0; exampleResult 0.2]%R).
  - reflexivity.
  - reflexivity.
  - simpl. lia.
Defined.

Lemma poor_scores_retire_witness :
  exists (s' : @State R) (a' : @AgentDesign R),
    updateFitnessEach "gen-1-1000"
      [exampleResult 0.29; exampleResult 0; exampleResult 0.1;
       exampleResult 0.2; exampleResult 0.25]%R freshState
    = (Returned tt, s') /\
    archive s' !! 0 = Some a' /\
    enabled a' = false.
Proof.
  apply (poor_scores_retire freshState 0 freshDesign
           [exampleResult 0.29; exampleResult 0; exampleResult 0.1;
            exampleResult 0.2; exampleResult 0.25]%R).
  - reflexivity.
  - reflexivity.
  - simpl. lia.
  - repeat constructor; simpl; lra.
Defined.


(** The constructor's archive in binary64. *)
Definition floatSeededState : @State Binary64.float := reseeded floatEnv floatEmptyState.

(** An oracle that always answers, in binary64. *)
Definition answeringEnv : @Env Binary64.float :=
  {| clock := fun n => (5000 + N.of_nat n)%N;
     toISOString := show_N;
     completeJson := fun n _ =>
       Some (mkProposal "Ensemble" "Vote among answers." "async function forward() {}");
     evaluate := fun _ _ =>
       {| success := true; result_accuracy := decimal 1 2; errors := []; duration := of_Z 0 |} |}.

(** Threshold 0.6, evaluator always 0.5. *)
Lemma runSearch_below_threshold_witness :
  exists (s' : @State Binary64.float) (added : nat),
    runSearch floatEnv (mkSearchConfig 3 5 2 (decimal 6 10)) true floatSeededState
    = (Returned [], s') /\
    progress s' = progress floatSeededState /\
    length (archive s') = length (archive floatSeededState) + added /\
    evaluatorCalls s' = evaluatorCalls floatSeededState + added /\
    ((forall n req, completeJson floatEnv n req <> None) -> added = 3).
Proof.
  apply (runSearch_below_threshold floatEnv (mkSearchConfig 3 5 2 (decimal 6 10)) true
           floatSeededState).
  intros n agentCode. vm_compute. reflexivity.
Defined.

(** Threshold 0.3, evaluator always 0.5, oracle always answering. *)
Lemma runSearch_all_pass_witness :
  exists s' : @State Binary64.float,
    runSearch answeringEnv (mkSearchConfig 3 5 2 (decimal 3 10)) false floatSeededState
    = (Returned (seq (length (archive floatSeededState)) 3), s') /\
    length (archive s') = length (archive floatSeededState) + 3.
Proof.
  apply (runSearch_all_pass answeringEnv (mkSearchConfig 3 5 2 (decimal 3 10)) false
           floatSeededState).
  - intros n req. discriminate.
  - intros n agentCode. vm_compute. reflexivity.
Defined.

Lemma runSearch_keeps_ids_unique_witness :
  exists (discovered : list Ref) (s' : @State Binary64.float),
    runSearch floatEnv defaultConfig true floatSeededState = (Returned discovered, s') /\
    NoDup (map id (archive s')) /\
    (forall (a : @AgentDesign Binary64.float) (g : nat) (t : N),
        a ∈ archive s' -> id a = generatedId (GenNumber g) t -> g <= generationCounter s').
Proof.
  destruct (reseeded_wellNumbered floatEnv floatEmptyState) as [Hnodup Hnum].
  apply (runSearch_keeps_ids_unique floatEnv defaultConfig true floatSeededState Hnodup Hnum).
Defined.

Lemma runSearch_only_appends_witness :
  exists (discovered : list Ref) (s' : @State Binary64.float)
         (stored : list (@AgentDesign Binary64.float)),
    runSearch floatEnv defaultConfig true floatSeededState = (Returned discovered, s') /\
    archive s' = archive floatSeededState ++ stored /\
    Forall (fun a => exists g, generation a = GenNumber g /\
                               generationCounter floatSeededState < g <= generationCounter s')
           stored.
Proof.
  destruct (reseeded_wellNumbered floatEnv floatEmptyState) as [Hnodup Hnum].
  apply (runSearch_only_appends floatEnv defaultConfig true floatSeededState Hnodup Hnum).
Defined.

Lemma runSearch_stores_evaluated_once_witness :
  exists (discovered : list Ref) (s' : @State R) (stored : list (@AgentDesign R)),
    runSearch exampleEnv defaultConfig true seededState = (Returned discovered, s') /\
    archive s' = archive seededState ++ stored /\
    Forall (fun a =>
              evaluationCount (fitness a) = 1%R /\
              (exists n, accuracy (fitness a) = result_accuracy (evaluate exampleEnv n (code a))) /\
              enabled a = true)
           stored.
Proof.
  destruct (reseeded_wellNumbered exampleEnv emptyState) as [Hnodup Hnum].
  apply (runSearch_stores_evaluated_once exampleEnv defaultConfig true seededState Hnodup Hnum).
Defined.

(** * Retired designs and the prompt *)

Section Shown.

Context {num : Type} `{Number num}.
Variable env : @Env num.

#[local] Abbreviation St := (@State num).
#[local] Abbreviation Design := (@AgentDesign num).
#[local] Abbreviation Result := (@EvaluationResult num).

Lemma ranked_are_enabled (n : nat) (l : list Design) (a : Design) :
  a ∈ take n (sortDesc (filter (fun b => enabled b = true) l)) -> enabled a = true /\ a ∈ l.
Proof.
  intros Ha. apply subseteq_take in Ha. rewrite sortDesc_perm in Ha.
  apply list_elem_of_filter in Ha. exact Ha.
Qed.

(** X22.  A retired design is never ranked or shown again: whatever archive
    operations follow, the design at its position is in no result of
    [getTopPerforming] and not among the designs [buildPrompt] renders for
    the oracle. *)
Theorem retired_designs_are_never_shown
        (ops : list ArchiveOp) (n : nat) (s : St) (ref : Ref) (a : Design) :
  archive s !! ref = Some a ->
  enabled a = false ->
  exists (s' : St) (a' : Design) (top shown : list Design),
    performAll env ops s = (Returned tt, s') /\
    archive s' !! ref = Some a' /\
    id a' = id a /\
    getTopPerforming n s' = (Returned top, s') /\
    (a' ∉ top) /\
    buildPrompt s' = (Returned shown, s') /\
    (a' ∉ shown) /\
    length shown <= 5.
Proof.
  intros Ha Hoff.
  destruct (performAll_staysRetired env ops s) as (s' & Hrun & Hstay).
  destruct (Hstay ref a Ha) as (a' & Ha' & Hid & Hen).
  specialize (Hen Hoff).
  eexists s', a', _, _.
  split; [exact Hrun |]. split; [exact Ha' |]. split; [exact Hid |].
  split; [apply getTopPerforming_eq |].
  split; [intros Hin; apply ranked_are_enabled in Hin; destruct Hin; congruence |].
  split; [reflexivity |].
  split; [intros Hin; apply ranked_are_enabled in Hin; destruct Hin; congruence |].
  rewrite length_take. lia.
Qed.

(** X23.  A design can be scored by the id [add] gave it: when that id is not
    already in use, [add] followed by [updateFitness] on the new id
    records the result on the new design, which stays last in the
    archive. *)
Theorem add_then_updateFitness (agent : @Candidate num) (r : Result) (s : St) :
  (forall a, a ∈ archive s ->
             id a <> generatedId (cand_generation agent) (clock env (clockReads s))) ->
  exists (s1 s2 : St) (full : Design),
    add env agent s = (Returned (length (archive s)), s1) /\
    archive s1 !! length (archive s) = Some full /\
    updateFitness (id full) r s1 = (Returned tt, s2) /\
    length (archive s2) = S (length (archive s)) /\
    archive s2 !! length (archive s) = Some (updated full r).
Proof.
  intros Hfresh.
  set (full := newDesign env agent s).
  assert (Hfind : findById (id full) (archive (afterAdd env agent s))
                  = Some (length (archive s), full)).
  { change (archive (afterAdd env agent s)) with (archive s ++ [full]).
    apply findById_fresh. exact Hfresh. }
  eexists (afterAdd env agent s), _, full.
  split; [apply add_eq |].
  split; [change (archive (afterAdd env agent s)) with (archive s ++ [full]);
          apply list_lookup_middle; reflexivity |].
  split; [apply (updateFitness_found _ _ _ _ _ Hfind) |].
  cbn [archive persisted setDisk setArchive].
  change (archive (afterAdd env agent s)) with (archive s ++ [full]).
  rewrite insert_app_r_alt by lia. rewrite Nat.sub_diag.
  split; [rewrite length_app; simpl; lia |].
  apply list_lookup_middle. reflexivity.
Qed.

(** X24.  The last answer wins.  If, among the oracle calls of the refinement
    rounds, call number [k] is answered with [d] and every later one
    fails, the design that the rounds leave is [d]. *)
Theorem reflexion_last_answer_wins
        (remaining k i : nat) (first d : Proposal) (s : St) :
  k < remaining ->
  (forall req, completeJson env (oracleCalls s + k) req = Some d) ->
  (forall j req, k < j -> completeJson env (oracleCalls s + j) req = None) ->
  reflexion env remaining i first s
  = (Returned d, setOracleCalls (oracleCalls s + remaining) s).
Proof.
  intros Hk Hanswer Hsilent. rewrite reflexion_eq. f_equal. f_equal.
  assert (Hlate : forall calls req, oracleCalls s + k < calls -> completeJson env calls req = None).
  { intros calls req Hlt.
    replace calls with (oracleCalls s + (calls - oracleCalls s)) by lia.
    apply Hsilent. lia. }
  assert (Hkeep : forall m i' x calls,
             oracleCalls s + k < calls -> refinedDesign env m i' x calls = x).
  { induction m as [| m IH]; intros i' x calls Hlt; [reflexivity |].
    cbn [refinedDesign]. unfold roundOutcome. rewrite Hlate by exact Hlt.
    apply IH. lia. }
  assert (Hwins : forall m i' x calls,
             calls <= oracleCalls s + k < calls + m -> refinedDesign env m i' x calls = d).
  { induction m as [| m IH]; intros i' x calls Hrange; [lia |].
    cbn [refinedDesign].
    destruct (decide (calls = oracleCalls s + k)) as [-> | Hne].
    - unfold roundOutcome. rewrite Hanswer. apply Hkeep. lia.
    - apply IH. lia. }
  apply Hwins. lia.
Qed.

End Shown.

(** * The search engine from its construction *)

Section Engine.

Context {num : Type} `{Number num}.
Variable env : @Env num.
Variable config : @SearchConfig num.
Variable onProgress : bool.

#[local] Abbreviation St := (@State num).
#[local] Abbreviation Design := (@AgentDesign num).

(** The constructor of [MetaAgentSearch]: the counter starts at 0, the
    archive directory is created when missing, and an [ArchiveManager] is
    constructed on it. *)
Definition newMetaAgentSearch : M St unit :=
  modify (setGenerationCounter 0) ;;;
  modify (fun s => if dirExists (disk s) then s
                   else setDisk (mkDisk true (file (disk s))) s) ;;;
  newArchiveManager env.

Lemma searchBody_inSync (i : nat) (discovered : list Ref) (s : St) :
  inSync s ->
  exists discovered' s',
    searchBody env config onProgress i discovered s = (Returned discovered', s') /\ inSync s'.
Proof.
  intros Hsync.
  destruct (completeJson env (oracleCalls s) (Generate (promptOf s))) as [first |] eqn:E.
  - destruct (findById_present (archive s ++ [passDesign env config s first])
                               (passDesign env config s first)) as (ref & target & Hfind).
    { apply elem_of_app. right. apply list_elem_of_singleton. reflexivity. }
    rewrite (searchBody_succeeded_eq env config onProgress i discovered s first ref target E Hfind).
    eexists. eexists. split; [reflexivity |].
    cbv zeta. destruct (onProgress && passes env config s target); reflexivity.
  - rewrite (searchBody_failed env config onProgress i discovered s E).
    eexists. eexists. split; [reflexivity | exact Hsync].
Qed.

Lemma searchLoop_inSync (remaining : nat) :
  forall (i : nat) (discovered : list Ref) (s : St),
    inSync s ->
    exists discovered' s',
      searchLoop env config onProgress remaining i discovered s = (Returned discovered', s') /\
      inSync s'.
Proof.
  induction remaining as [| r IH]; intros i discovered s Hsync.
  - exists discovered, s. split; [reflexivity | assumption].
  - destruct (searchBody_inSync i discovered s Hsync) as (d1 & s1 & Hbody & Hsync1).
    destruct (IH (S i) d1 s1 Hsync1) as (d2 & s2 & Hloop & Hsync2).
    exists d2, s2. cbn [searchLoop]. unfold bind. rewrite Hbody, Hloop.
    split; [reflexivity | assumption].
Qed.

(** X25.  A search keeps the file current: if the file holds the serialised
    archive before [runSearch], it does after, however the passes went. *)
Theorem runSearch_disk_follows_archive (s : St) :
  file (disk s) = Some (Serialized (stringify (archive s))) ->
  exists (discovered : list Ref) (s' : St),
    runSearch env config onProgress s = (Returned discovered, s') /\
    file (disk s') = Some (Serialized (stringify (archive s'))).
Proof. intros Hsync. apply searchLoop_inSync. exact Hsync. Qed.

Lemma newMetaAgentSearch_unreadable (s : St) :
  file (disk s) = None \/ file (disk s) = Some Garbled ->
  exists s0 : St,
    newMetaAgentSearch s = (Returned tt, s0) /\
    generationCounter s0 = 0 /\
    dirExists (disk s0) = true /\
    map id (archive s0) = ["baseline-0"; "baseline-1"; "baseline-2"; "baseline-3"] /\
    inSync s0 /\
    wellNumbered s0.
Proof.
  intros Hfile.
  set (s1 := (if dirExists (disk (setGenerationCounter 0 s))
              then setGenerationCounter 0 s
              else setDisk (mkDisk true (file (disk (setGenerationCounter 0 s))))
                           (setGenerationCounter 0 s))).
  assert (Hfile1 : file (disk (setArchive [] s1)) = file (disk s)).
  { subst s1. destruct (dirExists (disk (setGenerationCounter 0 s))); reflexivity. }
  assert (Hgen1 : generationCounter (setArchive [] s1) = 0).
  { subst s1. destruct (dirExists (disk (setGenerationCounter 0 s))); reflexivity. }
  exists (reseeded env (setArchive [] s1)).
  split.
  - unfold newMetaAgentSearch, newArchiveManager, bind, modify. fold s1.
    destruct Hfile as [Hfile | Hfile]; [apply load_absent | apply load_garbled];
      rewrite Hfile1; exact Hfile.
  - split; [exact Hgen1 |]. split; [reflexivity |]. split; [apply reseeded_ids |].
    split; [reflexivity | apply reseeded_wellNumbered].
Qed.

(** X26.  From construction to the end of a search.  An engine constructed on
    a directory whose archive file is missing or unreadable starts with
    counter 0 and the four baseline designs; a search run on it leaves
    those four untouched at the head of the archive, appends what it
    stores, keeps all ids distinct and leaves the file holding the whole
    archive. *)
Theorem fresh_engine_search (s : St) :
  file (disk s) = None \/ file (disk s) = Some Garbled ->
  exists (s0 s' : St) (discovered : list Ref) (stored : list Design),
    newMetaAgentSearch s = (Returned tt, s0) /\
    generationCounter s0 = 0 /\
    map id (archive s0) = ["baseline-0"; "baseline-1"; "baseline-2"; "baseline-3"] /\
    runSearch env config onProgress s0 = (Returned discovered, s') /\
    archive s' = archive s0 ++ stored /\
    generationCounter s' = maxGenerations config /\
    NoDup (map id (archive s')) /\
    file (disk s') = Some (Serialized (stringify (archive s'))).
Proof.
  intros Hfile.
  destruct (newMetaAgentSearch_unreadable s Hfile)
    as (s0 & Hnew & Hgen0 & _ & Hids & Hsync0 & Hwell0).
  destruct (searchLoop_wellNumbered env config onProgress (maxGenerations config) 0 [] s0 Hwell0)
    as (discovered & s' & stored & Hrun & Harch & [Hnodup _] & _).
  destruct (searchLoop_inSync (maxGenerations config) 0 [] s0 Hsync0)
    as (discovered2 & s2 & Hrun2 & Hsync').
  destruct (searchLoop_returns env config onProgress (maxGenerations config) 0 [] s0)
    as (discovered3 & s3 & Hrun3 & Hgen').
  unfold runSearch.
  rewrite Hrun in Hrun2, Hrun3. injection Hrun2 as _ <-. injection Hrun3 as _ <-.
  exists s0, s', discovered, stored.
  repeat (split; [assumption |]). split; [lia |]. split; assumption.
Qed.

End Engine.

Lemma retired_designs_are_never_shown_witness :
  exists (s' : @State Binary64.float) (a' : @AgentDesign Binary64.float)
         (top shown : list (@AgentDesign Binary64.float)),
    performAll floatEnv [OpUpdateFitness "gen-2-2000" perfectResult;
                         OpUpdateFitness "gen-2-2000" perfectResult] retiredState
    = (Returned tt, s') /\
    archive s' !! 0 = Some a' /\
    id a' = id retiredDesign /\
    getTopPerforming 3 s' = (Returned top, s') /\
    (a' ∉ top) /\
    buildPrompt s' = (Returned shown, s') /\
    (a' ∉ shown) /\
    length shown <= 5.
Proof.
  apply (retired_designs_are_never_shown floatEnv
           [OpUpdateFitness "gen-2-2000" perfectResult;
            OpUpdateFitness "gen-2-2000" perfectResult] 3 retiredState 0 retiredDesign).
  - reflexivity.
  - reflexivity.
Defined.

Lemma add_then_updateFitness_witness :
  exists (s1 s2 : @State R) (full : @AgentDesign R),
    add exampleEnv measuredCandidate seededState = (Returned (length (archive seededState)), s1) /\
    archive s1 !! length (archive seededState) = Some full /\
    updateFitness (id full) lowResult s1 = (Returned tt, s2) /\
    length (archive s2) = S (length (archive seededState)) /\
    archive s2 !! length (archive seededState) = Some (updated full lowResult).
Proof.
  apply (add_then_updateFitness exampleEnv measuredCandidate lowResult seededState).
  intros a Ha E. apply (list_elem_of_fmap_2 id) in Ha.
  rewrite E in Ha. vm_compute in Ha.
  repeat (apply elem_of_cons in Ha; destruct Ha as [Ha | Ha]; [discriminate Ha |]).
  apply elem_of_nil in Ha. exact Ha.
Defined.

(** An oracle that answers its second call only. *)
Definition secondCallEnv : @Env R :=
  {| clock := fun n => (1000 + N.of_nat n)%N;
     toISOString := show_N;
     completeJson := fun n _ =>
       if Nat.eqb n 1 then Some (mkProposal "Revised" "After critique." "async function forward() {}")
       else None;
     evaluate := fun _ _ => exampleResult 0.5%R |}.

Lemma reflexion_last_answer_wins_witness :
  reflexion secondCallEnv 3 0 (mkProposal "Draft" "First idea." "async function forward() {}")
            seededState
  = (Returned (mkProposal "Revised" "After critique." "async function forward() {}"),
     setOracleCalls (oracleCalls seededState + 3) seededState).
Proof.
  apply (reflexion_last_answer_wins secondCallEnv 3 1 0).
  - lia.
  - intros req. reflexivity.
  - intros j req Hj. simpl. destruct j as [| [| j]]; [lia | lia | reflexivity].
Defined.

Lemma runSearch_disk_follows_archive_witness :
  exists (discovered : list Ref) (s' : @State Binary64.float),
    runSearch floatEnv defaultConfig true floatSeededState = (Returned discovered, s') /\
    file (disk s') = Some (Serialized (stringify (archive s'))).
Proof.
  apply (runSearch_disk_follows_archive floatEnv defaultConfig true floatSeededState).
  reflexivity.
Defined.

Lemma fresh_engine_search_witness :
  exists (s0 s' : @State Binary64.float) (discovered : list Ref)
         (stored : list (@AgentDesign Binary64.float)),
    newMetaAgentSearch floatEnv floatEmptyState = (Returned tt, s0) /\
    generationCounter s0 = 0 /\
    map id (archive s0) = ["baseline-0"; "baseline-1"; "baseline-2"; "baseline-3"] /\
    runSearch floatEnv defaultConfig true s0 = (Returned discovered, s') /\
    archive s' = archive s0 ++ stored /\
    generationCounter s' = maxGenerations (defaultConfig (num := Binary64.float)) /\
    NoDup (map id (archive s')) /\
    file (disk s') = Some (Serialized (stringify (archive s'))).
Proof.
  apply (fresh_engine_search floatEnv defaultConfig true floatEmptyState).
  left. reflexivity.
Defined.

(** * Writes that fail, an evaluator that rejects, a callback that throws

    Up to here every write of the archive file succeeds and every call of
    the evaluator and of the progress callback returns.  The source guards
    none of the three: an exception of [mkdirSync] or [writeFileSync]
    leaves [save] and with it [initializeWithBaseline], [load] (also from
    its [catch] branch), the constructor, [add] and [updateFitness]; a
    rejection of [evaluator.evaluate] leaves [evaluateAgent]; and either
    of them, or an exception of [onProgress], leaves [runSearch].  This
    part writes the same functions out with these failures, which the
    environment decides by three more scripts. *)

(** What a write that throws leaves on the disk. *)
Inductive Leftover : Type :=
| Untouched        (* mkdirSync throws, or the file cannot be opened *)
| DirectoryMade    (* mkdirSync made the directory, the file could not be opened *)
| FileTruncated.   (* writeFileSync throws after it has opened the file *)

Record Faults : Type := mkFaults {
  writeThrows : nat -> bool;       (* the n-th write of the archive file throws *)
  leftBehind : nat -> Leftover;    (* and this is what it leaves *)
  evaluatorRejects : nat -> bool;  (* the n-th call of evaluator.evaluate rejects *)
  callbackThrows : nat -> bool;    (* the n-th call of onProgress throws *)
}.

Definition noFaults : Faults :=
  mkFaults (fun _ => false) (fun _ => Untouched) (fun _ => false) (fun _ => false).

(** No write throws, no evaluation rejects, no callback throws. *)
Definition quiet (faults : Faults) : Prop :=
  forall n : nat,
    writeThrows faults n = false /\
    evaluatorRejects faults n = false /\
    callbackThrows faults n = false.

(** The state, and the number of writes attempted so far. *)
Record Machine (num : Type) : Type := mkMachine {
  memory : @State num;
  writes : nat;
}.
Arguments mkMachine {num} memory writes.
Arguments memory {num} m.
Arguments writes {num} m.

Module Faulty.

Section Operations.

Context {num : Type} `{Number num}.
Variable faults : Faults.
Variable env : @Env num.
Variable config : @SearchConfig num.
Variable onProgress : bool.

#[local] Abbreviation St := (@State num).
#[local] Abbreviation Design := (@AgentDesign num).
#[local] Abbreviation Candidate := (@Candidate num).
#[local] Abbreviation EvaluationResult := (@EvaluationResult num).

(* a truncated text does not parse *)
Definition afterFailedWrite (l : Leftover) (d : @Disk num) : @Disk num :=
  match l with
  | Untouched => d
  | DirectoryMade => mkDisk true (file d)
  | FileTruncated => mkDisk true (Some Garbled)
  end.

(* a step that neither writes the file, evaluates nor calls back *)
Definition lift {A : Type} (m : M St A) : M (Machine num) A :=
  fun x => let (o, s) := m (memory x) in (o, mkMachine s (writes x)).

(* mkdirSync and writeFileSync, either of which may throw *)
Definition save : M (Machine num) unit :=
  fun x =>
    let x' := mkMachine (memory x) (S (writes x)) in
    if writeThrows faults (writes x) then
      (Thrown,
       mkMachine (setDisk (afterFailedWrite (leftBehind faults (writes x)) (disk (memory x)))
                          (memory x))
                 (S (writes x)))
    else lift save x'.

Definition initializeWithBaseline : M (Machine num) unit :=
  ds <- lift (seedFrom env 0 INITIAL_ARCHIVE) ;;
  lift (modify (setArchive ds)) ;;;
  save.

Definition load : M (Machine num) unit :=
  present <- lift existsArchiveFile ;;
  if present then
    tryCatch
      (data <- lift parseArchiveFile ;;
       match property "agents" data with
       | Some (JArray agents) => lift (modify (setArchive (castAgents agents)))
       | _ => lift (modify (setArchive []))
       end)
      initializeWithBaseline
  else initializeWithBaseline.

Definition newArchiveManager : M (Machine num) unit :=
  lift (modify (setArchive [])) ;;; load.

Definition add (agent : Candidate) : M (Machine num) Ref :=
  t <- lift (dateNow env) ;;
  iso <- lift (newDateISOString env) ;;
  let full := complete agent ("gen-" ++ show_generation (cand_generation agent) ++ "-" ++ show_N t)
                       iso true in
  ref <- lift (gets (fun s => length (archive s))) ;;
  lift (modify (fun s => setArchive (archive s ++ [full]) s)) ;;;
  save ;;;
  ret ref.

Definition updateFitness (i : string) (result : EvaluationResult) : M (Machine num) unit :=
  all <- lift (gets archive) ;;
  match findById i all with
  | None => ret tt
  | Some (ref, agent) =>
      lift (modify (fun s => setArchive (<[ref := updated agent result]> (archive s)) s)) ;;;
      save
  end.

(* await this.evaluator.evaluate(agent.code, tasks) *)
Definition evaluatorEvaluate (agentCode : string) : M (Machine num) EvaluationResult :=
  fun x =>
    let s := memory x in
    let x' := mkMachine (setEvaluatorCalls (S (evaluatorCalls s)) s) (writes x) in
    if evaluatorRejects faults (evaluatorCalls s) then (Thrown, x')
    else (Returned (evaluate env (evaluatorCalls s) agentCode), x').

Definition runGeneration : M (Machine num) (option Ref) :=
  lift (modify (fun s => setGenerationCounter (S (generationCounter s)) s)) ;;;
  prompt <- lift buildPrompt ;;
  first <- tryCatch (design <- lift (llmCompleteJson env (Generate prompt)) ;; ret (Some design))
                    (ret None) ;;
  match first with
  | None => ret None
  | Some design =>
      design <- lift (reflexion env (reflexionSteps config) 0 design) ;;
      g <- lift (gets generationCounter) ;;
      agent <- add {| cand_name := prop_name design;
                      cand_thought := prop_thought design;
                      cand_code := prop_code design;
                      cand_generation := GenNumber g;
                      cand_fitness := zeroFitness |} ;;
      ret (Some agent)
  end.

Definition evaluateAgent (agentId : string) : M (Machine num) EvaluationResult :=
  all <- lift getAll ;;
  match findById agentId all with
  | None => ret notFound
  | Some (_, agent) =>
      result <- evaluatorEvaluate (code agent) ;;
      updateFitness agentId result ;;;
      ret result
  end.

(* onProgress?.(i, agent) *)
Definition callOnProgress (i : nat) (agent : Ref) : M (Machine num) unit :=
  if onProgress then
    fun x =>
      if callbackThrows faults (length (progress (memory x))) then (Thrown, x)
      else lift (modify (fun s => setProgress (progress s ++ [(i, agent)]) s)) x
  else ret tt.

Definition searchBody (i : nat) (discovered : list Ref) : M (Machine num) (list Ref) :=
  generated <- runGeneration ;;
  match generated with
  | None => ret discovered            (* continue *)
  | Some agent =>
      a <- lift (deref agent) ;;
      result <- evaluateAgent (id a) ;;
      if ngeb (result_accuracy result) (minFitnessThreshold config) then
        callOnProgress i agent ;;;
        ret (discovered ++ [agent])
      else ret discovered
  end.

Fixpoint searchLoop (remaining i : nat) (discovered : list Ref) : M (Machine num) (list Ref) :=
  match remaining with
  | 0 => ret discovered
  | S r => discovered' <- searchBody i discovered ;; searchLoop r (S i) discovered'
  end.

Definition runSearch : M (Machine num) (list Ref) := searchLoop (maxGenerations config) 0 [].

End Operations.

End Faulty.

(** ** What the operations do when the write succeeds, and when it fails *)

Section FaultFacts.

Context {num : Type} `{Number num}.
Variable faults : Faults.
Variable env : @Env num.

#[local] Abbreviation St := (@State num).
#[local] Abbreviation Design := (@AgentDesign num).
#[local] Abbreviation Result := (@EvaluationResult num).

Lemma lift_run {A : Type} (m : M St A) (x : Machine num) :
  Faulty.lift m x = (fst (m (memory x)), mkMachine (snd (m (memory x))) (writes x)).
Proof. unfold Faulty.lift. destruct (m (memory x)); reflexivity. Qed.

Lemma faulty_save_returns (x : Machine num) :
  writeThrows faults (writes x) = false ->
  Faulty.save faults x = (Returned tt, mkMachine (persisted (memory x)) (S (writes x))).
Proof.
  intros Hw. unfold Faulty.save. rewrite Hw, lift_run. cbn [memory writes].
  rewrite save_run. reflexivity.
Qed.

Lemma faulty_save_throws (x : Machine num) :
  writeThrows faults (writes x) = true ->
  Faulty.save faults x
  = (Thrown,
     mkMachine (setDisk (Faulty.afterFailedWrite (leftBehind faults (writes x)) (disk (memory x)))
                        (memory x))
               (S (writes x))).
Proof. intros Hw. unfold Faulty.save. rewrite Hw. reflexivity. Qed.

(** The state in which the baseline designs are in memory and not yet
    written. *)
Definition seededInMemory (s : St) : St :=
  setArchive (seeded env 0 INITIAL_ARCHIVE (clockReads s)) (setClockReads (clockReads s + 4) s).

Lemma faulty_initializeWithBaseline_returns (x : Machine num) :
  writeThrows faults (writes x) = false ->
  Faulty.initializeWithBaseline faults env x
  = (Returned tt, mkMachine (reseeded env (memory x)) (S (writes x))).
Proof.
  intros Hw. unfold Faulty.initializeWithBaseline, bind.
  rewrite lift_run, seedFrom_eq. cbn [fst snd]. rewrite lift_run. unfold modify.
  cbn [fst snd memory writes]. rewrite faulty_save_returns by exact Hw. reflexivity.
Qed.

Lemma faulty_initializeWithBaseline_throws (x : Machine num) :
  writeThrows faults (writes x) = true ->
  Faulty.initializeWithBaseline faults env x
  = (Thrown,
     mkMachine (setDisk (Faulty.afterFailedWrite (leftBehind faults (writes x)) (disk (memory x)))
                        (seededInMemory (memory x)))
               (S (writes x))).
Proof.
  intros Hw. unfold Faulty.initializeWithBaseline, bind.
  rewrite lift_run, seedFrom_eq. cbn [fst snd]. rewrite lift_run. unfold modify.
  cbn [fst snd memory writes]. rewrite faulty_save_throws by exact Hw. reflexivity.
Qed.

Lemma faulty_load_unreadable (x : Machine num) :
  file (disk (memory x)) = None \/ file (disk (memory x)) = Some Garbled ->
  Faulty.load faults env x = Faulty.initializeWithBaseline faults env x.
Proof.
  intros Hfile. unfold Faulty.load, bind at 1. rewrite lift_run.
  unfold existsArchiveFile, gets. cbn [fst snd].
  destruct x as [s w]. cbn [memory writes] in *.
  destruct Hfile as [Hfile | Hfile]; rewrite Hfile; [reflexivity |].
  unfold tryCatch, bind. rewrite lift_run. unfold parseArchiveFile.
  cbn [memory writes]. rewrite Hfile. reflexivity.
Qed.

Lemma faulty_load_array (x : Machine num) (j : @Json num) (agents : list (@Json num)) :
  file (disk (memory x)) = Some (Serialized j) ->
  property "agents" j = Some (JArray agents) ->
  Faulty.load faults env x
  = (Returned tt, mkMachine (setArchive (castAgents agents) (memory x)) (writes x)).
Proof.
  intros Hfile Hagents. unfold Faulty.load, bind at 1. rewrite lift_run.
  unfold existsArchiveFile, gets. cbn [fst snd].
  destruct x as [s w]. cbn [memory writes] in *. rewrite Hfile.
  unfold tryCatch, bind. rewrite lift_run. unfold parseArchiveFile.
  cbn [memory writes]. rewrite Hfile. cbn [fst snd]. rewrite Hagents. reflexivity.
Qed.

Lemma faulty_load_shapeless (x : Machine num) (j : @Json num) :
  file (disk (memory x)) = Some (Serialized j) ->
  (forall agents, property "agents" j <> Some (JArray agents)) ->
  Faulty.load faults env x = (Returned tt, mkMachine (setArchive [] (memory x)) (writes x)).
Proof.
  intros Hfile Hshape. unfold Faulty.load, bind at 1. rewrite lift_run.
  unfold existsArchiveFile, gets. cbn [fst snd].
  destruct x as [s w]. cbn [memory writes] in *. rewrite Hfile.
  unfold tryCatch, bind. rewrite lift_run. unfold parseArchiveFile.
  cbn [memory writes]. rewrite Hfile. cbn [fst snd].
  destruct (property "agents" j) as [[| | | | | agents |] |] eqn:E;
    try reflexivity.
  exfalso. apply (Hshape agents). reflexivity.
Qed.

(** X27.  A write that fails while the baseline is being written is not
    caught: [load] throws, also when it got there through its [catch]
    branch; the baseline designs are in memory by then, and the file does
    not hold them. *)
Theorem load_write_failure_propagates (x : Machine num) :
  file (disk (memory x)) = None \/ file (disk (memory x)) = Some Garbled ->
  writeThrows faults (writes x) = true ->
  exists x' : Machine num,
    Faulty.load faults env x = (Thrown, x') /\
    map id (archive (memory x')) = ["baseline-0"; "baseline-1"; "baseline-2"; "baseline-3"] /\
    (file (disk (memory x')) = None \/ file (disk (memory x')) = Some Garbled).
Proof.
  intros Hfile Hw. rewrite (faulty_load_unreadable x Hfile).
  rewrite (faulty_initializeWithBaseline_throws x Hw).
  eexists. split; [reflexivity |]. split; [reflexivity |].
  cbn [memory disk setDisk]. unfold seededInMemory. cbn [disk setArchive setClockReads].
  destruct (leftBehind faults (writes x)); cbn [Faulty.afterFailedWrite file];
    [exact Hfile | exact Hfile | right; reflexivity].
Qed.

(** C3 (as the code has it).  When the file is absent or its text does not
    parse, [load] seeds the archive with the four baseline designs (ids
    baseline-0..3; name, thought, code and generation of [INITIAL_ARCHIVE];
    all enabled), so that it is not empty, and writes it at once: if that
    write succeeds, [load] returns with the file holding the archive.
    When the text parses but has no array-valued [agents] field, [load]
    returns with the archive empty, and nothing is written.  And whenever
    its write, if it makes one, succeeds, [load] returns. *)
Theorem load_reseeds_only_when_unreadable :
  (forall x : Machine num,
      file (disk (memory x)) = None \/ file (disk (memory x)) = Some Garbled ->
      writeThrows faults (writes x) = false ->
      exists x' : Machine num,
        Faulty.load faults env x = (Returned tt, x') /\
        map id (archive (memory x')) = ["baseline-0"; "baseline-1"; "baseline-2"; "baseline-3"] /\
        map name (archive (memory x')) = map cand_name INITIAL_ARCHIVE /\
        map thought (archive (memory x')) = map cand_thought INITIAL_ARCHIVE /\
        map code (archive (memory x')) = map cand_code INITIAL_ARCHIVE /\
        map generation (archive (memory x')) = map cand_generation INITIAL_ARCHIVE /\
        Forall (fun a => enabled a = true) (archive (memory x')) /\
        archive (memory x') <> [] /\
        disk (memory x') = mkDisk true (Some (Serialized (stringify (archive (memory x'))))) /\
        writes x' = S (writes x)) /\
  (forall (x : Machine num) (j : @Json num),
      file (disk (memory x)) = Some (Serialized j) ->
      (forall agents, property "agents" j <> Some (JArray agents)) ->
      exists x' : Machine num,
        Faulty.load faults env x = (Returned tt, x') /\
        archive (memory x') = [] /\
        disk (memory x') = disk (memory x) /\
        writes x' = writes x) /\
  (forall x : Machine num,
      writeThrows faults (writes x) = false ->
      exists x' : Machine num, Faulty.load faults env x = (Returned tt, x')).
Proof.
  split; [| split].
  - intros x Hfile Hw. eexists. split.
    + rewrite (faulty_load_unreadable x Hfile).
      apply (faulty_initializeWithBaseline_returns x Hw).
    + cbn [memory writes]. repeat split; try reflexivity.
      * repeat constructor.
      * discriminate.
  - intros x j Hfile Hshape. eexists.
    split; [apply (faulty_load_shapeless x j Hfile Hshape) |]. repeat split.
  - intros x Hw. destruct (file (disk (memory x))) as [[| j] |] eqn:Hfile.
    + eexists. rewrite (faulty_load_unreadable x (or_intror Hfile)).
      apply (faulty_initializeWithBaseline_returns x Hw).
    + destruct (property "agents" j) as [[| | | | | agents |] |] eqn:E;
        try (eexists; apply (faulty_load_shapeless x j Hfile); intros agents'; rewrite E;
             discriminate).
      eexists. apply (faulty_load_array x j agents Hfile E).
    + eexists. rewrite (faulty_load_unreadable x (or_introl Hfile)).
      apply (faulty_initializeWithBaseline_returns x Hw).
Qed.

(** The memory of a process that has just started, or holds anything
    else, next to the disk that [x] left. *)
Definition withMemory (stale : list Design) (x : Machine num) : Machine num :=
  mkMachine (setArchive stale (memory x)) (writes x).

(** C9 (as the code has it).  For every archive state whose fitness numbers
    are finite and not -0: if the write of [save] succeeds, a manager
    that is then constructed on the file, whatever its process held in
    memory, ends up with the archive that was saved: the same designs in
    the same order, hence the same ids and the same fitness values. *)
Theorem save_then_load_recovers (x : Machine num) (stale : list Design) :
  storableArchive (archive (memory x)) ->
  writeThrows faults (writes x) = false ->
  exists x1 x2 : Machine num,
    Faulty.save faults x = (Returned tt, x1) /\
    Faulty.newArchiveManager faults env (withMemory stale x1) = (Returned tt, x2) /\
    archive (memory x2) = archive (memory x) /\
    map id (archive (memory x2)) = map id (archive (memory x)) /\
    map fitness (archive (memory x2)) = map fitness (archive (memory x)).
Proof.
  intros Hstorable Hw.
  exists (mkMachine (persisted (memory x)) (S (writes x))),
         (mkMachine (persisted (memory x)) (S (writes x))).
  split; [apply (faulty_save_returns x Hw) |].
  split; [| repeat split; reflexivity].
  unfold Faulty.newArchiveManager, bind. rewrite lift_run. unfold modify. cbn [fst snd].
  rewrite (faulty_load_array _ (stringify (archive (memory x)))
             (map encodeDesign (archive (memory x)))); try reflexivity.
  cbn [memory writes withMemory]. rewrite castAgents_encode by exact Hstorable.
  destruct x as [[]]; reflexivity.
Qed.

End FaultFacts.

(** ** When nothing fails, the operations run as before *)

Section Quiet.

Context {num : Type} `{Number num}.
Variable faults : Faults.
Variable env : @Env num.
Variable config : @SearchConfig num.
Variable onProgress : bool.

#[local] Abbreviation St := (@State num).
#[local] Abbreviation Design := (@AgentDesign num).
#[local] Abbreviation Result := (@EvaluationResult num).

(** [m'] does to the memory what [m] does to the state, and returns or
    throws as [m] does. *)
Definition follows {A : Type} (m' : M (Machine num) A) (m : M St A) : Prop :=
  forall x : Machine num,
    exists w : nat,
      m' x = (fst (m (memory x)), mkMachine (snd (m (memory x))) w).

Lemma follows_lift {A : Type} (m : M St A) : follows (Faulty.lift m) m.
Proof. intros x. exists (writes x). apply lift_run. Qed.

Lemma follows_ret {A : Type} (a : A) : follows (ret a) (ret a).
Proof. intros [s w]. exists w. reflexivity. Qed.

Lemma follows_bind {A B : Type} (m' : M (Machine num) A) (m : M St A)
      (k' : A -> M (Machine num) B) (k : A -> M St B) :
  follows m' m -> (forall a, follows (k' a) (k a)) -> follows (bind m' k') (bind m k).
Proof.
  intros Hm Hk x. unfold bind. destruct (Hm x) as (w & ->).
  destruct (m (memory x)) as [[a |] s]; cbn [fst snd].
  - destruct (Hk a (mkMachine s w)) as (w' & ->). exists w'. reflexivity.
  - exists w. reflexivity.
Qed.

Lemma follows_tryCatch {A : Type} (m' h' : M (Machine num) A) (m h : M St A) :
  follows m' m -> follows h' h -> follows (tryCatch m' h') (tryCatch m h).
Proof.
  intros Hm Hh x. unfold tryCatch. destruct (Hm x) as (w & ->).
  destruct (m (memory x)) as [[a |] s]; cbn [fst snd].
  - exists w. reflexivity.
  - destruct (Hh (mkMachine s w)) as (w' & ->). exists w'. reflexivity.
Qed.

Hypothesis Hquiet : quiet faults.

Lemma follows_save : follows (Faulty.save faults) save.
Proof using Hquiet.
  intros x. exists (S (writes x)).
  rewrite faulty_save_returns by apply Hquiet. rewrite save_run. reflexivity.
Qed.

Lemma follows_initializeWithBaseline :
  follows (Faulty.initializeWithBaseline faults env) (initializeWithBaseline env).
Proof using Hquiet.
  unfold Faulty.initializeWithBaseline, initializeWithBaseline.
  apply follows_bind; [apply follows_lift | intros ds].
  apply follows_bind; [apply follows_lift | intros _]. apply follows_save.
Qed.

Lemma follows_load : follows (Faulty.load faults env) (load env).
Proof using Hquiet.
  unfold Faulty.load, load.
  apply follows_bind; [apply follows_lift | intros present].
  destruct present; [| apply follows_initializeWithBaseline].
  apply follows_tryCatch; [| apply follows_initializeWithBaseline].
  apply follows_bind; [apply follows_lift | intros data].
  destruct (property "agents" data) as [[| | | | | agents |] |]; apply follows_lift.
Qed.

Lemma follows_newArchiveManager :
  follows (Faulty.newArchiveManager faults env) (newArchiveManager env).
Proof using Hquiet.
  unfold Faulty.newArchiveManager, newArchiveManager.
  apply follows_bind; [apply follows_lift | intros _]. apply follows_load.
Qed.

Lemma follows_add (agent : @Candidate num) : follows (Faulty.add faults env agent) (add env agent).
Proof using Hquiet.
  unfold Faulty.add, add.
  apply follows_bind; [apply follows_lift | intros t].
  apply follows_bind; [apply follows_lift | intros iso].
  apply follows_bind; [apply follows_lift | intros ref].
  apply follows_bind; [apply follows_lift | intros _].
  apply follows_bind; [apply follows_save | intros _].
  apply follows_ret.
Qed.

Lemma follows_updateFitness (i : string) (r : Result) :
  follows (Faulty.updateFitness faults i r) (updateFitness i r).
Proof using Hquiet.
  unfold Faulty.updateFitness, updateFitness.
  apply follows_bind; [apply follows_lift | intros all].
  destruct (findById i all) as [[ref agent] |]; [| apply follows_ret].
  apply follows_bind; [apply follows_lift | intros _]. apply follows_save.
Qed.

Lemma follows_evaluatorEvaluate (agentCode : string) :
  follows (Faulty.evaluatorEvaluate faults env agentCode) (evaluatorEvaluate env agentCode).
Proof using Hquiet.
  intros x. exists (writes x). unfold Faulty.evaluatorEvaluate, evaluatorEvaluate.
  destruct (Hquiet (evaluatorCalls (memory x))) as (_ & -> & _). reflexivity.
Qed.

Lemma follows_evaluateAgent (agentId : string) :
  follows (Faulty.evaluateAgent faults env agentId) (evaluateAgent env agentId).
Proof using Hquiet.
  unfold Faulty.evaluateAgent, evaluateAgent.
  apply follows_bind; [apply follows_lift | intros all].
  destruct (findById agentId all) as [[ref agent] |]; [| apply follows_ret].
  apply follows_bind; [apply follows_evaluatorEvaluate | intros result].
  apply follows_bind; [apply follows_updateFitness | intros _].
  apply follows_ret.
Qed.

Lemma follows_runGeneration :
  follows (Faulty.runGeneration faults env config) (runGeneration env config).
Proof using Hquiet.
  unfold Faulty.runGeneration, runGeneration.
  apply follows_bind; [apply follows_lift | intros _].
  apply follows_bind; [apply follows_lift | intros prompt].
  apply follows_bind.
  - apply follows_tryCatch; [| apply follows_ret].
    apply follows_bind; [apply follows_lift | intros design]. apply follows_ret.
  - intros [design |]; [| apply follows_ret].
    apply follows_bind; [apply follows_lift | intros design'].
    apply follows_bind; [apply follows_lift | intros g].
    apply follows_bind; [apply follows_add | intros agent].
    apply follows_ret.
Qed.

Lemma follows_callOnProgress (i : nat) (agent : Ref) :
  follows (Faulty.callOnProgress faults onProgress i agent) (callOnProgress onProgress i agent).
Proof using Hquiet.
  unfold Faulty.callOnProgress, callOnProgress.
  destruct onProgress; [| apply follows_ret].
  intros x. exists (writes x).
  destruct (Hquiet (length (progress (memory x)))) as (_ & _ & ->).
  apply lift_run.
Qed.

Lemma follows_searchBody (i : nat) (discovered : list Ref) :
  follows (Faulty.searchBody faults env config onProgress i discovered)
          (searchBody env config onProgress i discovered).
Proof using Hquiet.
  unfold Faulty.searchBody, searchBody.
  apply follows_bind; [apply follows_runGeneration | intros [agent |]]; [| apply follows_ret].
  apply follows_bind; [apply follows_lift | intros a].
  apply follows_bind; [apply follows_evaluateAgent | intros result].
  destruct (ngeb (result_accuracy result) (minFitnessThreshold config)); [| apply follows_ret].
  apply follows_bind; [apply follows_callOnProgress | intros _]. apply follows_ret.
Qed.

Lemma follows_searchLoop (remaining : nat) :
  forall (i : nat) (discovered : list Ref),
    follows (Faulty.searchLoop faults env config onProgress remaining i discovered)
            (searchLoop env config onProgress remaining i discovered).
Proof using Hquiet.
  induction remaining as [| r IH]; intros i discovered; cbn [Faulty.searchLoop searchLoop].
  - apply follows_ret.
  - apply follows_bind; [apply follows_searchBody | intros discovered']. apply IH.
Qed.

End Quiet.

(** ** The iterations of a search *)

Section Iterations.

Context {num : Type} `{Number num}.
Variable env : @Env num.
Variable config : @SearchConfig num.

#[local] Abbreviation St := (@State num).
#[local] Abbreviation Design := (@AgentDesign num).
#[local] Abbreviation Result := (@EvaluationResult num).

(** One iteration in the words of the specification.  A generation whose
    oracle call failed is skipped: it adds nothing to the archive or to
    the discovered list. *)
Definition skipped (s s' : St) (d d' : list Ref) : Prop :=
  archive s' = archive s /\ disk s' = disk s /\ d' = d.

(** A generated design is stored at the end of the archive, under a new
    generation number; the design that its id resolves to is evaluated
    once; and the new design is recorded as discovered exactly when the
    accuracy of that evaluation is at or above [minFitnessThreshold]. *)
Definition generated (s s' : St) (d d' : list Ref) : Prop :=
  exists (stored evaluated : Design) (ref : Ref) (result : Result),
    map id (archive s') = map id (archive s) ++ [id stored] /\
    archive s' !! length (archive s) = Some stored /\
    generation stored = GenNumber (S (generationCounter s)) /\
    findById (id stored) (archive s') = Some (ref, evaluated) /\
    result = evaluate env (evaluatorCalls s) (code evaluated) /\
    evaluatorCalls s' = S (evaluatorCalls s) /\
    d' = (if ngeb (result_accuracy result) (minFitnessThreshold config)
          then d ++ [length (archive s)] else d).

Definition iteration (s : St) (d : list Ref) (s' : St) (d' : list Ref) : Prop :=
  generationCounter s' = S (generationCounter s) /\
  match completeJson env (oracleCalls s) (Generate (promptOf s)) with
  | None => skipped s s' d d'
  | Some _ => generated s s' d d'
  end.

(** [n] iterations, one after the other. *)
Inductive iterations : nat -> St -> list Ref -> St -> list Ref -> Prop :=
| iterations_none (s : St) (d : list Ref) : iterations 0 s d s d
| iterations_next (n : nat) (s s1 s' : St) (d d1 d' : list Ref) :
    iteration s d s1 d1 -> iterations n s1 d1 s' d' -> iterations (S n) s d s' d'.

Lemma searchBody_iteration (onProgress : bool) (i : nat) (d : list Ref) (s : St) :
  exists (d' : list Ref) (s' : St),
    searchBody env config onProgress i d s = (Returned d', s') /\ iteration s d s' d'.
Proof.
  unfold iteration.
  destruct (completeJson env (oracleCalls s) (Generate (promptOf s))) as [first |] eqn:E.
  - set (full := passDesign env config s first).
    destruct (findById_present (archive s ++ [full]) full) as (ref & target & Hfind).
    { apply elem_of_app. right. apply list_elem_of_singleton. reflexivity. }
    rewrite (searchBody_succeeded_eq env config onProgress i d s first ref target E Hfind).
    set (result := evaluate env (evaluatorCalls s) (code target)).
    set (u := updated target result).
    assert (Harch : forall s2 : St,
               s2 = (let s2 := passEvaluated env config s first ref target in
                     if onProgress && passes env config s target
                     then setProgress (progress s2 ++ [(i, length (archive s))]) s2 else s2) ->
               archive s2 = <[ref := u]> (archive s ++ [full]) /\
               generationCounter s2 = S (generationCounter s) /\
               evaluatorCalls s2 = S (evaluatorCalls s)).
    { intros s2 ->. cbv zeta.
      destruct (onProgress && passes env config s target); repeat split. }
    eexists. eexists. split; [reflexivity |].
    destruct (Harch _ eq_refl) as (Ha & Hg & He). split; [exact Hg |].
    pose proof Hfind as Hfind0.
    apply findById_Some in Hfind0. destruct Hfind0 as (Hlook & Hid & _).
    assert (Hlast : (archive s ++ [full]) !! length (archive s) = Some full)
      by (apply list_lookup_middle; reflexivity).
    exists (if decide (ref = length (archive s)) then u else full), u, ref, result.
    assert (Hstored : id (if decide (ref = length (archive s)) then u else full) = id full).
    { destruct (decide (ref = length (archive s))) as [-> | _]; [| reflexivity].
      subst u. rewrite updated_id. exact Hid. }
    rewrite Ha, Hstored.
    split.
    { rewrite list_fmap_insert.
      rewrite (list_insert_id (id <$> (archive s ++ [full])) ref (id u)).
      - rewrite fmap_app. reflexivity.
      - rewrite list_lookup_fmap. unfold Ref in *. rewrite Hlook. reflexivity. }
    split.
    { destruct (decide (ref = length (archive s))) as [-> | Hne].
      - apply list_lookup_insert_eq. eapply lookup_lt_Some. exact Hlast.
      - rewrite list_lookup_insert_ne by exact Hne. exact Hlast. }
    split.
    { destruct (decide (ref = length (archive s))) as [Heq | _]; [| reflexivity].
      assert (Ht : target = full) by (unfold Ref in *; rewrite Heq in Hlook; congruence).
      subst u. rewrite Ht. reflexivity. }
    split; [apply (findById_insert _ _ _ target); [exact Hfind | reflexivity] |].
    split; [reflexivity |]. split; [exact He |].
    fold (passes env config s target). unfold passes. fold result.
    destruct (ngeb (result_accuracy result) (minFitnessThreshold config));
      [reflexivity | apply app_nil_r].
  - rewrite (searchBody_failed env config onProgress i d s E).
    eexists. eexists. split; [reflexivity |]. repeat split.
Qed.

Lemma searchLoop_iterations (onProgress : bool) (remaining : nat) :
  forall (i : nat) (d : list Ref) (s : St),
    exists (d' : list Ref) (s' : St),
      searchLoop env config onProgress remaining i d s = (Returned d', s') /\
      generationCounter s' = generationCounter s + remaining /\
      iterations remaining s d s' d'.
Proof.
  induction remaining as [| r IH]; intros i d s.
  - exists d, s. split; [reflexivity |]. split; [lia | constructor].
  - destruct (searchBody_iteration onProgress i d s) as (d1 & s1 & Hbody & Hiter).
    destruct (IH (S i) d1 s1) as (d2 & s2 & Hloop & Hgen & Hrest).
    exists d2, s2. cbn [searchLoop]. unfold bind. rewrite Hbody, Hloop.
    split; [reflexivity |]. split; [destruct Hiter as [Hg _]; lia |].
    econstructor; eassumption.
Qed.

End Iterations.

Section FaultySearch.

Context {num : Type} `{Number num}.
Variable faults : Faults.
Variable env : @Env num.
Variable config : @SearchConfig num.
Variable onProgress : bool.

#[local] Abbreviation St := (@State num).
#[local] Abbreviation Design := (@AgentDesign num).
#[local] Abbreviation Result := (@EvaluationResult num).

Lemma faulty_runGeneration_failed (x : Machine num) :
  completeJson env (oracleCalls (memory x)) (Generate (promptOf (memory x))) = None ->
  Faulty.runGeneration faults env config x
  = (Returned None, mkMachine (afterFailedGeneration (memory x)) (writes x)).
Proof.
  intros Hfail. destruct x as [s w]. cbn [memory writes] in *.
  unfold Faulty.runGeneration, bind, tryCatch, Faulty.lift, modify, buildPrompt, gets,
    llmCompleteJson.
  cbn [memory writes archive setGenerationCounter oracleCalls]. fold (promptOf s).
  rewrite Hfail. reflexivity.
Qed.

Lemma faulty_searchBody_failed (i : nat) (discovered : list Ref) (x : Machine num) :
  completeJson env (oracleCalls (memory x)) (Generate (promptOf (memory x))) = None ->
  Faulty.searchBody faults env config onProgress i discovered x
  = (Returned discovered, mkMachine (afterFailedGeneration (memory x)) (writes x)).
Proof.
  intros Hfail. unfold Faulty.searchBody, bind.
  rewrite (faulty_runGeneration_failed x Hfail). reflexivity.
Qed.

Lemma faulty_searchLoop_all_failed (remaining : nat) :
  (forall n req, completeJson env n req = None) ->
  forall (i : nat) (discovered : list Ref) (x : Machine num),
    exists x' : Machine num,
      Faulty.searchLoop faults env config onProgress remaining i discovered x
      = (Returned discovered, x') /\
      archive (memory x') = archive (memory x) /\
      disk (memory x') = disk (memory x) /\
      writes x' = writes x /\
      generationCounter (memory x') = generationCounter (memory x) + remaining.
Proof.
  intros Hsilent. induction remaining as [| r IH]; intros i discovered x.
  - exists x. repeat split; try reflexivity. lia.
  - destruct (IH (S i) discovered (mkMachine (afterFailedGeneration (memory x)) (writes x)))
      as (x' & Hloop & Ha & Hd & Hw & Hg).
    exists x'. cbn [Faulty.searchLoop]. unfold bind.
    rewrite (faulty_searchBody_failed i discovered x (Hsilent _ _)), Hloop.
    repeat split; try assumption. rewrite Hg. cbn. lia.
Qed.



End FaultySearch.

(** ** The theorems of this part at concrete inputs *)

(** The constructor's [load] on an empty directory, in binary64. *)
Lemma load_reseeds_only_when_unreadable_witness :
  exists x' : Machine Binary64.float,
    Faulty.load noFaults floatEnv (mkMachine floatEmptyState 0) = (Returned tt, x') /\
    map id (archive (memory x')) = ["baseline-0"; "baseline-1"; "baseline-2"; "baseline-3"] /\
    map name (archive (memory x')) = map cand_name INITIAL_ARCHIVE /\
    map thought (archive (memory x')) = map cand_thought INITIAL_ARCHIVE /\
    map code (archive (memory x')) = map cand_code INITIAL_ARCHIVE /\
    map generation (archive (memory x')) = map cand_generation INITIAL_ARCHIVE /\
    Forall (fun a => enabled a = true) (archive (memory x')) /\
    archive (memory x') <> [] /\
    disk (memory x') = mkDisk true (Some (Serialized (stringify (archive (memory x'))))) /\
    writes x' = 1.
Proof.
  apply (proj1 (load_reseeds_only_when_unreadable noFaults floatEnv)
               (mkMachine floatEmptyState 0)).
  - left. reflexivity.
  - reflexivity.
Defined.

(** A write that fails: the path of the archive file is a directory, say.
    The file does not parse, [load] goes to its [catch] branch, and the
    exception of the write done there reaches the caller. *)
Definition failingWrites : Faults :=
  mkFaults (fun _ => true) (fun _ => Untouched) (fun _ => false) (fun _ => false).

Lemma load_write_failure_propagates_witness :
  exists x' : Machine Binary64.float,
    Faulty.load failingWrites floatEnv
      (mkMachine (mkState [] 0 (mkDisk true (Some Garbled)) 0 0 0 []) 0) = (Thrown, x') /\
    map id (archive (memory x')) = ["baseline-0"; "baseline-1"; "baseline-2"; "baseline-3"] /\
    (file (disk (memory x')) = None \/ file (disk (memory x')) = Some Garbled).
Proof.
  apply (load_write_failure_propagates failingWrites floatEnv
           (mkMachine (mkState [] 0 (mkDisk true (Some Garbled)) 0 0 0 []) 0)).
  - right. reflexivity.
  - reflexivity.
Defined.

Example load_raises_when_write_fails :
  exists x' : Machine Binary64.float,
    Faulty.newArchiveManager failingWrites floatEnv
      (mkMachine (mkState [] 0 (mkDisk true (Some Garbled)) 0 0 0 []) 0) = (Thrown, x') /\
    generationCounter (memory x') = 0.
Proof. eexists. split; reflexivity. Qed.

(** Saving the seeded archive and constructing a manager in a process
    whose memory holds nothing. *)
Lemma save_then_load_recovers_witness :
  exists x1 x2 : Machine Binary64.float,
    Faulty.save noFaults (mkMachine floatSeededState 0) = (Returned tt, x1) /\
    Faulty.newArchiveManager noFaults floatEnv (withMemory [] x1) = (Returned tt, x2) /\
    archive (memory x2) = archive floatSeededState /\
    map id (archive (memory x2)) = map id (archive floatSeededState) /\
    map fitness (archive (memory x2)) = map fitness (archive floatSeededState).
Proof.
  apply (save_then_load_recovers noFaults floatEnv (mkMachine floatSeededState 0) []).
  - apply (bool_decide_unpack _). vm_compute. exact I.
  - reflexivity.
Defined.

(** A design whose one evaluation reported an accuracy of 2: the variance
    2 * (1 - 2) / 1 is negative, its square root is NaN, and so are both
    confidence bounds. *)
Definition unevaluatedDesign : @AgentDesign Binary64.float :=
  {| id := "gen-1-1000"; name := "Debate"; thought := "Two agents argue.";
     code := "async function forward() {}"; generation := GenNumber 1;
     fitness := zeroFitness; createdAt := "1001"; enabled := true |}.

Definition nanState : @State Binary64.float :=
  snd (updateFitness "gen-1-1000"
         {| success := true; result_accuracy := of_Z 2; errors := []; duration := of_Z 0 |}
         (mkState [unevaluatedDesign] 1 (mkDisk true None) 2 0 0 [])).

(** C9, as stated, fails: a confidence bound that is NaN is written as
    [null], and the manager constructed on the file holds a design with
    the same id whose bound is not NaN: the fitness values are not those
    that were persisted. *)
Lemma nan_statistic_is_not_recovered :
  exists (x1 x2 : Machine Binary64.float) (before after : @AgentDesign Binary64.float),
    archive nanState = [before] /\
    PrimFloat.is_nan (confidenceLow (fitness before)) = true /\
    Faulty.save noFaults (mkMachine nanState 0) = (Returned tt, x1) /\
    (exists written : @Json Binary64.float,
        file (disk (memory x1))
        = Some (Serialized (JObject [("agents", JArray [written])])) /\
        (property "fitness" written ≫= property "confidenceLow") = Some JNull) /\
    Faulty.newArchiveManager noFaults floatEnv (withMemory [] x1) = (Returned tt, x2) /\
    archive (memory x2) = [after] /\
    id after = id before /\
    PrimFloat.is_nan (confidenceLow (fitness after)) = false /\
    map fitness (archive (memory x2)) <> map fitness (archive nanState).
Proof.
  exists (snd (Faulty.save noFaults (mkMachine nanState 0))),
         (snd (Faulty.newArchiveManager noFaults floatEnv
                 (withMemory [] (snd (Faulty.save noFaults (mkMachine nanState 0)))))),
         (hd unevaluatedDesign (archive nanState)),
         (hd unevaluatedDesign
             (archive (memory (snd (Faulty.newArchiveManager noFaults floatEnv
                 (withMemory [] (snd (Faulty.save noFaults (mkMachine nanState 0))))))))).
  split; [vm_compute; reflexivity |]. split; [vm_compute; reflexivity |].
  split; [vm_compute; reflexivity |].
  split.
  { exists (encodeDesign (hd unevaluatedDesign (archive nanState))).
    split; vm_compute; reflexivity. }
  split; [vm_compute; reflexivity |]. split; [vm_compute; reflexivity |].
  split; [vm_compute; reflexivity |]. split; [vm_compute; reflexivity |].
  intros E.
  apply (f_equal (fun l => match l with
                           | f :: _ => PrimFloat.is_nan (confidenceLow f)
                           | [] => false
                           end)) in E.
  vm_compute in E. discriminate E.
Qed.



(** What that run gives. *)
Example binary64_faulty_search :
  let '(outcome, x) :=
    Faulty.runSearch noFaults floatEnv (mkSearchConfig 3 5 2 (decimal 3 10)) true
      (mkMachine floatSeededState 0) in
  (outcome, map id (archive (memory x)), progress (memory x), writes x)
  = (Returned [4; 5],
     ["baseline-0"; "baseline-1"; "baseline-2"; "baseline-3"; "gen-1-1004"; "gen-3-1006"],
     [(0, 4); (2, 5)], 4).
Proof. vm_compute. reflexivity. Qed.

(** An evaluator that rejects every call. *)
Definition rejectingEvaluator : Faults :=
  mkFaults (fun _ => false) (fun _ => Untouched) (fun _ => true) (fun _ => false).


(** The same with a write that fails: the exception of [add]'s write
    leaves [runGeneration] and [runSearch]. *)
Example runSearch_aborts_when_write_fails :
  exists x' : Machine Binary64.float,
    Faulty.runSearch failingWrites answeringEnv (mkSearchConfig 3 5 2 (decimal 3 10)) true
      (mkMachine floatSeededState 0) = (Thrown, x') /\
    generationCounter (memory x') = 1.
Proof.
  exists (snd (Faulty.runSearch failingWrites answeringEnv
                 (mkSearchConfig 3 5 2 (decimal 3 10)) true (mkMachine floatSeededState 0))).
  split; vm_compute; reflexivity.
Qed.
